(** * Terminal to-do list: the store, the entity codec, the group model and
    the selection model of [todo.py], embedded and verified.

    The program keeps a list of records in one JSON file shared by several
    sessions.  The embedding follows the source function by function:
    Python values and exceptions, the string methods the program calls,
    the file as a piece of explicit state, and the bodies of the key
    handlers of [main] as functions over the locals of its loop. *)

From Stdlib Require Import Ascii String ZArith List Lia Permutation Sorted.
From stdpp Require Import base gmap list strings pretty.

#[local] Arguments String.append !_ _ / : simpl nomatch.

(** ** Python exceptions and the result of a fallible computation *)

Module Py.

Inductive exn := KeyError | IndexError | AttributeError | TypeError.

Inductive res (A : Type) : Type :=
  | Ok (a : A)
  | Raise (e : exn).
Arguments Ok {A} a.
Arguments Raise {A} e.

#[global] Instance res_ret : MRet res := fun _ a => Ok a.
#[global] Instance res_bind : MBind res := fun _ _ f m =>
  match m with
  | Ok a => f a
  | Raise e => Raise e
  end.

(** [for x in l: f x], stopping at the first exception. *)
Fixpoint mapM_res {A B} (f : A -> res B) (l : list A) : res (list B) :=
  match l with
  | [] => Ok []
  | x :: l' => y ← f x; ys ← mapM_res f l'; Ok (y :: ys)
  end.

(** ** Strings

    A string is a sequence of code points below 256; the string methods
    below are Python's [str] methods on that range. *)

Definition code (c : ascii) : N := N_of_ascii c.

(** [str.isspace] on one character. *)
Definition isspace (c : ascii) : bool :=
  let n := code c in
  ((9 <=? n) && (n <=? 13) || (28 <=? n) && (n <=? 32)
   || (n =? 133) || (n =? 160))%N.

(** [str.lower] on one character: [A-Z] and the Latin-1 capitals. *)
Definition lower_char (c : ascii) : ascii :=
  let n := code c in
  if ((65 <=? n) && (n <=? 90)
      || (192 <=? n) && (n <=? 222) && negb (n =? 215))%N
  then ascii_of_N (n + 32) else c.

Fixpoint lower (s : string) : string :=
  match s with
  | EmptyString => EmptyString
  | String c s' => String (lower_char c) (lower s')
  end.

(** [s.startswith(p)] *)
Fixpoint startswith (s p : string) {struct p} : bool :=
  match p, s with
  | EmptyString, _ => true
  | String a p', String b s' => if ascii_dec a b then startswith s' p' else false
  | String _ _, EmptyString => false
  end.

(** [s[n:]] *)
Fixpoint slice_from (n : nat) (s : string) : string :=
  match n, s with
  | O, _ => s
  | S n', String _ s' => slice_from n' s'
  | S _, EmptyString => EmptyString
  end.

(** [s[:n]] *)
Fixpoint slice_to (n : nat) (s : string) : string :=
  match n, s with
  | O, _ => EmptyString
  | S n', String a s' => String a (slice_to n' s')
  | S _, EmptyString => EmptyString
  end.

(** [c in s] for a one-character [c]. *)
Fixpoint contains (c : ascii) (s : string) : bool :=
  match s with
  | EmptyString => false
  | String a s' => if ascii_dec a c then true else contains c s'
  end.

(** [s.split(c, 1)]: at most one split, at the first occurrence of [c]. *)
Fixpoint split1 (c : ascii) (s : string) : list string :=
  match s with
  | EmptyString => [EmptyString]
  | String a s' =>
      if ascii_dec a c then [EmptyString; s']
      else match split1 c s' with
           | h :: t => String a h :: t
           | [] => [String a EmptyString]
           end
  end.

(** [l[i]] *)
Definition index {A} (l : list A) (i : nat) : res A :=
  match nth_error l i with
  | Some x => Ok x
  | None => Raise IndexError
  end.

Fixpoint lstrip (s : string) : string :=
  match s with
  | EmptyString => EmptyString
  | String a s' => if isspace a then lstrip s' else s
  end.

Fixpoint rstrip (s : string) : string :=
  match s with
  | EmptyString => EmptyString
  | String a s' =>
      match rstrip s' with
      | EmptyString => if isspace a then EmptyString else String a EmptyString
      | r => String a r
      end
  end.

(** [s.strip()] *)
Definition strip (s : string) : string := rstrip (lstrip s).

(** Comparison of strings, code point by code point; a proper prefix is
    smaller. *)
Fixpoint str_compare (s1 s2 : string) : comparison :=
  match s1, s2 with
  | EmptyString, EmptyString => Eq
  | EmptyString, String _ _ => Lt
  | String _ _, EmptyString => Gt
  | String a s1', String b s2' =>
      match N.compare (code a) (code b) with
      | Eq => str_compare s1' s2'
      | o => o
      end
  end.

(** ** JSON scalars as Python values *)

Inductive value :=
  | VNone
  | VBool (b : bool)
  | VInt (z : Z)
  | VStr (s : string).

#[global] Instance value_eq_dec : EqDecision value.
Proof. solve_decision. Defined.

(** Truth value of an object, as [if x:] and [not x] use it. *)
Definition truthy (v : value) : bool :=
  match v with
  | VNone => false
  | VBool b => b
  | VInt z => negb (z =? 0)%Z
  | VStr s => negb (String.eqb s EmptyString)
  end.

Definition int_of_bool (b : bool) : Z := if b then 1%Z else 0%Z.

(** [a == b]; a boolean is equal to the integer it stands for. *)
Definition py_eq (a b : value) : bool :=
  match a, b with
  | VNone, VNone => true
  | VBool x, VBool y => Bool.eqb x y
  | VInt x, VInt y => (x =? y)%Z
  | VBool x, VInt y => (int_of_bool x =? y)%Z
  | VInt x, VBool y => (x =? int_of_bool y)%Z
  | VStr x, VStr y => String.eqb x y
  | _, _ => false
  end.

(** Truth value of a string and of a list. *)
Definition truthy_str (s : string) : bool := truthy (VStr s).
Definition truthy_list {A} (l : list A) : bool :=
  match l with [] => false | _ :: _ => true end.

(** [x in s] for a set or list of hashable values. *)
Definition py_in (x : value) (s : list value) : bool := existsb (py_eq x) s.

(** A JSON object. *)
Abbreviation dict := (gmap string value).

(** [d[k]] *)
Definition getitem (d : dict) (k : string) : res value :=
  match d !! k with
  | Some v => Ok v
  | None => Raise KeyError
  end.

(** [d.get(k)] and [d.get(k, default)] *)
Definition get (d : dict) (k : string) : value := default VNone (d !! k).
Definition get_default (d : dict) (k : string) (dflt : value) : value :=
  default dflt (d !! k).

(** [k in d] *)
Definition has_key (d : dict) (k : string) : bool := bool_decide (is_Some (d !! k)).

(** A method of [str] called on [v]: other objects do not have it. *)
Definition as_str (v : value) : res string :=
  match v with
  | VStr s => Ok s
  | _ => Raise AttributeError
  end.

End Py.
Import Py.

(** ** The store: [load_todos] and [save_todos] *)

(** The shared file holds a JSON list of objects; [None] is the absent
    file.  [json.dump] followed by [json.load] gives back the list that was
    written, so the file is modelled by the list it holds.  A file whose
    content [json.load] rejects, or whose list has an entry that is not an
    object, where [load_todos] raises, is not a value of [file]: what is
    proved of [load_todos] is proved of the absent file and of the file that
    holds a list of objects.  [uuid.uuid4] draws from a source the program
    does not control. *)
Record world := World {
  file : option (list dict);
  uuid_src : nat -> string;
  uuid_next : nat
}.

Definition M (A : Type) : Type := world -> res (A * world).

#[global] Instance M_ret : MRet M := fun _ a w => Ok (a, w).
#[global] Instance M_bind : MBind M := fun _ _ f m w =>
  match m w with
  | Ok (a, w') => f a w'
  | Raise e => Raise e
  end.

Definition lift {A} (r : res A) : M A := fun w =>
  match r with
  | Ok a => Ok (a, w)
  | Raise e => Raise e
  end.

(** [str(uuid.uuid4())] *)
Definition uuid4 : M string := fun w =>
  Ok (uuid_src w (uuid_next w),
      World (file w) (uuid_src w) (S (uuid_next w))).

(** [with open(TODO_FILE, 'w') as f: json.dump(todos, f, indent=2)] *)
Definition write_file (todos : list dict) : M () := fun w =>
  Ok ((), World (Some todos) (uuid_src w) (uuid_next w)).

(** The loop of [load_todos] that gives an id to the records without one. *)
Fixpoint backfill_ids (todos : list dict) : M (list dict) :=
  match todos with
  | [] => mret []
  | todo :: rest =>
      todo' ← (if has_key todo "id" then mret todo
               else u ← uuid4; mret (<["id" := VStr u]> todo));
      rest' ← backfill_ids rest;
      mret (todo' :: rest')
  end.

Definition load_todos : M (list dict) := fun w =>
  match file w with
  | Some todos => backfill_ids todos w
  | None => Ok ([], w)
  end.

(** The priority prefix is cut off in the same way by every function that
    reads a task. *)
Definition cut_priority (task : string) : string :=
  if startswith task "!! " then slice_from 3 task
  else if startswith task "! " then slice_from 2 task
  else task.

(** A sort key, compared as Python compares tuples. *)
Definition key : Type := Z * string * string.

Definition get_sort_key (todo : dict) : res key :=
  v ← getitem todo "task";
  task ← as_str v;
  let task := cut_priority task in
  if contains ":" task then
    g ← index (split1 ":" task) 0;
    s ← index (split1 ":" task) 1;
    Ok (0%Z, lower (strip g), lower (strip s))
  else
    Ok (1%Z, "", lower task).

Definition key_compare (a b : key) : comparison :=
  let '(a1, a2, a3) := a in
  let '(b1, b2, b3) := b in
  match Z.compare a1 b1 with
  | Eq => match str_compare a2 b2 with
          | Eq => str_compare a3 b3
          | o => o
          end
  | o => o
  end.

Definition key_lt (a b : key) : bool :=
  match key_compare a b with Lt => true | _ => false end.

Definition key_le (a b : key) : bool := negb (key_lt b a).

(** [list.sort(key=...)] is stable; for a total order on the keys its result
    is the one of insertion from the right, each element going in front of
    the first element that is not smaller. *)
Fixpoint insert_by_key {A} (x : key * A) (l : list (key * A)) : list (key * A) :=
  match l with
  | [] => [x]
  | y :: l' => if key_lt y.1 x.1 then y :: insert_by_key x l' else x :: y :: l'
  end.

Fixpoint sort_keyed {A} (l : list (key * A)) : list (key * A) :=
  match l with
  | [] => []
  | x :: l' => insert_by_key x (sort_keyed l')
  end.

(** [merged.sort(key=get_sort_key)]: the keys are computed first. *)
Definition sort_todos (merged : list dict) : res (list dict) :=
  keys ← mapM_res get_sort_key merged;
  Ok ((sort_keyed (zip keys merged)).*2).

Definition our_ids_of (todos : list dict) : list value :=
  omap (fun todo : dict => todo !! "id") todos.

Definition save_todos (todos : list dict) : M () :=
  current_todos ← load_todos;
  let our_ids := our_ids_of todos in
  let new_items :=
    List.filter (fun todo : dict => negb (py_in (get todo "id") our_ids)) current_todos in
  let merged := todos ++ new_items in
  sorted ← lift (sort_todos merged);
  write_file sorted.

Definition mk_todo (i task : string) (d : bool) : dict :=
  {["id" := VStr i; "task" := VStr task; "done" := VBool d]}.

Definition w0 (f : option (list dict)) : world := World f (fun n => "u" +:+ pretty n) 0.

(** ** The entity codec and the group model *)

(** The priority and the task without its prefix, as [build_selectable_items]
    and the display loop of [main] extract them. *)
Definition extract_priority (task : string) : nat * string :=
  if startswith task "!! " then (2, slice_from 3 task)
  else if startswith task "! " then (1, slice_from 2 task)
  else (0, task).

Definition get_todo_group (todo : dict) : res string :=
  v ← getitem todo "task";
  task ← as_str v;
  let task := cut_priority task in
  if contains ":" task then
    g ← index (split1 ":" task) 0;
    Ok (strip g)
  else
    Ok "__ungrouped__".

(** What the display loop of [main] reads off one task: the priority, the
    group it is listed under and the text shown. *)
Definition decode_task (task : string) : res (nat * string * string) :=
  let '(priority, clean_task) := extract_priority task in
  if contains ":" clean_task then
    p ← index (split1 ":" clean_task) 0;
    s ← index (split1 ":" clean_task) 1;
    Ok (priority, strip p, strip s)
  else
    Ok (priority, "__ungrouped__", clean_task).

(** A selectable entry: [('group', name)] or [('todo', index)]. *)
Inductive kind := KTodo | KGroup.

Inductive entry :=
  | ETodo (todo_idx : nat)
  | EGroup (group_name : string).

#[global] Instance kind_eq_dec : EqDecision kind.
Proof. solve_decision. Defined.
#[global] Instance entry_eq_dec : EqDecision entry.
Proof. solve_decision. Defined.

Definition entry_kind (e : entry) : kind :=
  match e with ETodo _ => KTodo | EGroup _ => KGroup end.

(** The two locals [groups] and [group_order] of [build_selectable_items]. *)
Record buckets := Buckets {
  groups : gmap string (list nat);
  group_order : list string
}.

(** [if g not in groups: groups[g] = []; group_order.append(g)]
    followed by [groups[g].append(i)]. *)
Definition bucket_add (g : string) (i : nat) (b : buckets) : buckets :=
  let b' :=
    match groups b !! g with
    | Some _ => b
    | None => Buckets (<[g := []]> (groups b)) (group_order b ++ [g])
    end in
  Buckets (alter (fun l => l ++ [i]) g (groups b')) (group_order b').

Fixpoint bucket_loop (hide_completed : bool) (l : list (nat * dict)) (b : buckets)
    : res buckets :=
  match l with
  | [] => Ok b
  | (i, todo) :: rest =>
      if hide_completed && truthy (get_default todo "done" (VBool false)) then
        bucket_loop hide_completed rest b
      else
        v ← getitem todo "task";
        task ← as_str v;
        let '(priority, clean_task) := extract_priority task in
        if contains ":" clean_task then
          p ← index (split1 ":" clean_task) 0;
          let prefix := strip p in
          bucket_loop hide_completed rest (bucket_add prefix i b)
        else
          bucket_loop hide_completed rest (bucket_add "__ungrouped__" i b)
  end.

Definition getgroup (gs : gmap string (list nat)) (g : string) : res (list nat) :=
  match gs !! g with
  | Some l => Ok l
  | None => Raise KeyError
  end.

Fixpoint emit_loop (gs : gmap string (list nat)) (collapsed_groups : gset string)
    (order : list string) : res (list entry) :=
  match order with
  | [] => Ok []
  | group_name :: rest =>
      here ←
        (if negb (String.eqb group_name "__ungrouped__") then
           if bool_decide (group_name ∈ collapsed_groups) then
             Ok [EGroup group_name]
           else
             idxs ← getgroup gs group_name; Ok (map ETodo idxs)
         else
           idxs ← getgroup gs group_name; Ok (map ETodo idxs));
      items ← emit_loop gs collapsed_groups rest;
      Ok (here ++ items)
  end.

Definition enumerate {A} (l : list A) : list (nat * A) := zip (seq 0 (length l)) l.

Definition build_selectable_items (todos : list dict)
    (collapsed_groups : gset string) (hide_completed : bool) : res (list entry) :=
  b ← bucket_loop hide_completed (enumerate todos) (Buckets ∅ []);
  emit_loop (groups b) collapsed_groups (group_order b).

(** ** The session: the locals of the loop of [main] *)

Record session := Session {
  todos : list dict;
  just_saved : bool;
  selected : nat;
  selected_id : value;
  selected_type : kind;
  selected_group : value;
  input_text : string;
  cursor_pos : nat;
  input_mode : bool;
  editing_id : value;
  collapsed_groups : gset string;
  hide_completed : bool
}.

Definition set_todos (s : session) (ts : list dict) (saved : bool) : session :=
  Session ts saved (selected s) (selected_id s) (selected_type s)
    (selected_group s) (input_text s) (cursor_pos s) (input_mode s)
    (editing_id s) (collapsed_groups s) (hide_completed s).

Definition set_selection (s : session) (sel : nat) (sid : value) (ty : kind)
    (grp : value) : session :=
  Session (todos s) (just_saved s) sel sid ty grp (input_text s) (cursor_pos s)
    (input_mode s) (editing_id s) (collapsed_groups s) (hide_completed s).

Definition set_input (s : session) (text : string) (pos : nat) (mode : bool)
    (editing : value) : session :=
  Session (todos s) (just_saved s) (selected s) (selected_id s)
    (selected_type s) (selected_group s) text pos mode editing
    (collapsed_groups s) (hide_completed s).

(** The first index at which [p] holds: the loops
    [for i, todo in enumerate(todos): if ...: ...; break]. *)
Fixpoint find_index {A} (p : A -> bool) (l : list A) : option nat :=
  match l with
  | [] => None
  | x :: l' => if p x then Some 0 else S <$> find_index p l'
  end.

(** [for todo in todos: if p(todo): f(todo); break], [f] changing the record
    in place. *)
Fixpoint update_first (p : dict -> bool) (f : dict -> res dict) (l : list dict)
    : res (list dict) :=
  match l with
  | [] => Ok []
  | x :: l' =>
      if p x then x' ← f x; Ok (x' :: l')
      else l'' ← update_first p f l'; Ok (x :: l'')
  end.

Definition has_id (sid : value) (todo : dict) : bool := py_eq (get todo "id") sid.

(** The block that moves the selection to an entry of the selectable list;
    [main] repeats it after every lookup in that list. *)
Definition select_entry (s : session) (e : entry) : res session :=
  match e with
  | ETodo new_value =>
      t ← index (todos s) new_value;
      sid ← getitem t "id";
      Ok (set_selection s new_value sid KTodo VNone)
  | EGroup new_value =>
      Ok (set_selection s (selected s) VNone KGroup (VStr new_value))
  end.

(** The search for the current position in the handlers of the arrow keys;
    [-1] when no entry is the selection. *)
Fixpoint find_current_pos (s : session) (i : Z) (selectable : list entry) : res Z :=
  match selectable with
  | [] => Ok (-1)%Z
  | e :: rest =>
      if decide (entry_kind e = selected_type s) then
        match e with
        | ETodo item_value =>
            t ← index (todos s) item_value;
            if py_eq (selected_id s) (get t "id") then Ok i
            else find_current_pos s (i + 1)%Z rest
        | EGroup item_value =>
            if py_eq (VStr item_value) (selected_group s) then Ok i
            else find_current_pos s (i + 1)%Z rest
        end
      else find_current_pos s (i + 1)%Z rest
  end.

Definition len {A} (l : list A) : Z := Z.of_nat (length l).

Definition key_up (s : session) : res session :=
  s' ← (if truthy_list (todos s) then
          selectable ← build_selectable_items (todos s) (collapsed_groups s)
                         (hide_completed s);
          if truthy_list selectable then
            current_pos ← find_current_pos s 0%Z selectable;
            if (0 <? current_pos)%Z then
              e ← index selectable (Z.to_nat (current_pos - 1));
              select_entry s e
            else Ok s
          else Ok s
        else Ok s);
  Ok (set_input s' (input_text s') (cursor_pos s') false VNone).

Definition key_down (s : session) : res session :=
  s' ← (if truthy_list (todos s) then
          selectable ← build_selectable_items (todos s) (collapsed_groups s)
                         (hide_completed s);
          if truthy_list selectable then
            current_pos ← find_current_pos s 0%Z selectable;
            if (current_pos <? len selectable - 1)%Z then
              e ← index selectable (Z.to_nat (current_pos + 1));
              select_entry s e
            else Ok s
          else Ok s
        else Ok s);
  Ok (set_input s' (input_text s') (cursor_pos s') false VNone).

(** The reload after a change of the file by another session, with the
    attempt to keep the selection on the same record. *)
Definition reload_external (s : session) : M session :=
  ts ← load_todos;
  let s := set_todos s ts (just_saved s) in
  if truthy (selected_id s) then
    match find_index (has_id (selected_id s)) ts with
    | Some i =>
        mret (set_selection s i (selected_id s) (selected_type s) (selected_group s))
    | None =>
        if (len ts <=? Z.of_nat (selected s))%Z && (0 <? len ts)%Z then
          mret (set_selection s (length ts - 1) (selected_id s)
                  (selected_type s) (selected_group s))
        else if (len ts =? 0)%Z then
          mret (set_selection s 0 VNone (selected_type s) (selected_group s))
        else mret s
    end
  else
    if (0 <? len ts)%Z then
      t ← lift (index ts 0);
      sid ← lift (getitem t "id");
      mret (set_selection s 0 sid (selected_type s) (selected_group s))
    else mret s.

(** The body of the loop of the save-edit branch: the new task keeps the
    priority prefix and the group prefix of the old one. *)
Definition edit_task (text : string) (todo : dict) : res dict :=
  v ← getitem todo "task";
  original_task ← as_str v;
  let priority_prefix :=
    if startswith original_task "!! " then "!! "
    else if startswith original_task "! " then "! "
    else "" in
  let clean_original :=
    if truthy_str priority_prefix
    then slice_from (String.length priority_prefix) original_task
    else original_task in
  group_prefix ←
    (if contains ":" clean_original then
       g ← index (split1 ":" clean_original) 0; Ok (g +:+ ": ")
     else Ok "");
  Ok (<["task" := VStr (priority_prefix +:+ group_prefix +:+ strip text)]> todo).

(** [todo['done'] = not todo['done']] *)
Definition toggle_done (todo : dict) : res dict :=
  d ← getitem todo "done";
  Ok (<["done" := VBool (negb (truthy d))]> todo).

(** After a save the list is read again and the record is looked up by id. *)
Definition reselect (s : session) (sid : value) (ts : list dict) : session :=
  match find_index (has_id sid) ts with
  | Some i => set_selection s i sid (selected_type s) (selected_group s)
  | None => s
  end.

Definition save_edit (s : session) : M session :=
  ts ← load_todos;
  ts ← lift (update_first (has_id (editing_id s)) (edit_task (input_text s)) ts);
  _ ← save_todos ts;
  ts ← load_todos;
  let s := reselect (set_todos s ts true) (editing_id s) ts in
  mret (set_input s "" 0 false VNone).

Definition add_new (s : session) : M session :=
  new_id ← uuid4;
  let ts := todos s ++
    [ {["id" := VStr new_id; "task" := VStr (strip (input_text s));
        "done" := VBool false]} ] in
  _ ← save_todos ts;
  ts ← load_todos;
  let s := reselect (set_todos s ts true) (VStr new_id) ts in
  mret (set_input s "" 0 false (editing_id s)).

(** The loop of the toggle branch; the flag is [toggled_to_complete]. *)
Fixpoint toggle_loop (sid : value) (l : list dict) : res (list dict * bool) :=
  match l with
  | [] => Ok ([], false)
  | todo :: rest =>
      if has_id sid todo then
        todo' ← toggle_done todo;
        d ← getitem todo' "done";
        Ok (todo' :: rest, truthy d)
      else
        r ← toggle_loop sid rest;
        Ok (todo :: r.1, r.2)
  end.

Definition toggle_selected (s : session) : M session :=
  ts ← load_todos;
  r ← lift (toggle_loop (selected_id s) ts);
  let toggled_to_complete := r.2 in
  _ ← save_todos r.1;
  ts ← load_todos;
  let s := set_todos s ts true in
  let s :=
    match find_index (has_id (selected_id s)) ts with
    | Some i => set_selection s i (selected_id s) KTodo (selected_group s)
    | None => s
    end in
  if toggled_to_complete && hide_completed s then
    selectable ← lift (build_selectable_items ts (collapsed_groups s) (hide_completed s));
    match selectable with
    | e :: _ => lift (select_entry s e)
    | [] => mret s
    end
  else mret s.

(** The handler of the Enter key. *)
Definition key_enter (s : session) : M session :=
  if truthy_str (strip (input_text s)) && truthy (editing_id s) then
    save_edit s
  else if truthy_str (strip (input_text s)) then
    add_new s
  else if truthy_list (todos s) && negb (input_mode s)
          && bool_decide (selected_type s = KTodo) && truthy (selected_id s) then
    toggle_selected s
  else mret s.

(** The deletion of a record from the file: the file is read, the record is
    filtered out and the file is written, without the merge of [save_todos]. *)
Definition delete_from_file (sid : value) : M (list dict) :=
  ts ← load_todos;
  let ts := List.filter (fun t => negb (has_id sid t)) ts in
  _ ← write_file ts;
  mret ts.

Definition delete_selected (s : session) : M session :=
  ts ← delete_from_file (selected_id s);
  let sel :=
    if (len ts <=? Z.of_nat (selected s))%Z && (0 <? Z.of_nat (selected s))%Z
    then (selected s - 1)%nat else selected s in
  sid ← (if (0 <? len ts)%Z then
           t ← lift (index ts sel); lift (getitem t "id")
         else mret VNone);
  mret (set_selection (set_todos s ts true) sel sid (selected_type s)
          (selected_group s)).

(** The handler of the Delete key. *)
Definition key_delete (s : session) : M session :=
  if truthy_str (input_text s) then
    if (cursor_pos s <? String.length (input_text s))%nat then
      mret (set_input s
              (slice_to (cursor_pos s) (input_text s)
               +:+ slice_from (S (cursor_pos s)) (input_text s))
              (cursor_pos s) (input_mode s) (editing_id s))
    else mret s
  else if negb (input_mode s) && bool_decide (selected_type s = KTodo)
          && truthy (selected_id s) then
    if truthy_list (todos s) then delete_selected s else mret s
  else mret s.

(** ** The other key handlers of [main] *)

Definition set_collapsed (s : session) (c : gset string) : session :=
  Session (todos s) (just_saved s) (selected s) (selected_id s)
    (selected_type s) (selected_group s) (input_text s) (cursor_pos s)
    (input_mode s) (editing_id s) c (hide_completed s).

Definition set_hide (s : session) (h : bool) : session :=
  Session (todos s) (just_saved s) (selected s) (selected_id s)
    (selected_type s) (selected_group s) (input_text s) (cursor_pos s)
    (input_mode s) (editing_id s) (collapsed_groups s) h.

(** [chr(key)] for a key in the range of the printable characters. *)
Definition chr (key : nat) : string := String (ascii_of_nat key) "".

(** The last branch of the handler chain: a printable character is put into
    the input text at the cursor. *)
Definition key_printable (key : nat) (s : session) : session :=
  if (32 <=? key)%nat && (key <=? 126)%nat then
    set_input s
      (slice_to (cursor_pos s) (input_text s) +:+ chr key
       +:+ slice_from (cursor_pos s) (input_text s))
      (S (cursor_pos s)) true (editing_id s)
  else s.

(** The handler of the Backspace key. *)
Definition key_backspace (s : session) : M session :=
  if truthy_str (input_text s) then
    if (0 <? cursor_pos s)%nat then
      mret (set_input s
              (slice_to (cursor_pos s - 1) (input_text s)
               +:+ slice_from (cursor_pos s) (input_text s))
              (cursor_pos s - 1) (input_mode s) (editing_id s))
    else mret s
  else if negb (input_mode s) && bool_decide (selected_type s = KTodo)
          && truthy (selected_id s) then
    if truthy_list (todos s) then delete_selected s else mret s
  else mret s.

(** The loops [for i, todo in enumerate(todos): if get_todo_group(todo) ==
    selected_group: ...; break] of the Right and Tab keys: the first record
    of the group, with its index. *)
Fixpoint find_group_member (grp : value) (i : nat) (l : list dict)
    : res (option (nat * dict)) :=
  match l with
  | [] => Ok None
  | todo :: rest =>
      g ← get_todo_group todo;
      if py_eq (VStr g) grp then Ok (Some (i, todo))
      else find_group_member grp (S i) rest
  end.

(** [collapsed_groups.discard(x)] *)
Definition discard (x : value) (c : gset string) : gset string :=
  match x with
  | VStr g => c ∖ {[g]}
  | _ => c
  end.

(** The handler of the Left key: the cursor of the input field, or the
    collapse of the group of the selected record. *)
Definition key_left (s : session) : res session :=
  if input_mode s then
    if (0 <? cursor_pos s)%nat then
      Ok (set_input s (input_text s) (cursor_pos s - 1) (input_mode s) (editing_id s))
    else Ok s
  else if truthy_list (todos s) && bool_decide (selected_type s = KTodo)
          && truthy (selected_id s) then
    match List.find (has_id (selected_id s)) (todos s) with
    | Some todo =>
        group ← get_todo_group todo;
        if negb (String.eqb group "__ungrouped__") then
          Ok (set_selection (set_collapsed s ({[group]} ∪ collapsed_groups s))
                (selected s) VNone KGroup (VStr group))
        else Ok s
    | None => Ok s
    end
  else Ok s.

(** The handler of the Right key: the cursor of the input field, or the
    expansion of a group. *)
Definition key_right (s : session) : res session :=
  if input_mode s then
    if (cursor_pos s <? String.length (input_text s))%nat then
      Ok (set_input s (input_text s) (S (cursor_pos s)) (input_mode s) (editing_id s))
    else Ok s
  else if bool_decide (selected_type s = KGroup) && truthy (selected_group s) then
    let s := set_collapsed s (discard (selected_group s) (collapsed_groups s)) in
    m ← find_group_member (selected_group s) 0 (todos s);
    match m with
    | Some (i, todo) =>
        sid ← getitem todo "id";
        Ok (set_selection s i sid KTodo VNone)
    | None => Ok s
    end
  else if truthy_list (todos s) && truthy (selected_id s) then
    match List.find (has_id (selected_id s)) (todos s) with
    | Some todo =>
        group ← get_todo_group todo;
        if negb (String.eqb group "__ungrouped__") then
          Ok (set_collapsed s (collapsed_groups s ∖ {[group]}))
        else Ok s
    | None => Ok s
    end
  else Ok s.

(** The first loop of the Tab key: the names of the groups of the list. *)
Fixpoint all_groups_of (l : list dict) : res (gset string) :=
  match l with
  | [] => Ok ∅
  | todo :: rest =>
      group ← get_todo_group todo;
      all ← all_groups_of rest;
      Ok (if negb (String.eqb group "__ungrouped__") then {[group]} ∪ all else all)
  end.

(** The handler of the Tab key: every group is expanded when one is
    collapsed, and every group is collapsed when none is. *)
Definition key_tab (s : session) : res session :=
  if input_mode s then Ok s
  else
    all_groups ← all_groups_of (todos s);
    if negb (bool_decide (collapsed_groups s = ∅)) then
      let s := set_collapsed s ∅ in
      if bool_decide (selected_type s = KGroup) && truthy (selected_group s) then
        m ← find_group_member (selected_group s) 0 (todos s);
        match m with
        | Some (i, todo) =>
            sid ← getitem todo "id";
            Ok (set_selection s i sid KTodo (selected_group s))
        | None => Ok s
        end
      else Ok s
    else
      let s := set_collapsed s (collapsed_groups s ∪ all_groups) in
      if bool_decide (selected_type s = KTodo) && truthy (selected_id s)
         && truthy_list (todos s) then
        match List.find (has_id (selected_id s)) (todos s) with
        | Some todo =>
            group ← get_todo_group todo;
            if bool_decide (group ∈ collapsed_groups s) then
              Ok (set_selection s (selected s) VNone KGroup (VStr group))
            else Ok s
        | None => Ok s
        end
      else Ok s.

(** The handler of Ctrl+H: completed records are hidden or shown; a selected
    record that is now hidden gives the selection to the first entry. *)
Definition key_ctrl_h (s : session) : res session :=
  if input_mode s then Ok s
  else
    let s := set_hide s (negb (hide_completed s)) in
    if hide_completed s && bool_decide (selected_type s = KTodo)
       && truthy (selected_id s) then
      match List.find
              (fun todo => has_id (selected_id s) todo
                           && truthy (get_default todo "done" (VBool false)))
              (todos s) with
      | Some _ =>
          selectable ← build_selectable_items (todos s) (collapsed_groups s)
                         (hide_completed s);
          match selectable with
          | e :: _ => select_entry s e
          | [] => Ok s
          end
      | None => Ok s
      end
    else Ok s.

(** The bodies of the loops of the keys [1], [2] and [0] on the selected
    record. *)
Definition toggle_yellow (todo : dict) : res dict :=
  v ← getitem todo "task";
  task ← as_str v;
  if startswith task "! " then
    Ok (<["task" := VStr (slice_from 2 task)]> todo)
  else
    let task := if startswith task "!! " then slice_from 3 task else task in
    Ok (<["task" := VStr ("! " +:+ task)]> todo).

Definition toggle_red (todo : dict) : res dict :=
  v ← getitem todo "task";
  task ← as_str v;
  if startswith task "!! " then
    Ok (<["task" := VStr (slice_from 3 task)]> todo)
  else
    let task := if startswith task "! " then slice_from 2 task else task in
    Ok (<["task" := VStr ("!! " +:+ task)]> todo).

Definition remove_priority (todo : dict) : res dict :=
  v ← getitem todo "task";
  task ← as_str v;
  if startswith task "!! " then
    Ok (<["task" := VStr (slice_from 3 task)]> todo)
  else if startswith task "! " then
    Ok (<["task" := VStr (slice_from 2 task)]> todo)
  else Ok todo.

(** What the three keys share: the file is read, the selected record is
    changed, the list is saved and read again, and the row index follows
    the record. *)
Definition change_selected (f : dict -> res dict) (s : session) : M session :=
  if truthy_list (todos s) then
    ts ← load_todos;
    ts ← lift (update_first (has_id (selected_id s)) f ts);
    _ ← save_todos ts;
    ts ← load_todos;
    let s := set_todos s ts true in
    mret (match find_index (has_id (selected_id s)) ts with
          | Some i => set_selection s i (selected_id s) (selected_type s)
                        (selected_group s)
          | None => s
          end)
  else mret s.

(** The handler of a priority key; when its guard fails the key falls through
    to the printable characters. *)
Definition key_priority (key : nat) (f : dict -> res dict) (s : session)
    : M session :=
  if negb (truthy_str (input_text s)) && negb (input_mode s)
     && bool_decide (selected_type s = KTodo) then
    change_selected f s
  else mret (key_printable key s).

Definition key_1 : session -> M session := key_priority 49 toggle_yellow.
Definition key_2 : session -> M session := key_priority 50 toggle_red.
Definition key_0 : session -> M session := key_priority 48 remove_priority.

(** The handler of F2: the text of the selected record goes to the input
    field. *)
Definition key_f2 (s : session) : res session :=
  if negb (input_mode s) && bool_decide (selected_type s = KTodo) then
    if truthy_list (todos s) && truthy (selected_id s) then
      match List.find (has_id (selected_id s)) (todos s) with
      | Some todo =>
          v ← getitem todo "task";
          task ← as_str v;
          let task := cut_priority task in
          task ← (if contains ":" task then
                    t ← index (split1 ":" task) 1; Ok (strip t)
                  else Ok task);
          Ok (set_input s task (String.length task) true (selected_id s))
      | None => Ok s
      end
    else Ok s
  else Ok s.

(** The handler of the Escape key: an edit or an input is cancelled; with
    none under way the loop ends, which is [None]. *)
Definition key_esc (s : session) : option session :=
  if input_mode s || truthy (editing_id s) then Some (set_input s "" 0 false VNone)
  else None.

(** What [getch] returns: no key within the wait, a special key, or the code
    of a character. *)
Inductive keypress :=
  | NoKey
  | KEY_F1 | KEY_UP | KEY_DOWN | KEY_LEFT | KEY_RIGHT
  | KEY_DC | KEY_BACKSPACE | KEY_F2
  | Code (n : nat).

(** The chain of tests on the key in the loop of [main]; [None] is the end of
    the loop.  The help screen of F1 shows and waits and changes nothing of
    the session. *)
Definition handle_code (n : nat) (s : session) : M (option session) :=
  if (n =? 10)%nat then s' ← key_enter s; mret (Some s')
  else if (n =? 127)%nat then s' ← key_backspace s; mret (Some s')
  else if (n =? 49)%nat then s' ← key_1 s; mret (Some s')
  else if (n =? 50)%nat then s' ← key_2 s; mret (Some s')
  else if (n =? 48)%nat then s' ← key_0 s; mret (Some s')
  else if (n =? 8)%nat then s' ← lift (key_ctrl_h s); mret (Some s')
  else if (n =? 9)%nat then s' ← lift (key_tab s); mret (Some s')
  else if (n =? 27)%nat then mret (key_esc s)
  else mret (Some (key_printable n s)).

Definition handle (k : keypress) (s : session) : M (option session) :=
  match k with
  | NoKey | KEY_F1 => mret (Some s)
  | KEY_UP => s' ← lift (key_up s); mret (Some s')
  | KEY_DOWN => s' ← lift (key_down s); mret (Some s')
  | KEY_LEFT => s' ← lift (key_left s); mret (Some s')
  | KEY_RIGHT => s' ← lift (key_right s); mret (Some s')
  | KEY_DC => s' ← key_delete s; mret (Some s')
  | KEY_BACKSPACE => s' ← key_backspace s; mret (Some s')
  | KEY_F2 => s' ← lift (key_f2 s); mret (Some s')
  | Code n => handle_code n s
  end.

(** The locals of [main] before its loop. *)
Definition initial : M session :=
  ts ← load_todos;
  sid ← (if (0 <? len ts)%Z then
           t ← lift (index ts 0); lift (getitem t "id")
         else mret VNone);
  mret (Session ts false 0 sid KTodo VNone "" 0 false VNone ∅ false).

(** What one turn of the loop of [main] meets: the file found changed by
    another session, which is reloaded, or a key.  Between two turns another
    session may write the file, or remove it: [Written f] leaves it as
    [f]. *)
Inductive event :=
  | Changed
  | Written (f : option (list dict))
  | Key (k : keypress).

(** The loop of [main] over the events it meets, until the key that ends
    it. *)
Fixpoint run (evs : list event) (s : session) : M (option session) :=
  match evs with
  | [] => mret (Some s)
  | Changed :: evs' => s' ← reload_external s; run evs' s'
  | Written f :: evs' => fun w => run evs' s (World f (uuid_src w) (uuid_next w))
  | Key k :: evs' =>
      r ← handle k s;
      match r with
      | Some s' => run evs' s'
      | None => mret None
      end
  end.

(** * The vocabulary of the properties

    The predicates and functions in which the properties are stated: the
    descriptions of the codec, the sort, the file and the group model, written
    after the words of the specification, to be compared with the functions
    above. *)

(** ** The codec *)

(** [p] is a literal prefix of [s]. *)
Definition is_prefix (p s : string) : Prop := exists r, s = p +:+ r.

(** The marker that encodes a priority. *)
Definition marker (priority : nat) : string :=
  match priority with
  | 2 => "!! "
  | 1 => "! "
  | _ => ""
  end.

(** The decoding of a task into priority, group and text.  The priority is
    read off the literal prefix; [clean] is the task without its marker; the
    group and the text are the two sides of the first colon of [clean], each
    passed through [trim], or the sentinel and the whole of [clean] when it
    has no colon. *)
Definition decodes (trim : string -> string) (task : string) : Prop :=
  exists priority group text clean,
    decode_task task = Ok (priority, group, text) /\
    (priority = 2 <-> is_prefix "!! " task) /\
    (priority = 1 <-> is_prefix "! " task /\ ~ is_prefix "!! " task) /\
    (priority = 0 <-> ~ is_prefix "! " task /\ ~ is_prefix "!! " task) /\
    task = marker priority +:+ clean /\
    (forall a b, clean = a +:+ String ":" b -> contains ":" a = false ->
       group = trim a /\ text = trim b) /\
    (contains ":" clean = false -> group = "__ungrouped__" /\ text = clean).

(** ** The sort *)


(** The order of two elements that carry their key. *)
Definition keyed_le {A} (x y : key * A) : Prop := key_le x.1 y.1 = true.

(** A record that has a task, and the task is a string. *)
Definition has_task (todo : dict) : Prop :=
  exists task, todo !! "task" = Some (VStr task).

(** The order in which the sort puts two records. *)
Definition todo_le (a b : dict) : Prop :=
  exists ka kb, get_sort_key a = Ok ka /\ get_sort_key b = Ok kb /\ key_le ka kb = true.


(** ** The file *)

(** The list held by the file; the absent file holds none. *)
Definition on_disk (w : world) : list dict := default [] (file w).

(** A record that carries an id. *)
Definition with_id (todo : dict) : Prop := has_key todo "id" = true.

(** What [load_todos] makes of a record of the file: the record itself when it
    has an id, the record with a new id otherwise. *)
Definition backfilled (d c : dict) : Prop :=
  if has_key d "id" then c = d else exists u, c = <["id" := VStr u]> d.

(** The records of the file that [save_todos] adds to the list it is given. *)
Definition foreign (todos current : list dict) : list dict :=
  List.filter (fun todo : dict => negb (py_in (get todo "id") (our_ids_of todos))) current.

(** The tuple [(id, priority, group, text, done)] that a record decodes to. *)
Definition tuple_of (todo : dict) : res (value * nat * string * string * value) :=
  v ← getitem todo "task";
  task ← as_str v;
  d ← decode_task task;
  Ok (get todo "id", d.1.1, d.1.2, d.2, get_default todo "done" (VBool false)).

(** Saving [candidate] and loading again gives the tuples of [candidate]. *)
Definition round_trip (candidate : list dict) (w : world) : Prop :=
  exists w1 loaded w2,
    save_todos candidate w = Ok ((), w1) /\
    load_todos w1 = Ok (loaded, w2) /\
    forall tp, tp ∈ tuple_of <$> loaded <-> tp ∈ tuple_of <$> candidate.

(** The guard under which the Delete key deletes the selected record. *)
Definition deletes (s : session) : Prop :=
  input_text s = "" /\ input_mode s = false /\ selected_type s = KTodo /\
  truthy (selected_id s) = true /\ todos s <> [].

(** ** The group model

    The group model in the words of its description: the records that are not
    hidden, the groups in the order of their first occurrence, the members of
    a group in the order of the list, and the entries of each group. *)

(** The task of a record. *)
Definition task_of (todo : dict) : string :=
  match todo !! "task" with
  | Some (VStr task) => task
  | _ => ""
  end.

(** The decoded group of a task. *)
Definition group_of (task : string) : string :=
  match decode_task task with
  | Ok (_, group, _) => group
  | Raise _ => "__ungrouped__"
  end.

(** A record is shown unless completed records are hidden and its [done] is
    true. *)
Definition shown (hide_completed : bool) (p : nat * dict) : bool :=
  negb (hide_completed && truthy (get_default p.2 "done" (VBool false))).

(** The records that are shown, each with its index in the list. *)
Definition visible (hide_completed : bool) (todos : list dict) : list (nat * dict) :=
  List.filter (shown hide_completed) (enumerate todos).

(** The group of an indexed record. *)
Definition entry_group (p : nat * dict) : string := group_of (task_of p.2).

(** Each name once, at the place of its first occurrence. *)
Fixpoint first_occurrences (l : list string) : list string :=
  match l with
  | [] => []
  | g :: l' => g :: List.filter (fun h => negb (String.eqb h g)) (first_occurrences l')
  end.

(** The indices of the members of a group, in the order of the list. *)
Definition members (g : string) (vis : list (nat * dict)) : list nat :=
  (List.filter (fun p => String.eqb (entry_group p) g) vis).*1.

(** The entries of a group: the members of the ungrouped bucket; for a named
    group its header when collapsed, its members when not. *)
Definition entries_of_group (collapsed : gset string) (vis : list (nat * dict))
    (g : string) : list entry :=
  if String.eqb g "__ungrouped__" then map ETodo (members g vis)
  else if bool_decide (g ∈ collapsed) then [EGroup g]
  else map ETodo (members g vis).

(** The selectable-entries sequence. *)
Definition selectable_entries (todos : list dict) (collapsed : gset string)
    (hide_completed : bool) : list entry :=
  let vis := visible hide_completed todos in
  concat (map (entries_of_group collapsed vis)
            (first_occurrences (map entry_group vis))).

(** The state of the two locals after the visible records [pre]. *)
Definition buckets_of (pre : list (nat * dict)) (b : buckets) : Prop :=
  group_order b = first_occurrences (map entry_group pre) /\
  forall g, groups b !! g =
    if bool_decide (g ∈ map entry_group pre) then Some (members g pre) else None.

(** ** The selection *)

(** An entry is the selection: a record entry when a record is selected and
    it has the selected id, a header when a group is selected and it has the
    selected name. *)
Definition matches (s : session) (e : entry) : bool :=
  match e with
  | ETodo v =>
      bool_decide (selected_type s = KTodo)
      && py_eq (selected_id s) (get (default ∅ (todos s !! v)) "id")
  | EGroup g =>
      bool_decide (selected_type s = KGroup) && py_eq (VStr g) (selected_group s)
  end.

(** The selection of [s1] is the entry [e] of the list [ts]. *)
Definition focus_on (ts : list dict) (s1 : session) (e : entry) : Prop :=
  match e with
  | ETodo v =>
      selected_type s1 = KTodo /\ selected s1 = v /\ selected_group s1 = VNone /\
      exists t : dict, ts !! v = Some t /\ t !! "id" = Some (selected_id s1)
  | EGroup g =>
      selected_type s1 = KGroup /\ selected_group s1 = VStr g /\ selected_id s1 = VNone
  end.

(** What both handlers do at their end: leave the input field. *)
Definition leave (s : session) : session :=
  set_input s (input_text s) (cursor_pos s) false VNone.

(** The index of a record entry is an index of the list. *)
Definition valid_entry (ts : list dict) (e : entry) : Prop :=
  match e with ETodo v => v < length ts | EGroup _ => True end.

(** A record that carries a [done] flag. *)
Definition has_done (todo : dict) : Prop := is_Some (todo !! "done").

(** The guard under which the Enter key toggles the selected record. *)
Definition toggles (s : session) : Prop :=
  truthy_str (strip (input_text s)) = false /\ todos s <> [] /\
  input_mode s = false /\ selected_type s = KTodo /\
  truthy (selected_id s) = true.

(** ** The invariants of the loop *)

(** The cursor is inside the input text or at its end. *)
Definition cursor_ok (s : session) : Prop :=
  cursor_pos s <= String.length (input_text s).

(** What a handler keeps when it takes the session [s] to [s']: the cursor
    stays inside the text, and the records of the list keep having ids. *)
Definition keeps (s s' : session) : Prop :=
  (cursor_ok s -> cursor_ok s') /\
  (Forall with_id (todos s) -> Forall with_id (todos s')).

(** ** The handlers *)

(** The three changes of the priority keys. *)
Definition priority_change (f : dict -> res dict) : Prop :=
  f = toggle_yellow \/ f = toggle_red \/ f = remove_priority.


(** A record of the group [g]. *)
Definition in_group (g : string) (todo : dict) : bool :=
  String.eqb (group_of (task_of todo)) g.

(** Two sessions with the same selection. *)
Definition same_selection (s s' : session) : Prop :=
  selected s' = selected s /\ selected_id s' = selected_id s /\
  selected_type s' = selected_type s /\ selected_group s' = selected_group s.

(** What the handlers of the groups and of the filter leave as it is: the
    list and the input field. *)
Definition same_list (s s' : session) : Prop :=
  todos s' = todos s /\ input_text s' = input_text s /\
  cursor_pos s' = cursor_pos s /\ input_mode s' = input_mode s /\
  editing_id s' = editing_id s /\ just_saved s' = just_saved s.

(** The selected record is completed: a record of the list has the selected
    id and a true [done]. *)
Definition selected_is_done (s : session) : Prop :=
  exists todo : dict, todo ∈ todos s /\ has_id (selected_id s) todo = true /\
    truthy (get_default todo "done" (VBool false)) = true.

(** ** Records without an id *)

(** The list that the loop of [load_todos] makes of the records of the file,
    with the ids drawn from [src] from the [n]-th on. *)
Fixpoint backfill_from (src : nat -> string) (n : nat) (ds : list dict) : list dict :=
  match ds with
  | [] => []
  | d :: rest =>
      if has_key d "id" then d :: backfill_from src n rest
      else <["id" := VStr (src n)]> d :: backfill_from src (S n) rest
  end.

(** The records of a list that have no id. *)
Definition legacy (ds : list dict) : list dict :=
  List.filter (fun d : dict => negb (has_key d "id")) ds.

(** * Properties *)

(** ** The functions at work *)

Example strip_ex : strip "  Work  " = "Work" /\ strip " " = "" /\ lower "Work: ZeBra" = "work: zebra".
Proof. repeat split. Qed.

Example split1_ex : split1 ":" "Work: a:b" = ["Work"; " a:b"] /\ split1 ":" "Solo" = ["Solo"].
Proof. repeat split. Qed.

Example save_ex :
  (save_todos [mk_todo "a" "Solo" false; mk_todo "b" "Work: Zebra" false]
     (w0 (Some [mk_todo "x" "! work: apple" true]))) =
  Ok ((), w0 (Some [mk_todo "x" "! work: apple" true; mk_todo "b" "Work: Zebra" false; mk_todo "a" "Solo" false])).
Proof. vm_compute. reflexivity. Qed.

Example build_ex :
  build_selectable_items
    [mk_todo "a" "Work: x" false; mk_todo "b" "Solo" false;
     mk_todo "c" "! Home: y" true; mk_todo "d" "Work : z" false]
    {["Home"]} false
  = Ok [ETodo 0; ETodo 3; ETodo 1; EGroup "Home"].
Proof. vm_compute. reflexivity. Qed.

(** ** Strings *)

Section StringFacts.

Implicit Types (s p r a b : string) (c : ascii).

Lemma append_nil_r s : s +:+ "" = s.
Proof. induction s; simpl; congruence. Qed.

Lemma append_assoc s p r : (s +:+ p) +:+ r = s +:+ (p +:+ r).
Proof. induction s; simpl; congruence. Qed.

Lemma startswith_spec s p : startswith s p = true <-> exists r, s = p +:+ r.
Proof.
  revert s; induction p as [|x p IH]; intros s; simpl.
  - split; eauto.
  - destruct s as [|y s].
    + split; [discriminate | intros [r Hr]; discriminate].
    + destruct (ascii_dec x y) as [->|Hne].
      * rewrite IH. split; intros [r Hr]; exists r; congruence.
      * split; [discriminate | intros [r Hr]; congruence].
Qed.

Lemma startswith_app p r : startswith (p +:+ r) p = true.
Proof. apply startswith_spec; eauto. Qed.

Lemma slice_from_app p r : slice_from (String.length p) (p +:+ r) = r.
Proof. induction p; simpl; auto. Qed.

Lemma contains_app_r c a b : contains c (a +:+ String c b) = true.
Proof.
  induction a as [|x a IH]; simpl.
  - destruct (ascii_dec c c); congruence.
  - destruct (ascii_dec x c); auto.
Qed.

Lemma split1_no c s : contains c s = false -> split1 c s = [s].
Proof.
  induction s as [|x s IH]; simpl; auto.
  destruct (ascii_dec x c); [discriminate|].
  intros H. rewrite (IH H). reflexivity.
Qed.

Lemma split1_at c a b :
  contains c a = false -> split1 c (a +:+ String c b) = [a; b].
Proof.
  induction a as [|x a IH]; simpl.
  - destruct (ascii_dec c c); congruence.
  - destruct (ascii_dec x c); [discriminate|].
    intros H. rewrite (IH H). reflexivity.
Qed.

Lemma contains_split c s :
  contains c s = true ->
  exists a b, s = a +:+ String c b /\ contains c a = false.
Proof.
  induction s as [|x s IH]; simpl; [discriminate|].
  destruct (ascii_dec x c) as [->|Hne].
  - intros _. exists "", s. auto.
  - intros H. destruct (IH H) as (a & b & -> & Ha).
    exists (String x a), b. simpl.
    destruct (ascii_dec x c); [contradiction|]. auto.
Qed.

(** The first colon is where it is: a decomposition around a colon with
    none before it is unique. *)
Lemma first_split_unique c a b a' b' :
  a +:+ String c b = a' +:+ String c b' ->
  contains c a = false -> contains c a' = false -> a = a' /\ b = b'.
Proof.
  intros E Ha Ha'.
  assert (H := split1_at c a b Ha). rewrite E, (split1_at c a' b' Ha') in H.
  split; congruence.
Qed.

Lemma lstrip_head s :
  match lstrip s with
  | "" => True
  | String x _ => isspace x = false
  end.
Proof.
  induction s as [|x s IH]; simpl; auto.
  destruct (isspace x) eqn:E; simpl; auto.
Qed.

Lemma lstrip_fix s :
  match s with "" => True | String x _ => isspace x = false end ->
  lstrip s = s.
Proof. destruct s as [|x s]; simpl; auto. intros ->. reflexivity. Qed.

Lemma rstrip_head x s :
  isspace x = false -> exists r, rstrip (String x s) = String x r.
Proof.
  intros Hx. simpl. destruct (rstrip s); [rewrite Hx|]; eauto.
Qed.

Lemma rstrip_cons x s :
  rstrip (String x s) =
  match rstrip s with
  | "" => if isspace x then "" else String x ""
  | r => String x r
  end.
Proof. reflexivity. Qed.

Lemma rstrip_idem s : rstrip (rstrip s) = rstrip s.
Proof.
  induction s as [|x s IH]; [reflexivity|].
  rewrite rstrip_cons. destruct (rstrip s) as [|y r] eqn:E.
  - destruct (isspace x) eqn:Hx; [reflexivity|].
    rewrite rstrip_cons. simpl. rewrite Hx. reflexivity.
  - rewrite rstrip_cons, IH. reflexivity.
Qed.

Lemma strip_head s :
  match strip s with
  | "" => True
  | String x _ => isspace x = false
  end.
Proof.
  unfold strip. pose proof (lstrip_head s) as H.
  destruct (lstrip s) as [|x r]; simpl; auto.
  destruct (rstrip_head x r H) as [r' Hr]. simpl in Hr. rewrite Hr. exact H.
Qed.

Lemma strip_idem s : strip (strip s) = strip s.
Proof.
  unfold strip at 1. rewrite (lstrip_fix _ (strip_head s)).
  unfold strip. apply rstrip_idem.
Qed.

Lemma strip_space s : strip (String " " s) = strip s.
Proof. reflexivity. Qed.

End StringFacts.

(** ** The entity codec *)

Lemma is_prefix_startswith p s : is_prefix p s <-> startswith s p = true.
Proof. symmetry. apply startswith_spec. Qed.

Lemma extract_priority_spec task :
  exists priority clean,
    extract_priority task = (priority, clean) /\
    task = marker priority +:+ clean /\
    (priority = 2 <-> is_prefix "!! " task) /\
    (priority = 1 <-> is_prefix "! " task /\ ~ is_prefix "!! " task) /\
    (priority = 0 <-> ~ is_prefix "! " task /\ ~ is_prefix "!! " task).
Proof.
  unfold extract_priority.
  destruct (startswith task "!! ") eqn:H2.
  - pose proof H2 as [r ->]%startswith_spec.
    exists 2, r. split; [reflexivity|]. split; [reflexivity|].
    rewrite !is_prefix_startswith, H2.
    change (startswith ("!! " +:+ r) "! ") with false.
    intuition congruence.
  - destruct (startswith task "! ") eqn:H1.
    + pose proof H1 as [r ->]%startswith_spec.
      exists 1, r. split; [reflexivity|]. split; [reflexivity|].
      rewrite !is_prefix_startswith, H1, H2. intuition congruence.
    + exists 0, task. split; [reflexivity|]. split; [reflexivity|].
      rewrite !is_prefix_startswith, H1, H2. intuition congruence.
Qed.

Lemma cut_priority_extract task : cut_priority task = (extract_priority task).2.
Proof.
  unfold cut_priority, extract_priority.
  destruct (startswith task "!! "); [reflexivity|].
  destruct (startswith task "! "); reflexivity.
Qed.

Lemma decode_task_colon task priority clean a b :
  extract_priority task = (priority, clean) ->
  clean = a +:+ String ":" b -> contains ":" a = false ->
  decode_task task = Ok (priority, strip a, strip b).
Proof.
  intros E -> Ha. unfold decode_task. rewrite E, contains_app_r, split1_at by done.
  reflexivity.
Qed.

Lemma decode_task_plain task priority clean :
  extract_priority task = (priority, clean) -> contains ":" clean = false ->
  decode_task task = Ok (priority, "__ungrouped__", clean).
Proof. intros E H. unfold decode_task. rewrite E, H. reflexivity. Qed.

Lemma decode_task_total task :
  exists priority group text, decode_task task = Ok (priority, group, text).
Proof.
  destruct (extract_priority task) as [priority clean] eqn:E.
  destruct (contains ":" clean) eqn:Hc.
  - apply contains_split in Hc as (a & b & -> & Ha).
    eexists _, _, _. eapply decode_task_colon; eauto.
  - eexists _, _, _. eapply decode_task_plain; eauto.
Qed.

Lemma get_todo_group_decode (todo : dict) task priority group text :
  todo !! "task" = Some (VStr task) ->
  decode_task task = Ok (priority, group, text) ->
  get_todo_group todo = Ok group.
Proof.
  intros Ht. unfold get_todo_group, decode_task, getitem. rewrite Ht. simpl.
  rewrite cut_priority_extract.
  destruct (extract_priority task) as [q clean]. simpl.
  destruct (contains ":" clean) eqn:Hc.
  - apply contains_split in Hc as (a & b & -> & Ha).
    rewrite split1_at by done. simpl. congruence.
  - congruence.
Qed.

(** C6, as stated: the group and the text are the two sides of the first
    colon as they stand.  It fails on a task as plain as [Work: Apple], whose
    text is decoded without the blank that follows the colon. *)
Lemma C6_decoding_untrimmed_fails : ~ decodes (fun s => s) "Work: Apple".
Proof.
  intros (priority & group & text & clean & Hd & _ & _ & _ & Hm & Hc & _).
  vm_compute in Hd. injection Hd as <- <- <-.
  simpl in Hm. subst clean.
  destruct (Hc "Work" " Apple" eq_refl eq_refl) as [_ Ht]. discriminate.
Qed.

(** C6, amended: for every task the decoded priority is high exactly when the
    task starts with ["!! "], low exactly when it starts with ["! "] and none
    otherwise; the decoded group is the text before the first colon of the
    priority-stripped task with the white space around it removed, or the
    sentinel when there is no colon; the decoded text is the text after that
    colon with the white space around it removed, or the whole
    priority-stripped task when there is no colon; [get_todo_group] returns
    the same group. *)
Theorem C6_decoding_trimmed (task : string) :
  decodes strip task /\
  (forall (todo : dict) priority group text,
     todo !! "task" = Some (VStr task) ->
     decode_task task = Ok (priority, group, text) ->
     get_todo_group todo = Ok group).
Proof.
  split; [|intros; eapply get_todo_group_decode; eauto].
  destruct (extract_priority_spec task) as (priority & clean & E & Hm & H2 & H1 & H0).
  destruct (contains ":" clean) eqn:Hc.
  - apply contains_split in Hc as (a & b & Hab & Ha).
    exists priority, (strip a), (strip b), clean.
    split; [eapply decode_task_colon; eauto|].
    repeat (split; [assumption|]). split.
    + intros a' b' E' Ha'. rewrite Hab in E'.
      destruct (first_split_unique _ _ _ _ _ E' Ha Ha') as [-> ->]. done.
    + rewrite Hab, contains_app_r. discriminate.
  - exists priority, "__ungrouped__", clean, clean.
    split; [eapply decode_task_plain; eauto|].
    repeat (split; [assumption|]). split.
    + intros a b -> _. rewrite contains_app_r in Hc. discriminate.
    + done.
Qed.

(** ** The order of the sort keys *)

Section KeyOrder.

Lemma code_inj a b : code a = code b -> a = b.
Proof.
  unfold code. intros H.
  rewrite <- (ascii_N_embedding a), <- (ascii_N_embedding b). congruence.
Qed.

Lemma str_compare_refl s : str_compare s s = Eq.
Proof. induction s; simpl; [done|]. by rewrite N.compare_refl. Qed.

Lemma str_compare_eq s1 s2 : str_compare s1 s2 = Eq -> s1 = s2.
Proof.
  revert s2; induction s1 as [|a s1 IH]; intros [|b s2]; simpl; try done.
  destruct (N.compare (code a) (code b)) eqn:E; try done.
  intros H. apply N.compare_eq_iff, code_inj in E. f_equal; auto.
Qed.

Lemma str_compare_antisym s1 s2 : str_compare s2 s1 = CompOpp (str_compare s1 s2).
Proof.
  revert s2; induction s1 as [|a s1 IH]; intros [|b s2]; simpl; try done.
  rewrite (N.compare_antisym (code a) (code b)).
  destruct (N.compare (code a) (code b)); simpl; auto.
Qed.

Lemma str_compare_trans s1 s2 s3 :
  str_compare s1 s2 = Lt -> str_compare s2 s3 = Lt -> str_compare s1 s3 = Lt.
Proof.
  revert s2 s3; induction s1 as [|a s1 IH]; intros [|b s2] [|c s3]; simpl; try done.
  destruct (N.compare (code a) (code b)) eqn:E1; try done;
    destruct (N.compare (code b) (code c)) eqn:E2; try done; intros H1 H2.
  - apply N.compare_eq_iff in E1, E2. rewrite E1, E2, N.compare_refl. eauto.
  - apply N.compare_eq_iff in E1. rewrite E1, E2. done.
  - apply N.compare_eq_iff in E2. rewrite <- E2, E1. done.
  - rewrite N.compare_lt_iff in E1, E2.
    assert (code a < code c)%N as ->%N.compare_lt_iff by lia. done.
Qed.

Lemma key_compare_refl k : key_compare k k = Eq.
Proof.
  destruct k as [[n g] t]. simpl.
  by rewrite Z.compare_refl, !str_compare_refl.
Qed.

Lemma key_compare_eq k1 k2 : key_compare k1 k2 = Eq -> k1 = k2.
Proof.
  destruct k1 as [[n1 g1] t1], k2 as [[n2 g2] t2]. simpl.
  destruct (Z.compare n1 n2) eqn:E1; try done.
  destruct (str_compare g1 g2) eqn:E2; try done.
  intros E3. apply Z.compare_eq_iff in E1.
  apply str_compare_eq in E2, E3. congruence.
Qed.

Lemma key_compare_antisym k1 k2 : key_compare k2 k1 = CompOpp (key_compare k1 k2).
Proof.
  destruct k1 as [[n1 g1] t1], k2 as [[n2 g2] t2]. simpl.
  rewrite (Z.compare_antisym n1 n2), (str_compare_antisym g1 g2),
    (str_compare_antisym t1 t2).
  destruct (Z.compare n1 n2); simpl; auto.
  destruct (str_compare g1 g2); simpl; auto.
Qed.

Lemma key_lt_trans k1 k2 k3 :
  key_lt k1 k2 = true -> key_lt k2 k3 = true -> key_lt k1 k3 = true.
Proof.
  unfold key_lt.
  destruct k1 as [[n1 g1] t1], k2 as [[n2 g2] t2], k3 as [[n3 g3] t3]. simpl.
  destruct (Z.compare n1 n2) eqn:E1; try done;
    destruct (Z.compare n2 n3) eqn:E2; try done.
  - apply Z.compare_eq_iff in E1, E2. subst. rewrite Z.compare_refl.
    destruct (str_compare g1 g2) eqn:F1; try done;
      destruct (str_compare g2 g3) eqn:F2; try done.
    + apply str_compare_eq in F1, F2. subst. rewrite str_compare_refl.
      destruct (str_compare t1 t2) eqn:G1; try done.
      destruct (str_compare t2 t3) eqn:G2; try done.
      by rewrite (str_compare_trans _ _ _ G1 G2).
    + apply str_compare_eq in F1. subst. by rewrite F2.
    + apply str_compare_eq in F2. subst. by rewrite F1.
    + by rewrite (str_compare_trans _ _ _ F1 F2).
  - apply Z.compare_eq_iff in E1. subst. by rewrite E2.
  - apply Z.compare_eq_iff in E2. subst. by rewrite E1.
  - intros _ _. rewrite Z.compare_lt_iff in E1, E2.
    assert (n1 < n3)%Z as ->%Z.compare_lt_iff by lia. done.
Qed.

Lemma key_lt_irrefl k : key_lt k k = false.
Proof. unfold key_lt. by rewrite key_compare_refl. Qed.


Lemma key_le_refl k : key_le k k = true.
Proof. unfold key_le. by rewrite key_lt_irrefl. Qed.


Lemma key_le_antisym k1 k2 : key_le k1 k2 = true -> key_le k2 k1 = true -> k1 = k2.
Proof.
  unfold key_le, key_lt. rewrite (key_compare_antisym k1 k2).
  destruct (key_compare k1 k2) eqn:E; try done.
  intros _ _. by apply key_compare_eq.
Qed.

Lemma key_le_cases k1 k2 : key_le k1 k2 = true <-> key_lt k1 k2 = true \/ k1 = k2.
Proof.
  unfold key_le, key_lt. rewrite (key_compare_antisym k1 k2). split.
  - destruct (key_compare k1 k2) eqn:E; simpl; try done; auto.
    right. by apply key_compare_eq.
  - intros [H | ->]; [|by rewrite key_compare_refl].
    destruct (key_compare k1 k2); done.
Qed.

Lemma key_le_trans k1 k2 k3 :
  key_le k1 k2 = true -> key_le k2 k3 = true -> key_le k1 k3 = true.
Proof.
  rewrite !key_le_cases. intros [H1 | ->] [H2 | ->]; auto.
  left. eapply key_lt_trans; eauto.
Qed.

Lemma key_lt_le k1 k2 : key_lt k1 k2 = true -> key_le k1 k2 = true.
Proof. intros. apply key_le_cases. auto. Qed.


End KeyOrder.

(** ** Sorting *)

Section Sorting.

Context {A : Type}.
Implicit Types (x y : key * A) (l : list (key * A)).

Lemma insert_by_key_perm x l : Permutation (insert_by_key x l) (x :: l).
Proof.
  induction l as [|y l IH]; simpl; [done|].
  destruct (key_lt y.1 x.1); [|done].
  rewrite IH. apply perm_swap.
Qed.

Lemma sort_keyed_perm l : Permutation (sort_keyed l) l.
Proof.
  induction l as [|x l IH]; simpl; [done|].
  by rewrite insert_by_key_perm, IH.
Qed.

Lemma insert_by_key_sorted x l :
  StronglySorted keyed_le l -> StronglySorted keyed_le (insert_by_key x l).
Proof.
  induction 1 as [|y l Hs IH Hy]; simpl.
  - repeat constructor.
  - destruct (key_lt y.1 x.1) eqn:E.
    + constructor; [done|].
      rewrite insert_by_key_perm. constructor; [|done].
      by apply key_lt_le.
    + assert (keyed_le x y) as Hxy by (unfold keyed_le, key_le; by rewrite E).
      constructor; [by constructor|].
      constructor; [done|].
      eapply Forall_impl; [exact Hy|].
      intros z Hz. unfold keyed_le in *. eapply key_le_trans; eauto.
Qed.

Lemma sort_keyed_sorted l : StronglySorted keyed_le (sort_keyed l).
Proof.
  induction l as [|x l IH]; simpl; [constructor|].
  by apply insert_by_key_sorted.
Qed.

End Sorting.

(** ** The sort done by [save_todos] *)

Lemma mapM_res_Forall2 {A B} (f : A -> res B) l ks :
  mapM_res f l = Ok ks <-> Forall2 (fun x k => f x = Ok k) l ks.
Proof.
  revert ks; induction l as [|x l IH]; intros ks; simpl.
  - split; [intros [= <-]; constructor | by inversion 1].
  - destruct (f x) as [y|e] eqn:E; simpl.
    + destruct (mapM_res f l) as [ys|e] eqn:E'; simpl.
      * split.
        -- intros [= <-]. constructor; [done|]. by apply IH.
        -- inversion 1 as [|? k ? ks' Hk Hks]; subst.
           apply IH in Hks. congruence.
      * split; [done|].
        inversion 1 as [|? k ? ks' Hk Hks]; subst. apply IH in Hks. done.
    + split; [done|]. inversion 1; subst. congruence.
Qed.

Lemma mapM_res_total {A B} (f : A -> res B) l :
  Forall (fun x => exists k, f x = Ok k) l -> exists ks, mapM_res f l = Ok ks.
Proof.
  induction 1 as [|x l [k Hk] _ [ks Hks]]; simpl; [by eexists|].
  rewrite Hk. simpl. rewrite Hks. simpl. by eexists.
Qed.

Lemma get_sort_key_decode (todo : dict) task priority group text :
  todo !! "task" = Some (VStr task) ->
  decode_task task = Ok (priority, group, text) ->
  get_sort_key todo =
    Ok (if contains ":" (cut_priority task)
        then (0%Z, lower group, lower text)
        else (1%Z, "", lower (cut_priority task))).
Proof.
  intros Ht. unfold get_sort_key, decode_task, getitem. rewrite Ht. simpl.
  rewrite cut_priority_extract.
  destruct (extract_priority task) as [q clean]. simpl.
  destruct (contains ":" clean) eqn:Hc.
  - apply contains_split in Hc as (a & b & -> & Ha).
    rewrite split1_at by done. simpl. congruence.
  - done.
Qed.

Lemma get_sort_key_total todo : has_task todo -> exists k, get_sort_key todo = Ok k.
Proof.
  intros [task Ht].
  destruct (decode_task_total task) as (p & g & d & Hd).
  rewrite (get_sort_key_decode _ _ _ _ _ Ht Hd). by eexists.
Qed.

Lemma sort_todos_total merged :
  Forall has_task merged -> exists sorted, sort_todos merged = Ok sorted.
Proof.
  intros H. unfold sort_todos.
  destruct (mapM_res_total get_sort_key merged) as [ks ->]; [|by eexists].
  eapply Forall_impl; [exact H|]. apply get_sort_key_total.
Qed.

Lemma zip_keyed (ks : list key) (l : list dict) :
  Forall2 (fun x k => get_sort_key x = Ok k) l ks ->
  Forall (fun p : key * dict => get_sort_key p.2 = Ok p.1) (zip ks l) /\
  (zip ks l).*2 = l.
Proof.
  induction 1 as [|x k l ks Hk _ [IH1 IH2]]; simpl; [done|].
  split; [by constructor | by f_equal].
Qed.

Lemma keyed_sorted_todo_le (ps : list (key * dict)) :
  Forall (fun p : key * dict => get_sort_key p.2 = Ok p.1) ps ->
  StronglySorted keyed_le ps -> StronglySorted todo_le (ps.*2).
Proof.
  intros Hk Hs. induction Hs as [|p ps Hs IH Hp]; simpl; [constructor|].
  inversion Hk as [|? ? Hkp Hkps]; subst.
  constructor; [by apply IH|].
  apply Forall_fmap. rewrite Forall_forall in *. intros q Hq.
  exists p.1, q.1. split; [done|]. split; [by apply Hkps|]. by apply Hp.
Qed.

Lemma sort_todos_spec merged sorted :
  sort_todos merged = Ok sorted ->
  Permutation sorted merged /\ StronglySorted todo_le sorted.
Proof.
  unfold sort_todos. destruct (mapM_res get_sort_key merged) as [ks|e] eqn:E; [|done].
  simpl. intros [= <-].
  apply mapM_res_Forall2, zip_keyed in E as [Hk Hz].
  split.
  - rewrite <- Hz at 2. apply fmap_Permutation, sort_keyed_perm.
  - apply keyed_sorted_todo_le; [|apply sort_keyed_sorted].
    by rewrite sort_keyed_perm.
Qed.




(** ** The store *)

Ltac unfold_M := unfold mbind, M_bind, mret, M_ret, lift in *.

Lemma has_key_true (d : dict) k : has_key d k = true <-> is_Some (d !! k).
Proof. unfold has_key. apply bool_decide_eq_true. Qed.

Lemma backfill_ids_spec ds w :
  exists l w', backfill_ids ds w = Ok (l, w') /\
    file w' = file w /\ uuid_src w' = uuid_src w /\ Forall2 backfilled ds l.
Proof.
  revert w; induction ds as [|d ds IH]; intros w; simpl.
  - exists [], w. unfold_M. repeat split. constructor.
  - unfold_M. destruct (has_key d "id") eqn:Hid.
    + destruct (IH w) as (l & w' & -> & ? & ? & ?).
      exists (d :: l), w'. repeat split; try done.
      constructor; [|done]. unfold backfilled. by rewrite Hid.
    + unfold uuid4 at 1.
      destruct (IH (World (file w) (uuid_src w) (S (uuid_next w))))
        as (l & w' & -> & ? & ? & ?).
      eexists (_ :: l), w'. repeat split; try done.
      constructor; [|done]. unfold backfilled. rewrite Hid. by eexists.
Qed.

Lemma backfill_ids_id ds w : Forall with_id ds -> backfill_ids ds w = Ok (ds, w).
Proof.
  induction 1 as [|d ds Hd _ IH]; simpl; [done|].
  unfold_M. unfold with_id in Hd. by rewrite Hd, IH.
Qed.

Lemma load_todos_spec w :
  exists l w', load_todos w = Ok (l, w') /\
    file w' = file w /\ uuid_src w' = uuid_src w /\ Forall2 backfilled (on_disk w) l.
Proof.
  unfold load_todos, on_disk. destruct (file w) as [ds|] eqn:E.
  - destruct (backfill_ids_spec ds w) as (l & w' & H & ? & ? & ?).
    exists l, w'. repeat split; try done. congruence.
  - exists [], w. repeat split; done.
Qed.

Lemma load_todos_id w :
  Forall with_id (on_disk w) -> load_todos w = Ok (on_disk w, w).
Proof.
  unfold load_todos, on_disk. destruct (file w); simpl; [|done].
  apply backfill_ids_id.
Qed.

Lemma backfilled_has_task d c : backfilled d c -> has_task d -> has_task c.
Proof.
  unfold backfilled. destruct (has_key d "id"); [by intros ->|].
  intros [u ->] [task Ht]. exists task. by rewrite lookup_insert_ne.
Qed.

Lemma backfilled_with_id d c : backfilled d c -> with_id c.
Proof.
  unfold backfilled, with_id. destruct (has_key d "id") eqn:E; [by intros ->|].
  intros [u ->]. apply has_key_true. rewrite lookup_insert_eq. by eexists.
Qed.

Lemma elem_of_List_filter {A} (f : A -> bool) (x : A) l :
  x ∈ List.filter f l <-> x ∈ l /\ f x = true.
Proof. rewrite !list_elem_of_In. apply filter_In. Qed.

Lemma save_todos_spec todos w current w1 :
  load_todos w = Ok (current, w1) ->
  Forall has_task (todos ++ foreign todos current) ->
  exists sorted,
    save_todos todos w = Ok ((), World (Some sorted) (uuid_src w1) (uuid_next w1)) /\
    Permutation sorted (todos ++ foreign todos current) /\
    StronglySorted todo_le sorted.
Proof.
  intros Hl Ht. unfold save_todos. unfold_M. rewrite Hl.
  fold (foreign todos current).
  destruct (sort_todos_total _ Ht) as [sorted Hs]. rewrite Hs.
  exists sorted. split; [done|]. by apply sort_todos_spec.
Qed.

(** C1: [save_todos] succeeds on a list of records and a file whose records
    all have a task, and writes a list that holds, up to the order of the
    sort, exactly the records it was given followed by the records of the
    file, as [load_todos] reads them, whose id is none of the ids of the given
    list.  So every given record is written, and so is every record of the
    file with an id that the given list does not have: a record that another
    session added to the file is not lost. *)
Theorem C1_merge_safety (candidate : list dict) (w : world) :
  Forall has_task candidate ->
  Forall has_task (on_disk w) ->
  exists current w1 written w',
    load_todos w = Ok (current, w1) /\
    Forall2 backfilled (on_disk w) current /\
    save_todos candidate w = Ok ((), w') /\
    file w' = Some written /\
    Permutation written (candidate ++ foreign candidate current) /\
    (forall t, t ∈ candidate -> t ∈ written) /\
    (forall x, x ∈ current ->
       py_in (get x "id") (our_ids_of candidate) = false -> x ∈ written) /\
    (forall x, x ∈ on_disk w -> with_id x ->
       py_in (get x "id") (our_ids_of candidate) = false -> x ∈ written).
Proof.
  intros Hc Hd.
  destruct (load_todos_spec w) as (current & w1 & Hl & _ & _ & Hb).
  assert (Forall has_task current) as Hcur.
  { clear Hl. induction Hb as [|d c ds cs Hdc _ IH]; [constructor|].
    inversion Hd; subst. constructor; eauto using backfilled_has_task. }
  assert (Forall has_task (candidate ++ foreign candidate current)) as Hm.
  { apply Forall_app. split; [done|].
    unfold foreign. apply Forall_forall. intros x [Hx _]%elem_of_List_filter.
    rewrite Forall_forall in Hcur. by apply Hcur. }
  destruct (save_todos_spec _ _ _ _ Hl Hm) as (written & Hs & Hp & _).
  assert (forall x, x ∈ current ->
    py_in (get x "id") (our_ids_of candidate) = false -> x ∈ written) as Hcw.
  { intros x Hx Hn. rewrite Hp. apply elem_of_app. right.
    apply elem_of_List_filter. split; [done|]. by rewrite Hn. }
  eexists current, w1, written, _. repeat split; try done.
  - intros t Hin. rewrite Hp. apply elem_of_app. by left.
  - intros x Hx Hid Hn. apply Hcw; [|done].
    clear -Hb Hx Hid. induction Hb as [|d c ds cs Hdc _ IH]; [by inversion Hx|].
    apply elem_of_cons in Hx as [->|Hx].
    + unfold backfilled, with_id in *. rewrite Hid in Hdc. subst. left.
    + right. auto.
Qed.

(** ** Round trip through the file *)

Lemma foreign_nil todos current :
  Forall (fun x : dict => py_in (get x "id") (our_ids_of todos) = true) current ->
  foreign todos current = [].
Proof.
  induction 1 as [|x l Hx _ IH]; simpl; [done|]. by rewrite Hx.
Qed.

Lemma save_load_own candidate w :
  Forall with_id candidate -> Forall has_task candidate ->
  Forall with_id (on_disk w) ->
  Forall (fun x : dict => py_in (get x "id") (our_ids_of candidate) = true) (on_disk w) ->
  exists written,
    save_todos candidate w = Ok ((), World (Some written) (uuid_src w) (uuid_next w)) /\
    load_todos (World (Some written) (uuid_src w) (uuid_next w))
      = Ok (written, World (Some written) (uuid_src w) (uuid_next w)) /\
    Permutation written candidate /\ StronglySorted todo_le written.
Proof.
  intros Hid Ht Hdid Hd.
  pose proof (load_todos_id w Hdid) as Hl.
  assert (foreign candidate (on_disk w) = []) as Hf by by apply foreign_nil.
  destruct (save_todos_spec candidate w _ _ Hl) as (written & Hs & Hp & Hsorted).
  { by rewrite Hf, app_nil_r. }
  rewrite Hf, app_nil_r in Hp.
  exists written. split; [done|]. split; [|done].
  apply (load_todos_id (World (Some written) _ _)).
  change (Forall with_id written). by rewrite Hp.
Qed.

Lemma shared_file_save :
  save_todos [mk_todo "a" "Work: Apple" false]
    (w0 (Some [mk_todo "a" "Work: Apple" false; mk_todo "x" "Solo" false]))
  = Ok ((), w0 (Some [mk_todo "a" "Work: Apple" false; mk_todo "x" "Solo" false])).
Proof. vm_compute. reflexivity. Qed.

Lemma shared_file_load :
  load_todos (w0 (Some [mk_todo "a" "Work: Apple" false; mk_todo "x" "Solo" false]))
  = Ok ([mk_todo "a" "Work: Apple" false; mk_todo "x" "Solo" false],
        w0 (Some [mk_todo "a" "Work: Apple" false; mk_todo "x" "Solo" false])).
Proof. vm_compute. reflexivity. Qed.

Lemma shared_file_tuples :
  tuple_of (mk_todo "x" "Solo" false) <> tuple_of (mk_todo "a" "Work: Apple" false).
Proof. vm_compute. discriminate. Qed.

(** C2, as stated, at a file to which another session has added the record
    [x]: the list that is saved holds the record [a] alone, and what is loaded
    after the save holds [x] as well. *)
Lemma C2_round_trip_fails_on_shared_file :
  let a := mk_todo "a" "Work: Apple" false in
  let x := mk_todo "x" "Solo" false in
  Forall with_id [a] /\ Forall has_task [a] /\
  ~ round_trip [a] (w0 (Some [a; x])).
Proof.
  cbv zeta. split; [by repeat constructor|].
  split; [repeat constructor; eexists; by vm_compute|].
  intros (w1 & loaded & w2 & Hs & Hl & Hiff).
  rewrite shared_file_save in Hs. injection Hs as <-.
  rewrite shared_file_load in Hl. injection Hl as <- <-.
  destruct (Hiff (tuple_of (mk_todo "x" "Solo" false))) as [Hin _].
  apply shared_file_tuples.
  assert (forall y (l : list dict), y ∈ tuple_of <$> l ->
            exists t, t ∈ l /\ y = tuple_of t) as Hfmap.
  { intros y l (t & -> & Ht)%list_elem_of_fmap. eauto. }
  destruct (Hfmap _ _ (Hin ltac:(apply list_elem_of_fmap; eexists; split;
    [reflexivity | right; left]))) as (t & Ht & ->).
  by apply list_elem_of_singleton in Ht as ->.
Qed.

(** C2, amended: when every record of the list carries an id and a task, and
    every record of the file carries an id that occurs in the list (so when
    the file is absent or empty), saving the list and loading it again yields
    a permutation of the list, hence the same set of tuples
    [(id, priority, group, text, done)], whatever the order in the file. *)
Theorem C2_round_trip_own_file (candidate : list dict) (w : world) :
  Forall with_id candidate -> Forall has_task candidate ->
  Forall with_id (on_disk w) ->
  Forall (fun x : dict => py_in (get x "id") (our_ids_of candidate) = true) (on_disk w) ->
  exists w1 loaded w2,
    save_todos candidate w = Ok ((), w1) /\
    load_todos w1 = Ok (loaded, w2) /\
    Permutation loaded candidate /\
    (forall tp, tp ∈ tuple_of <$> loaded <-> tp ∈ tuple_of <$> candidate).
Proof.
  intros Hid Ht Hdid Hd.
  destruct (save_load_own candidate w Hid Ht Hdid Hd) as (written & Hs & Hl & Hp & _).
  eexists _, written, _. split; [exact Hs|]. split; [exact Hl|]. split; [done|].
  intros tp. by rewrite Hp.
Qed.

Lemma C2_round_trip_own_file_witness :
  let c := [mk_todo "a" "Solo" false; mk_todo "b" "! Work: Zebra" true] in
  exists w1 loaded w2,
    save_todos c (w0 None) = Ok ((), w1) /\
    load_todos w1 = Ok (loaded, w2) /\
    Permutation loaded c /\
    (forall tp, tp ∈ tuple_of <$> loaded <-> tp ∈ tuple_of <$> c).
Proof.
  cbv zeta. apply C2_round_trip_own_file.
  - repeat constructor.
  - repeat constructor; eexists; vm_compute; reflexivity.
  - constructor.
  - constructor.
Defined.

Lemma C1_merge_safety_witness :
  let candidate := [mk_todo "a" "Work: edited" true] in
  let w := w0 (Some [mk_todo "a" "Work: old" false; mk_todo "x" "Solo" false]) in
  exists current w1 written w',
    load_todos w = Ok (current, w1) /\
    Forall2 backfilled (on_disk w) current /\
    save_todos candidate w = Ok ((), w') /\
    file w' = Some written /\
    Permutation written (candidate ++ foreign candidate current) /\
    (forall t, t ∈ candidate -> t ∈ written) /\
    (forall x, x ∈ current ->
       py_in (get x "id") (our_ids_of candidate) = false -> x ∈ written) /\
    (forall x, x ∈ on_disk w -> with_id x ->
       py_in (get x "id") (our_ids_of candidate) = false -> x ∈ written).
Proof.
  cbv zeta. apply C1_merge_safety.
  - repeat constructor; eexists; vm_compute; reflexivity.
  - repeat constructor; eexists; vm_compute; reflexivity.
Defined.

(** ** Deletion and the merge *)

Lemma delete_from_file_spec sid w current w1 :
  load_todos w = Ok (current, w1) ->
  let ts := List.filter (fun t => negb (has_id sid t)) current in
  delete_from_file sid w = Ok (ts, World (Some ts) (uuid_src w1) (uuid_next w1)).
Proof. intros Hl. unfold delete_from_file. unfold_M. by rewrite Hl. Qed.

Lemma delete_selected_world s w s' w' :
  delete_selected s w = Ok (s', w') ->
  exists ts, delete_from_file (selected_id s) w = Ok (ts, w').
Proof.
  unfold delete_selected. unfold_M.
  destruct (delete_from_file (selected_id s) w) as [[ts w1]|e]; [|done].
  destruct (0 <? len ts)%Z.
  - destruct (index ts _) as [t|e]; [|done].
    destruct (getitem t "id"); [|done]. intros [= <- <-]. by eexists.
  - intros [= <- <-]. by eexists.
Qed.

Lemma key_delete_deletes s : deletes s -> key_delete s = delete_selected s.
Proof.
  intros (Hi & Hm & Ht & Hs & Hn). unfold key_delete.
  rewrite Hi, Hm, Ht, Hs. simpl. destruct (todos s); done.
Qed.

Lemma resurrection_delete :
  key_delete
    (Session [mk_todo "i" "Work: Apple" false; mk_todo "j" "Solo" false]
       false 0 (VStr "i") KTodo VNone "" 0 false VNone ∅ false)
    (w0 (Some [mk_todo "i" "Work: Apple" false; mk_todo "j" "Solo" false]))
  = Ok (Session [mk_todo "j" "Solo" false]
          true 0 (VStr "j") KTodo VNone "" 0 false VNone ∅ false,
        w0 (Some [mk_todo "j" "Solo" false])).
Proof. vm_compute. reflexivity. Qed.

Lemma resurrection_save :
  key_enter
    (Session [mk_todo "i" "Work: Apple" false; mk_todo "j" "Solo" false]
       false 1 (VStr "j") KTodo VNone "Buy milk" 8 true VNone ∅ false)
    (w0 (Some [mk_todo "j" "Solo" false]))
  = Ok (Session [mk_todo "i" "Work: Apple" false; mk_todo "u0" "Buy milk" false;
                 mk_todo "j" "Solo" false]
          true 1 (VStr "u0") KTodo VNone "" 0 false VNone ∅ false,
        World (Some [mk_todo "i" "Work: Apple" false; mk_todo "u0" "Buy milk" false;
                     mk_todo "j" "Solo" false])
          (fun n => "u" +:+ pretty n) 1).
Proof. vm_compute. reflexivity. Qed.

(** C3, as stated, fails: session A deletes the record [i] with the Delete
    key, the file no longer has it; session B, whose list was read before
    and still holds [i], adds a record with the Enter key, and the file
    written by the merge of that save holds [i] again. *)
Lemma C3_deleted_id_resurrected :
  let i := mk_todo "i" "Work: Apple" false in
  let j := mk_todo "j" "Solo" false in
  let sA := Session [i; j] false 0 (VStr "i") KTodo VNone "" 0 false VNone ∅ false in
  let sB := Session [i; j] false 1 (VStr "j") KTodo VNone "Buy milk" 8 true VNone ∅ false in
  exists sA' w1 sB' w2,
    key_delete sA (w0 (Some [i; j])) = Ok (sA', w1) /\
    (forall t, t ∈ on_disk w1 -> has_id (VStr "i") t = false) /\
    key_enter sB w1 = Ok (sB', w2) /\
    i ∈ on_disk w2 /\ has_id (VStr "i") i = true.
Proof.
  cbv zeta. eexists _, _, _, _.
  split; [exact resurrection_delete|].
  split.
  { intros t Ht. apply list_elem_of_singleton in Ht as ->. reflexivity. }
  split; [exact resurrection_save|].
  split; [left | reflexivity].
Qed.

(** C3, amended: after the deletion of the id from a file whose records all
    carry an id, no record of the file has that id, and the Delete key leaves
    the file in that state; a later [save_todos] by a session writes a file
    that has a record with the deleted id exactly when that session's own
    list has one.  The id stays away after a save of a list without it and
    comes back with a save of a stale list that still holds it. *)
Theorem C3_delete_then_merge (sid : value) (stale : list dict) (w : world) :
  Forall with_id (on_disk w) ->
  Forall has_task (on_disk w) ->
  Forall has_task stale ->
  exists ts w1 w2,
    delete_from_file sid w = Ok (ts, w1) /\
    (forall s s' w', selected_id s = sid -> deletes s ->
       key_delete s w = Ok (s', w') -> w' = w1) /\
    (forall t, t ∈ on_disk w1 -> has_id sid t = false) /\
    save_todos stale w1 = Ok ((), w2) /\
    ((exists t, t ∈ on_disk w2 /\ has_id sid t = true) <->
     (exists t, t ∈ stale /\ has_id sid t = true)).
Proof.
  intros Hid Ht Hst.
  pose proof (load_todos_id w Hid) as Hl.
  pose proof (delete_from_file_spec sid w _ _ Hl) as Hd. cbv zeta in Hd.
  set (ts := List.filter (fun t => negb (has_id sid t)) (on_disk w)) in *.
  set (w1 := World (Some ts) (uuid_src w) (uuid_next w)) in *.
  assert (forall t, t ∈ ts -> t ∈ on_disk w /\ has_id sid t = false) as Hts.
  { intros t [? Hn]%elem_of_List_filter. split; [done|].
    by destruct (has_id sid t). }
  assert (Forall with_id ts /\ Forall has_task ts) as [Hid1 Ht1].
  { rewrite Forall_forall in Hid, Ht.
    split; apply Forall_forall; intros t [? _]%Hts; auto. }
  pose proof (load_todos_id w1 Hid1) as Hl1.
  change (on_disk w1) with ts in Hl1.
  destruct (save_todos_spec stale w1 ts w1 Hl1) as (sorted & Hs & Hp & _).
  { apply Forall_app. split; [done|].
    apply Forall_forall. intros t [Hin _]%elem_of_List_filter.
    rewrite Forall_forall in Ht1. auto. }
  exists ts, w1, (World (Some sorted) (uuid_src w1) (uuid_next w1)).
  split; [done|]. split.
  { intros s s' w' <- Hg Hk. rewrite (key_delete_deletes s Hg) in Hk.
    apply delete_selected_world in Hk as [ts' Hk]. congruence. }
  split; [intros t Hin; by apply Hts|].
  split; [done|].
  change (on_disk (World (Some sorted) (uuid_src w1) (uuid_next w1))) with sorted.
  split.
  - intros (t & Hin & Hh). rewrite Hp in Hin.
    apply elem_of_app in Hin as [Hin | Hin]; [eauto|].
    apply elem_of_List_filter in Hin as [[_ Hn]%Hts _]. congruence.
  - intros (t & Hin & Hh). exists t. split; [|done].
    rewrite Hp. apply elem_of_app. by left.
Qed.

Lemma C3_delete_then_merge_witness :
  let i := mk_todo "i" "Work: Apple" false in
  let j := mk_todo "j" "Solo" false in
  exists ts w1 w2,
    delete_from_file (VStr "i") (w0 (Some [i; j])) = Ok (ts, w1) /\
    (forall s s' w', selected_id s = VStr "i" -> deletes s ->
       key_delete s (w0 (Some [i; j])) = Ok (s', w') -> w' = w1) /\
    (forall t, t ∈ on_disk w1 -> has_id (VStr "i") t = false) /\
    save_todos [i; j] w1 = Ok ((), w2) /\
    ((exists t, t ∈ on_disk w2 /\ has_id (VStr "i") t = true) <->
     (exists t, t ∈ [i; j] /\ has_id (VStr "i") t = true)).
Proof.
  cbv zeta. apply C3_delete_then_merge.
  - repeat constructor.
  - repeat constructor; eexists; vm_compute; reflexivity.
  - repeat constructor; eexists; vm_compute; reflexivity.
Defined.

(** ** The group model *)

(** The group model in the words of its description: the records that are not
    hidden, the groups in the order of their first occurrence, the members of
    a group in the order of the list, and the entries of each group. *)

Section GroupModel.

Lemma eqb_false_iff (a b : string) : String.eqb a b = false <-> a <> b.
Proof. apply String.eqb_neq. Qed.

Lemma first_occurrences_elem g l : g ∈ first_occurrences l <-> g ∈ l.
Proof.
  induction l as [|h l IH]; simpl; [done|].
  rewrite !elem_of_cons, elem_of_List_filter, IH.
  destruct (String.eqb g h) eqn:E.
  - apply String.eqb_eq in E. intuition congruence.
  - apply String.eqb_neq in E. intuition congruence.
Qed.

Lemma filter_id {A} (f : A -> bool) l :
  Forall (fun x => f x = true) l -> List.filter f l = l.
Proof. induction 1 as [|x l Hx _ IH]; simpl; [done|]. by rewrite Hx, IH. Qed.

Lemma first_occurrences_snoc l g :
  first_occurrences (l ++ [g]) =
  if bool_decide (g ∈ l) then first_occurrences l else first_occurrences l ++ [g].
Proof.
  induction l as [|h l IH]; simpl; [done|].
  rewrite IH. destruct (decide (g = h)) as [->|Hne].
  - rewrite (bool_decide_eq_true_2 (h ∈ h :: l)) by left.
    case_bool_decide; [done|].
    rewrite List.filter_app. simpl. rewrite String.eqb_refl. simpl. by rewrite app_nil_r.
  - case_bool_decide as H1; case_bool_decide as H2; try done.
    + exfalso. apply H2. by right.
    + apply elem_of_cons in H2 as [?|?]; done.
    + rewrite List.filter_app. simpl.
      apply String.eqb_neq in Hne. by rewrite Hne.
Qed.

Lemma members_snoc g pre p :
  members g (pre ++ [p]) =
  members g pre ++ (if String.eqb (entry_group p) g then [p.1] else []).
Proof.
  unfold members. rewrite List.filter_app, fmap_app. simpl.
  by destruct (String.eqb (entry_group p) g).
Qed.

Lemma buckets_of_nil : buckets_of [] (Buckets ∅ []).
Proof. split; [done|]. intros g. simpl. by rewrite lookup_empty. Qed.

Lemma members_nil g pre : g ∉ map entry_group pre -> members g pre = [].
Proof.
  unfold members. induction pre as [|q pre IH]; simpl; [done|].
  intros Hn. destruct (String.eqb (entry_group q) g) eqn:E.
  - apply String.eqb_eq in E. exfalso. apply Hn. rewrite E. left.
  - apply IH. intros Hin. apply Hn. by right.
Qed.

Lemma bucket_add_spec pre b p :
  buckets_of pre b -> buckets_of (pre ++ [p]) (bucket_add (entry_group p) p.1 b).
Proof.
  intros [Ho Hg]. unfold bucket_add.
  set (g := entry_group p). rewrite (Hg g).
  unfold buckets_of. rewrite map_app. simpl. fold g.
  split.
  - rewrite first_occurrences_snoc. case_bool_decide; simpl; [done|]. by rewrite Ho.
  - intros h. rewrite members_snoc. fold g.
    assert (h ∈ map entry_group pre ++ [g] <-> h ∈ map entry_group pre \/ h = g) as Hor.
    { by rewrite elem_of_app, list_elem_of_singleton. }
    destruct (decide (g = h)) as [<-|Hne].
    + rewrite (bool_decide_eq_true_2 (g ∈ _ ++ [g])) by (apply Hor; auto).
      rewrite String.eqb_refl.
      case_bool_decide as Hin; simpl.
      * by rewrite lookup_alter_eq, Hg, bool_decide_eq_true_2.
      * rewrite lookup_alter_eq, lookup_insert_eq. simpl.
        by rewrite members_nil.
    + assert (String.eqb g h = false) as -> by by apply String.eqb_neq.
      rewrite app_nil_r.
      rewrite (bool_decide_ext (h ∈ map entry_group pre ++ [g])
                 (h ∈ map entry_group pre))
        by (rewrite Hor; intuition congruence).
      case_bool_decide as Hin; simpl.
      * rewrite lookup_alter_ne by done. apply Hg.
      * rewrite lookup_alter_ne, lookup_insert_ne by done. apply Hg.
Qed.

Lemma entry_group_task i (todo : dict) task :
  todo !! "task" = Some (VStr task) -> entry_group (i, todo) = group_of task.
Proof. intros H. unfold entry_group, task_of. simpl. by rewrite H. Qed.

Lemma bucket_loop_skip hide i todo rest b :
  shown hide (i, todo) = false ->
  bucket_loop hide ((i, todo) :: rest) b = bucket_loop hide rest b.
Proof.
  unfold shown. simpl. intros H.
  by destruct (hide && truthy (get_default todo "done" (VBool false))).
Qed.

Lemma bucket_loop_add hide i (todo : dict) rest b :
  shown hide (i, todo) = true -> has_task todo ->
  bucket_loop hide ((i, todo) :: rest) b =
  bucket_loop hide rest (bucket_add (entry_group (i, todo)) i b).
Proof.
  unfold shown. simpl. intros H [task Ht].
  destruct (hide && truthy (get_default todo "done" (VBool false))); [done|].
  rewrite (entry_group_task _ _ _ Ht). unfold getitem. rewrite Ht. simpl.
  unfold group_of, decode_task.
  destruct (extract_priority task) as [priority clean].
  destruct (contains ":" clean) eqn:Hc; [|done].
  apply contains_split in Hc as (x & y & -> & Hx).
  by rewrite split1_at.
Qed.

Lemma bucket_loop_spec hide l pre b :
  Forall (fun p : nat * dict => has_task p.2) l ->
  buckets_of pre b ->
  exists b', bucket_loop hide l b = Ok b' /\
    buckets_of (pre ++ List.filter (shown hide) l) b'.
Proof.
  intros Hl. revert pre b.
  induction Hl as [|[i todo] l Ht _ IH]; intros pre b Hb.
  - exists b. simpl. by rewrite app_nil_r.
  - cbn [List.filter]. destruct (shown hide (i, todo)) eqn:Hs.
    + rewrite bucket_loop_add by done.
      destruct (IH (pre ++ [(i, todo)]) _ (bucket_add_spec _ _ (i, todo) Hb))
        as (b' & Hb' & Hinv).
      exists b'. split; [done|]. by rewrite <- app_assoc in Hinv.
    + rewrite bucket_loop_skip by done. by apply IH.
Qed.

Lemma emit_loop_spec gs collapsed vis order :
  (forall g, g ∈ order -> gs !! g = Some (members g vis)) ->
  emit_loop gs collapsed order =
  Ok (concat (map (entries_of_group collapsed vis) order)).
Proof.
  induction order as [|g order IH]; intros Hg; simpl; [done|].
  rewrite IH by (intros h Hh; apply Hg; by right).
  unfold getgroup, entries_of_group. rewrite (Hg g) by left.
  destruct (String.eqb g "__ungrouped__"); simpl; [done|].
  by destruct (bool_decide (g ∈ collapsed)).
Qed.

Lemma Forall_zip_snd {A B} (P : B -> Prop) (ks : list A) (l : list B) :
  Forall P l -> Forall (fun p : A * B => P p.2) (zip ks l).
Proof.
  intros H. revert ks. induction H as [|x l Hx _ IH]; intros [|k ks]; simpl;
    constructor; auto.
Qed.

End GroupModel.

Lemma build_selectable_items_refines (todos : list dict) (collapsed : gset string)
    (hide_completed : bool) :
  Forall has_task todos ->
  build_selectable_items todos collapsed hide_completed =
  Ok (selectable_entries todos collapsed hide_completed).
Proof.
  intros Ht. unfold build_selectable_items, selectable_entries.
  destruct (bucket_loop_spec hide_completed (enumerate todos) [] (Buckets ∅ []))
    as (b & -> & Ho & Hg); [by apply Forall_zip_snd | apply buckets_of_nil |].
  change ([] ++ List.filter (shown hide_completed) (enumerate todos))
    with (visible hide_completed todos) in Ho, Hg.
  cbv zeta. simpl. rewrite Ho. apply emit_loop_spec.
  intros g Hin. rewrite first_occurrences_elem in Hin.
  rewrite Hg. by rewrite bool_decide_eq_true_2.
Qed.




(** ** The arrow keys *)

Section ArrowKeys.

#[local] Arguments py_eq : simpl never.

Lemma index_lookup {A} (l : list A) i :
  index l i = match l !! i with Some x => Ok x | None => Raise IndexError end.
Proof.
  unfold index. revert i; induction l as [|x l IH]; intros [|i]; simpl; auto.
Qed.

Lemma elem_of_enumerate {A} (l : list A) i x k :
  (i, x) ∈ zip (seq k (length l)) l -> k <= i < k + length l.
Proof.
  revert k; induction l as [|y l IH]; intros k; simpl; [by inversion 1|].
  intros [[= -> ->]|Hin]%elem_of_cons; [lia|].
  apply IH in Hin. lia.
Qed.

Lemma elem_of_concat {A} (x : A) (ls : list (list A)) :
  x ∈ concat ls <-> exists l, l ∈ ls /\ x ∈ l.
Proof.
  rewrite list_elem_of_In, in_concat.
  split; intros (l & H1 & H2); exists l; by rewrite ?list_elem_of_In in *.
Qed.

Lemma selectable_entries_valid todos collapsed hide v :
  ETodo v ∈ selectable_entries todos collapsed hide -> v < length todos.
Proof.
  unfold selectable_entries. cbv zeta.
  intros (es & Hes & Hin)%elem_of_concat.
  apply list_elem_of_fmap in Hes as (g & -> & _).
  assert (ETodo v ∈ map ETodo (members g (visible hide todos))) as Hm.
  { unfold entries_of_group in Hin.
    destruct (String.eqb g "__ungrouped__"); [done|].
    destruct (bool_decide (g ∈ collapsed)); [|done].
    by apply list_elem_of_singleton in Hin. }
  apply list_elem_of_fmap in Hm as (v' & [= <-] & Hv).
  unfold members in Hv. apply list_elem_of_fmap in Hv as ([i t] & -> & Hp).
  apply elem_of_List_filter in Hp as [Hp _].
  apply elem_of_List_filter in Hp as [Hp _].
  apply elem_of_enumerate in Hp. simpl. lia.
Qed.

Lemma find_current_pos_spec s k sel :
  Forall (valid_entry (todos s)) sel ->
  find_current_pos s k sel =
  Ok (match find_index (matches s) sel with
      | Some i => (k + Z.of_nat i)%Z
      | None => (-1)%Z
      end).
Proof.
  intros Hv. revert k. induction Hv as [|e sel He _ IH]; intros k; simpl; [done|].
  destruct e as [v|g]; simpl in *.
  - destruct (lookup_lt_is_Some_2 _ _ He) as [t Ht].
    rewrite index_lookup, Ht. simpl.
    case_decide as Hk.
    + rewrite <- Hk, bool_decide_eq_true_2 by done. simpl.
      destruct (py_eq _ _); simpl; [f_equal; lia|].
      rewrite IH. destruct (find_index _ sel); simpl; f_equal; lia.
    + rewrite bool_decide_eq_false_2 by done. simpl.
      rewrite IH. destruct (find_index _ sel); simpl; f_equal; lia.
  - case_decide as Hk.
    + rewrite <- Hk, bool_decide_eq_true_2 by done. simpl.
      destruct (py_eq _ _); simpl; [f_equal; lia|].
      rewrite IH. destruct (find_index _ sel); simpl; f_equal; lia.
    + rewrite bool_decide_eq_false_2 by done. simpl.
      rewrite IH. destruct (find_index _ sel); simpl; f_equal; lia.
Qed.

Lemma find_index_lt {A} (p : A -> bool) l i : find_index p l = Some i -> i < length l.
Proof.
  revert i; induction l as [|x l IH]; intros i; simpl; [done|].
  destruct (p x); [intros [= <-]; lia|].
  destruct (find_index p l) as [j|]; simpl; [|done].
  intros [= <-]. specialize (IH j eq_refl). lia.
Qed.

Lemma find_index_Some {A} (p : A -> bool) l i :
  find_index p l = Some i ->
  (exists x, l !! i = Some x /\ p x = true) /\
  forall j x, j < i -> l !! j = Some x -> p x = false.
Proof.
  revert i; induction l as [|y l IH]; intros i; simpl; [done|].
  destruct (p y) eqn:Hy.
  - intros [= <-]. split; [eauto|]. intros; lia.
  - destruct (find_index p l) as [k|]; simpl; [|done].
    intros [= <-]. destruct (IH k eq_refl) as [Hx Hlt]. split; [done|].
    intros [|j] x Hj; simpl; [congruence|]. apply Hlt. lia.
Qed.

Lemma find_index_None {A} (p : A -> bool) l :
  find_index p l = None <-> forall x, x ∈ l -> p x = false.
Proof.
  induction l as [|y l IH]; simpl.
  - split; [intros _ x Hx; by inversion Hx | done].
  - destruct (p y) eqn:Hy.
    + split; [done|]. intros H. rewrite H in Hy by left. done.
    + destruct (find_index p l); simpl.
      * split; [done|]. intros H. destruct IH as [_ IH].
        discriminate IH. intros x Hx. apply H. by right.
      * split; [|done]. intros _ x [->|Hx]%elem_of_cons; [done|].
        by apply IH.
Qed.

Lemma select_entry_spec s e :
  Forall with_id (todos s) -> valid_entry (todos s) e ->
  exists s1, select_entry s e = Ok s1 /\ focus_on (todos s) s1 e /\
    todos s1 = todos s /\ input_text s1 = input_text s /\
    cursor_pos s1 = cursor_pos s /\ collapsed_groups s1 = collapsed_groups s /\
    hide_completed s1 = hide_completed s /\ just_saved s1 = just_saved s.
Proof.
  intros Hid He. destruct e as [v|g]; simpl in *.
  - destruct (lookup_lt_is_Some_2 _ _ He) as [t Ht].
    rewrite index_lookup, Ht. simpl.
    assert (with_id t) as [sid Hsid]%has_key_true.
    { rewrite Forall_forall in Hid. apply Hid. by eapply list_elem_of_lookup_2. }
    unfold getitem. rewrite Hsid. simpl. eexists. split; [done|].
    simpl. repeat split; eauto.
  - eexists. split; [done|]. simpl. repeat split.
Qed.

Lemma build_valid (ts : list dict) collapsed hide sel :
  Forall has_task ts ->
  build_selectable_items ts collapsed hide = Ok sel ->
  Forall (valid_entry ts) sel.
Proof.
  intros Ht Hb. rewrite build_selectable_items_refines in Hb by done.
  injection Hb as <-. apply Forall_forall. intros [v|g] Hin; simpl; [|done].
  by eapply selectable_entries_valid.
Qed.

Lemma build_nil collapsed hide : build_selectable_items [] collapsed hide = Ok [].
Proof. reflexivity. Qed.

Lemma key_up_eq s sel :
  Forall has_task (todos s) ->
  build_selectable_items (todos s) (collapsed_groups s) (hide_completed s) = Ok sel ->
  sel <> [] ->
  key_up s =
  match find_index (matches s) sel with
  | Some (S j) => e ← index sel j; s1 ← select_entry s e; Ok (leave s1)
  | _ => Ok (leave s)
  end.
Proof.
  intros Ht Hb Hne. unfold key_up.
  destruct (todos s) as [|t ts] eqn:Hts.
  { rewrite build_nil in Hb. congruence. }
  rewrite <- Hts in *. cbn [truthy_list]. rewrite Hts at 1. cbn [truthy_list].
  rewrite Hb. cbn [mbind res_bind].
  destruct sel as [|e0 sel0] eqn:Hsel; [done|]. cbn [truthy_list].
  rewrite <- Hsel in *.
  rewrite find_current_pos_spec by by eapply build_valid.
  cbn [mbind res_bind].
  destruct (find_index (matches s) sel) as [[|j]|]; try done.
  replace (0 <? 0 + Z.of_nat (S j))%Z with true by (symmetry; apply Z.ltb_lt; lia).
  replace (Z.to_nat (0 + Z.of_nat (S j) - 1)) with j by lia.
  destruct (index sel j); [|done]. cbn [mbind res_bind].
  by destruct (select_entry s a).
Qed.

Lemma key_down_eq s sel :
  Forall has_task (todos s) ->
  build_selectable_items (todos s) (collapsed_groups s) (hide_completed s) = Ok sel ->
  sel <> [] ->
  key_down s =
  let next := match find_index (matches s) sel with Some i => S i | None => 0 end in
  if bool_decide (next < length sel) then
    e ← index sel next; s1 ← select_entry s e; Ok (leave s1)
  else Ok (leave s).
Proof.
  intros Ht Hb Hne. unfold key_down.
  destruct (todos s) as [|t ts] eqn:Hts.
  { rewrite build_nil in Hb. congruence. }
  rewrite <- Hts in *. cbn [truthy_list]. rewrite Hts at 1. cbn [truthy_list].
  rewrite Hb. cbn [mbind res_bind].
  destruct sel as [|e0 sel0] eqn:Hsel; [done|]. cbn [truthy_list].
  rewrite <- Hsel in *.
  rewrite find_current_pos_spec by by eapply build_valid.
  cbn [mbind res_bind]. cbv zeta. unfold len.
  set (next := match find_index (matches s) sel with Some i => S i | None => 0 end).
  set (pos := match find_index (matches s) sel with
              | Some i => (0 + Z.of_nat i)%Z | None => (-1)%Z end).
  assert (pos = (Z.of_nat next - 1)%Z) as Hpos.
  { unfold pos, next. destruct (find_index (matches s) sel); lia. }
  replace (Z.to_nat (pos + 1)) with next by lia.
  case_bool_decide as Hlt.
  - replace (pos <? Z.of_nat (length sel) - 1)%Z with true
      by (symmetry; apply Z.ltb_lt; lia).
    destruct (index sel next); [|done]. cbn [mbind res_bind].
    by destruct (select_entry s a).
  - replace (pos <? Z.of_nat (length sel) - 1)%Z with false
      by (symmetry; apply Z.ltb_ge; lia).
    done.
Qed.

End ArrowKeys.

Lemma step_to_entry s sel j :
  Forall with_id (todos s) -> Forall (valid_entry (todos s)) sel ->
  j < length sel ->
  exists e s1, sel !! j = Some e /\ select_entry s e = Ok s1 /\
    focus_on (todos s) s1 e /\
    (e ← index sel j; s1 ← select_entry s e; Ok (leave s1)) = Ok (leave s1).
Proof.
  intros Hid Hv Hj.
  destruct (lookup_lt_is_Some_2 _ _ Hj) as [e He].
  assert (valid_entry (todos s) e) as Hve.
  { rewrite Forall_forall in Hv. apply Hv. by eapply list_elem_of_lookup_2. }
  destruct (select_entry_spec s e Hid Hve) as (s1 & Hs1 & Hf & _).
  exists e, s1. repeat split; try done.
  rewrite index_lookup, He. cbn [mbind res_bind]. by rewrite Hs1.
Qed.

(** C10: on a session whose selectable sequence [sel] is not empty, when no
    entry of [sel] is the selection the Down key moves the selection to the
    first entry of [sel] and the Up key leaves the selection as it is; when
    the selection is found, at its first position [i], the Up key moves it to
    the entry at [i - 1] and the Down key to the entry at [i + 1], and at the
    first entry the Up key, at the last entry the Down key leave it where it
    is.  Both keys leave the input field. *)
Theorem C10_arrow_keys (s : session) (sel : list entry) :
  Forall with_id (todos s) ->
  Forall has_task (todos s) ->
  build_selectable_items (todos s) (collapsed_groups s) (hide_completed s) = Ok sel ->
  sel <> [] ->
  ((forall e, e ∈ sel -> matches s e = false) ->
     key_up s = Ok (leave s) /\
     exists e s1, sel !! 0 = Some e /\ select_entry s e = Ok s1 /\
       focus_on (todos s) s1 e /\ key_down s = Ok (leave s1)) /\
  (forall i, find_index (matches s) sel = Some i ->
     (exists e, sel !! i = Some e /\ matches s e = true) /\
     (i = 0 -> key_up s = Ok (leave s)) /\
     (0 < i ->
        exists e s1, sel !! (i - 1) = Some e /\ select_entry s e = Ok s1 /\
          focus_on (todos s) s1 e /\ key_up s = Ok (leave s1)) /\
     (i + 1 = length sel -> key_down s = Ok (leave s)) /\
     (i + 1 < length sel ->
        exists e s1, sel !! (i + 1) = Some e /\ select_entry s e = Ok s1 /\
          focus_on (todos s) s1 e /\ key_down s = Ok (leave s1))).
Proof.
  intros Hid Ht Hb Hne.
  pose proof (build_valid _ _ _ _ Ht Hb) as Hv.
  pose proof (key_up_eq s sel Ht Hb Hne) as Hup.
  pose proof (key_down_eq s sel Ht Hb Hne) as Hdown. cbv zeta in Hdown.
  assert (0 < length sel) as Hlen by (destruct sel; [done | simpl; lia]).
  split.
  - intros Hnone%find_index_None. rewrite Hnone in Hup, Hdown.
    split; [done|].
    rewrite bool_decide_eq_true_2 in Hdown by done.
    destruct (step_to_entry s sel 0 Hid Hv Hlen) as (e & s1 & He & Hs1 & Hf & Hstep).
    exists e, s1. repeat split; try done. by rewrite Hdown.
  - intros i Hi. rewrite Hi in Hup, Hdown.
    pose proof (find_index_lt _ _ _ Hi) as Hilt.
    split; [by apply find_index_Some in Hi as [? _]|].
    split; [by intros ->|].
    split.
    { intros Hpos. destruct i as [|j]; [lia|].
      replace (S j - 1) with j by lia.
      destruct (step_to_entry s sel j Hid Hv ltac:(lia))
        as (e & s1 & He & Hs1 & Hf & Hstep).
      exists e, s1. repeat split; try done. by rewrite Hup. }
    split.
    { intros Hlast. by rewrite bool_decide_eq_false_2 in Hdown by lia. }
    intros Hnext. rewrite bool_decide_eq_true_2 in Hdown by lia.
    replace (i + 1) with (S i) by lia.
    destruct (step_to_entry s sel (S i) Hid Hv ltac:(lia))
      as (e & s1 & He & Hs1 & Hf & Hstep).
    exists e, s1. repeat split; try done. by rewrite Hdown.
Qed.

Lemma arrow_keys_example_build :
  build_selectable_items
    [mk_todo "a" "Work: x" false; mk_todo "b" "Solo" false] ∅ false
  = Ok [ETodo 0; ETodo 1].
Proof. vm_compute. reflexivity. Qed.

Lemma C10_arrow_keys_witness :
  let s := Session [mk_todo "a" "Work: x" false; mk_todo "b" "Solo" false]
             false 0 (VStr "gone") KTodo VNone "" 0 false VNone ∅ false in
  let sel := [ETodo 0; ETodo 1] in
  (forall e, e ∈ sel -> matches s e = false) /\
  ((forall e, e ∈ sel -> matches s e = false) ->
     key_up s = Ok (leave s) /\
     exists e s1, sel !! 0 = Some e /\ select_entry s e = Ok s1 /\
       focus_on (todos s) s1 e /\ key_down s = Ok (leave s1)) /\
  (forall i, find_index (matches s) sel = Some i ->
     (exists e, sel !! i = Some e /\ matches s e = true) /\
     (i = 0 -> key_up s = Ok (leave s)) /\
     (0 < i ->
        exists e s1, sel !! (i - 1) = Some e /\ select_entry s e = Ok s1 /\
          focus_on (todos s) s1 e /\ key_up s = Ok (leave s1)) /\
     (i + 1 = length sel -> key_down s = Ok (leave s)) /\
     (i + 1 < length sel ->
        exists e s1, sel !! (i + 1) = Some e /\ select_entry s e = Ok s1 /\
          focus_on (todos s) s1 e /\ key_down s = Ok (leave s1))).
Proof.
  cbv zeta. split.
  - intros e [->|[->|[]%elem_of_nil]%elem_of_cons]%elem_of_cons; reflexivity.
  - apply C10_arrow_keys.
    + repeat constructor.
    + repeat constructor; eexists; vm_compute; reflexivity.
    + exact arrow_keys_example_build.
    + discriminate.
Defined.

(** ** The reload after a change by another session *)

Lemma load_todos_with_id w ts w' : load_todos w = Ok (ts, w') -> Forall with_id ts.
Proof.
  intros Hl. destruct (load_todos_spec w) as (l & w1 & Hl' & _ & _ & Hb).
  rewrite Hl in Hl'. injection Hl' as <- <-.
  clear Hl. induction Hb as [|d c ds cs Hdc _ IH]; constructor.
  - by eapply backfilled_with_id.
  - exact IH.
Qed.

Lemma reload_example :
  reload_external
    (Session [mk_todo "a" "Work: x" false; mk_todo "gone" "Work: y" false;
              mk_todo "b" "Solo" false]
       false 1 (VStr "gone") KTodo VNone "" 0 false VNone ∅ false)
    (w0 (Some [mk_todo "a" "Work: x" false; mk_todo "b" "Solo" false]))
  = Ok (Session [mk_todo "a" "Work: x" false; mk_todo "b" "Solo" false]
          false 1 (VStr "gone") KTodo VNone "" 0 false VNone ∅ false,
        w0 (Some [mk_todo "a" "Work: x" false; mk_todo "b" "Solo" false])).
Proof. vm_compute. reflexivity. Qed.

(** C5, as stated, fails: the record [gone] is selected and another session
    deletes it; after the reload the selectable sequence is not empty and the
    selected id is none of its entries, yet the selection is not moved to the
    first entry: the selected id is still the id of the deleted record. *)
Lemma C5_stale_selection_not_moved :
  let a := mk_todo "a" "Work: x" false in
  let b := mk_todo "b" "Solo" false in
  let s := Session [a; mk_todo "gone" "Work: y" false; b]
             false 1 (VStr "gone") KTodo VNone "" 0 false VNone ∅ false in
  exists s' w' sel,
    reload_external s (w0 (Some [a; b])) = Ok (s', w') /\
    build_selectable_items (todos s') (collapsed_groups s') (hide_completed s')
      = Ok sel /\
    (forall e, e ∈ sel -> matches s' e = false) /\
    sel !! 0 = Some (ETodo 0) /\
    ~ focus_on (todos s') s' (ETodo 0) /\
    selected_id s' = VStr "gone".
Proof.
  cbv zeta. eexists _, _, _.
  split; [exact reload_example|].
  split; [exact arrow_keys_example_build|].
  split.
  { intros e [->|[->|[]%elem_of_nil]%elem_of_cons]%elem_of_cons; reflexivity. }
  split; [reflexivity|].
  split; [|reflexivity].
  intros (_ & _ & _ & t & Ht & Hid). simpl in Ht. injection Ht as <-.
  vm_compute in Hid. discriminate.
Qed.

(** C5, amended: the reload reconciles the selection with the reloaded list
    of records, by record id.  When an id is selected and a record of the
    reloaded list has it, the selection is kept and the row index becomes the
    first position of that record; when an id is selected and the reloaded
    list is empty, the selection becomes no selection; when no id is selected
    and the reloaded list is not empty, the selected id becomes the id of its
    first record, the selected type and group name staying as they are; when
    no id is selected and the list is empty nothing changes. *)
Theorem C5_reload_reconciles_by_id (s : session) (w : world) :
  exists ts w',
    load_todos w = Ok (ts, w') /\
    let s0 := set_todos s ts (just_saved s) in
    (forall i, truthy (selected_id s) = true ->
       find_index (has_id (selected_id s)) ts = Some i ->
       (exists t, ts !! i = Some t /\ has_id (selected_id s) t = true) /\
       reload_external s w =
         Ok (set_selection s0 i (selected_id s) (selected_type s) (selected_group s),
             w')) /\
    (truthy (selected_id s) = true -> ts = [] ->
       reload_external s w =
         Ok (set_selection s0 0 VNone (selected_type s) (selected_group s), w')) /\
    (forall t ts', truthy (selected_id s) = false -> ts = t :: ts' ->
       exists sid, t !! "id" = Some sid /\
         reload_external s w =
           Ok (set_selection s0 0 sid (selected_type s) (selected_group s), w')) /\
    (truthy (selected_id s) = false -> ts = [] -> reload_external s w = Ok (s0, w')).
Proof.
  destruct (load_todos_spec w) as (ts & w' & Hl & _).
  pose proof (load_todos_with_id _ _ _ Hl) as Hid.
  exists ts, w'. split; [done|]. cbv zeta.
  unfold reload_external. unfold_M. rewrite Hl. cbn [selected_id set_todos].
  split; [|split; [|split]].
  - intros i Htr Hi. rewrite Htr, Hi.
    split; [|reflexivity]. by apply find_index_Some in Hi as [? _].
  - intros Htr ->. rewrite Htr. cbn [find_index].
    destruct (len [] <=? _)%Z; reflexivity.
  - intros t ts' Htr ->. rewrite Htr.
    inversion Hid as [|? ? [sid Hsid]%has_key_true _]; subst.
    exists sid. split; [done|]. cbn. unfold getitem. rewrite Hsid. reflexivity.
  - intros Htr ->. rewrite Htr. reflexivity.
Qed.

(** ** The edit and the toggle of a record *)

Section EditToggle.

#[local] Arguments py_eq : simpl never.

Lemma startswith_before_colon a x y q :
  contains ":" q = false ->
  startswith (a +:+ String ":" x) q = startswith (a +:+ String ":" y) q.
Proof.
  revert a; induction q as [|c q IH]; intros a Hq; [done|].
  simpl in Hq. destruct (ascii_dec c ":") as [|Hc]; [done|].
  destruct a as [|c' a]; simpl.
  - by destruct (ascii_dec c ":").
  - destruct (ascii_dec c c'); [|done]. by apply IH.
Qed.

Lemma extract_priority_marked priority clean :
  (priority = 1 \/ priority = 2) ->
  extract_priority (marker priority +:+ clean) = (priority, clean).
Proof. by intros [-> | ->]. Qed.

Lemma extract_priority_cases task :
  (exists clean, task = "!! " +:+ clean /\ extract_priority task = (2, clean)) \/
  (exists clean, task = "! " +:+ clean /\ extract_priority task = (1, clean)) \/
  (startswith task "!! " = false /\ startswith task "! " = false /\
   extract_priority task = (0, task)).
Proof.
  unfold extract_priority.
  destruct (startswith task "!! ") eqn:H2.
  - left. pose proof H2 as [r ->]%startswith_spec. by exists r.
  - destruct (startswith task "! ") eqn:H1.
    + right. left. pose proof H1 as [r ->]%startswith_spec. by exists r.
    + right. right. done.
Qed.

(** The new task that [edit_task] writes: the marker and the group prefix of
    the old task, then the trimmed text. *)
Lemma edit_task_eq text (todo : dict) task priority clean :
  todo !! "task" = Some (VStr task) ->
  extract_priority task = (priority, clean) ->
  edit_task text todo =
  Ok (<["task" := VStr (marker priority +:+
        (if contains ":" clean
         then default "" (head (split1 ":" clean)) +:+ ": " else "")
        +:+ strip text)]> todo).
Proof.
  intros Ht He. unfold edit_task, getitem. rewrite Ht. cbn [mbind res_bind as_str].
  destruct (extract_priority_cases task) as
    [(c & -> & E) | [(c & -> & E) | (H2 & H1 & E)]];
    rewrite E in He; injection He as <- <-.
  - cbn [marker]. rewrite startswith_app.
    change (truthy_str "!! ") with true. cbv iota.
    rewrite (slice_from_app "!! " c).
    destruct (contains ":" c) eqn:Hc; [|done].
    apply contains_split in Hc as (a & b & -> & Ha).
    by rewrite split1_at.
  - cbn [marker].
    change (startswith ("! " +:+ c) "!! ") with false.
    rewrite startswith_app. cbv iota.
    change (truthy_str "! ") with true. cbv iota.
    rewrite (slice_from_app "! " c).
    destruct (contains ":" c) eqn:Hc; [|done].
    apply contains_split in Hc as (a & b & -> & Ha).
    by rewrite split1_at.
  - cbn [marker]. rewrite H2, H1.
    change (truthy_str "") with false. cbv iota.
    destruct (contains ":" task) eqn:Hc; [|done].
    apply contains_split in Hc as (a & b & -> & Ha).
    by rewrite split1_at.
Qed.

Lemma decode_edited_grouped task priority group text0 text a b :
  extract_priority task = (priority, a +:+ String ":" b) ->
  contains ":" a = false ->
  decode_task task = Ok (priority, group, text0) ->
  decode_task (marker priority +:+ (a +:+ ": ") +:+ strip text)
  = Ok (priority, group, strip text).
Proof.
  intros He Ha Hd.
  rewrite (decode_task_colon _ _ _ _ _ He eq_refl Ha) in Hd.
  injection Hd as <- _.
  assert (extract_priority (marker priority +:+ (a +:+ ": ") +:+ strip text)
          = (priority, a +:+ String ":" (String " " (strip text)))) as He'.
  { rewrite append_assoc. change (": " +:+ strip text) with (String ":" (String " " (strip text))).
    destruct (extract_priority_cases task) as
      [(c & -> & E) | [(c & -> & E) | (H2 & H1 & E)]];
      rewrite E in He; injection He as <- Hc.
    - by apply extract_priority_marked; right.
    - by apply extract_priority_marked; left.
    - subst task. cbn [marker]. change ("" +:+ ?x) with x.
      unfold extract_priority.
      rewrite (startswith_before_colon a _ b "!! ") by done. rewrite H2.
      rewrite (startswith_before_colon a _ b "! ") by done. by rewrite H1. }
  rewrite (decode_task_colon _ _ _ _ _ He' eq_refl Ha).
  by rewrite strip_space, strip_idem.
Qed.




Lemma edit_task_total text todo : has_task todo -> exists todo', edit_task text todo = Ok todo'.
Proof.
  intros [task Ht]. destruct (extract_priority task) as [p c] eqn:E.
  rewrite (edit_task_eq _ _ _ _ _ Ht E). by eexists.
Qed.

Lemma edit_task_frame text todo todo' :
  edit_task text todo = Ok todo' ->
  has_task todo' /\ forall k, k <> "task" -> todo' !! k = todo !! k.
Proof.
  unfold edit_task, getitem. destruct (todo !! "task") as [[| | |task]|]; try done.
  cbn [mbind res_bind as_str].
  match goal with |- context [mbind _ ?m] => destruct m as [gp|]; [|done] end.
  cbn [mbind res_bind]. intros [= <-]. split.
  - eexists. apply lookup_insert_eq.
  - intros k Hk. by rewrite lookup_insert_ne.
Qed.

Lemma toggle_done_frame todo todo' :
  toggle_done todo = Ok todo' ->
  (exists d, todo !! "done" = Some d /\
             todo' = <["done" := VBool (negb (truthy d))]> todo) /\
  forall k, k <> "done" -> todo' !! k = todo !! k.
Proof.
  unfold toggle_done, getitem. destruct (todo !! "done") as [d|] eqn:Hd; [|done].
  cbn [mbind res_bind]. intros [= <-]. split; [by exists d|].
  intros k Hk. by rewrite lookup_insert_ne.
Qed.

End EditToggle.

Section Handlers.

#[local] Arguments py_eq : simpl never.

Lemma py_eq_refl v : py_eq v v = true.
Proof.
  destruct v as [|b|z|x]; unfold py_eq; [done|by destruct b|apply Z.eqb_refl|
    apply String.eqb_refl].
Qed.

Lemma py_in_own (l : list dict) x :
  x ∈ l -> with_id x -> py_in (get x "id") (our_ids_of l) = true.
Proof.
  intros Hin [v Hv]%has_key_true. unfold py_in, our_ids_of, get. rewrite Hv. simpl.
  apply existsb_exists. exists v. split; [|apply py_eq_refl].
  apply list_elem_of_In, list_elem_of_omap. eauto.
Qed.

(** The list after a loop that changes the first record with [p] to what
    [f] makes of it. *)
Lemma update_first_spec p f l l' :
  update_first p f l = Ok l' ->
  (find_index p l = None /\ l' = l) \/
  (exists i x x', find_index p l = Some i /\ l !! i = Some x /\
     f x = Ok x' /\ l' = <[i := x']> l).
Proof.
  revert l'; induction l as [|y l IH]; intros l'; simpl.
  - intros [= <-]. by left.
  - destruct (p y) eqn:Hy.
    + destruct (f y) as [y'|] eqn:Hf; [|done]. cbn [mbind res_bind].
      intros [= <-]. right. by exists 0, y, y'.
    + destruct (update_first p f l) as [l''|]; [|done]. cbn [mbind res_bind].
      intros [= <-]. destruct (IH l'' eq_refl) as [[-> ->] | (i & x & x' & -> & Hi & Hf & ->)].
      * by left.
      * right. by exists (S i), x, x'.
Qed.

Lemma update_first_total p f l :
  Forall (fun x => exists x', f x = Ok x') l -> exists l', update_first p f l = Ok l'.
Proof.
  induction 1 as [|y l [y' Hy] _ [l' IH]]; simpl; [by eexists|].
  destruct (p y).
  - rewrite Hy. by eexists.
  - rewrite IH. by eexists.
Qed.

Lemma update_first_Forall (P : dict -> Prop) p f l l' :
  (forall x x', P x -> f x = Ok x' -> P x') ->
  update_first p f l = Ok l' -> Forall P l -> Forall P l'.
Proof.
  intros Hf Hu Hl. apply update_first_spec in Hu
    as [[_ ->] | (i & x & x' & _ & Hi & Hfx & ->)]; [done|].
  apply Forall_insert; [done|]. eapply Hf; [|done].
  rewrite Forall_forall in Hl. apply Hl. by eapply list_elem_of_lookup_2.
Qed.

Lemma our_ids_cons (y : dict) l :
  our_ids_of (y :: l) =
  match y !! "id" with Some v => v :: our_ids_of l | None => our_ids_of l end.
Proof. reflexivity. Qed.

Lemma update_first_ids p f l l' :
  (forall x x', f x = Ok x' -> x' !! "id" = x !! "id") ->
  update_first p f l = Ok l' -> our_ids_of l' = our_ids_of l.
Proof.
  intros Hf. revert l'; induction l as [|y l IH]; intros l'; simpl.
  - by intros [= <-].
  - destruct (p y).
    + destruct (f y) as [y'|] eqn:Hy; [|done]. cbn [mbind res_bind].
      intros [= <-]. by rewrite !our_ids_cons, (Hf _ _ Hy).
    + destruct (update_first p f l) as [l''|]; [|done]. cbn [mbind res_bind].
      intros [= <-]. by rewrite !our_ids_cons, (IH l'' eq_refl).
Qed.

Lemma with_id_same (x x' : dict) : x' !! "id" = x !! "id" -> with_id x -> with_id x'.
Proof. unfold with_id. rewrite !has_key_true. by intros ->. Qed.

(** A save of the records of the file, one of them changed by [f], and the
    load after it. *)
Lemma save_changed p f w ts :
  (forall x x', f x = Ok x' -> x' !! "id" = x !! "id") ->
  (forall x x', has_task x -> f x = Ok x' -> has_task x') ->
  Forall with_id (on_disk w) -> Forall has_task (on_disk w) ->
  update_first p f (on_disk w) = Ok ts ->
  exists written,
    let w1 := World (Some written) (uuid_src w) (uuid_next w) in
    save_todos ts w = Ok ((), w1) /\ load_todos w1 = Ok (written, w1) /\
    Permutation written ts /\ Forall with_id written /\ Forall has_task written.
Proof.
  intros Hid Htask Hwid Hwt Hu.
  assert (Forall with_id ts) as Hts1.
  { eapply update_first_Forall; [|done..]. intros x x' ? ?%Hid. by eapply with_id_same. }
  assert (Forall has_task ts) as Hts2 by by eapply update_first_Forall.
  destruct (save_load_own ts w Hts1 Hts2 Hwid) as (written & Hs & Hl & Hp & _).
  { rewrite (update_first_ids _ _ _ _ Hid Hu).
    apply Forall_forall. intros x Hx. apply py_in_own; [done|].
    rewrite Forall_forall in Hwid. by apply Hwid. }
  exists written. cbv zeta. repeat split; try done; by rewrite Hp.
Qed.

Lemma edit_task_id text x x' : edit_task text x = Ok x' -> x' !! "id" = x !! "id".
Proof. intros [_ H]%edit_task_frame. by apply H. Qed.

Lemma toggle_done_id x x' : toggle_done x = Ok x' -> x' !! "id" = x !! "id".
Proof. intros [_ H]%toggle_done_frame. by apply H. Qed.

Lemma toggle_done_task x x' : has_task x -> toggle_done x = Ok x' -> has_task x'.
Proof. intros [t Ht] [_ H]%toggle_done_frame. exists t. by rewrite H. Qed.

Lemma toggle_loop_update sid l :
  Forall has_done l ->
  exists l' b, update_first (has_id sid) toggle_done l = Ok l' /\
    toggle_loop sid l = Ok (l', b).
Proof.
  induction 1 as [|y l [d Hd] _ (l' & b & Hu & Ht)]; simpl; [by eexists _, _|].
  destruct (has_id sid y).
  - unfold toggle_done, getitem. rewrite Hd. cbn [mbind res_bind].
    rewrite lookup_insert_eq. cbn [mbind res_bind]. by eexists _, _.
  - rewrite Hu, Ht. cbn [mbind res_bind]. by eexists _, _.
Qed.

Lemma reselect_todos s sid ts : todos (reselect s sid ts) = todos s.
Proof. unfold reselect. by destruct (find_index _ _). Qed.

Lemma key_enter_edit s w :
  Forall with_id (on_disk w) -> Forall has_task (on_disk w) ->
  truthy_str (strip (input_text s)) = true -> truthy (editing_id s) = true ->
  exists ts written s',
    update_first (has_id (editing_id s)) (edit_task (input_text s)) (on_disk w) = Ok ts /\
    key_enter s w = Ok (s', World (Some written) (uuid_src w) (uuid_next w)) /\
    Permutation written ts /\ todos s' = written.
Proof.
  intros Hwid Hwt Htext Hed.
  destruct (update_first_total (has_id (editing_id s)) (edit_task (input_text s))
              (on_disk w)) as [ts Hu].
  { eapply Forall_impl; [exact Hwt|]. intros x. apply edit_task_total. }
  destruct (save_changed (has_id (editing_id s)) (edit_task (input_text s)) w ts)
    as (written & Hs & Hl & Hp & _); try done.
  { apply edit_task_id. }
  { intros x x' _ [? _]%edit_task_frame. done. }
  cbv zeta in Hs, Hl.
  exists ts, written. eexists. split; [done|]. split; [|split; [done|]].
  - unfold key_enter. rewrite Htext, Hed. cbn [andb].
    unfold save_edit. unfold_M. rewrite (load_todos_id w Hwid), Hu, Hs, Hl.
    reflexivity.
  - cbn. by rewrite reselect_todos.
Qed.

Lemma select_first s w :
  Forall with_id (todos s) -> Forall has_task (todos s) ->
  exists s',
    (selectable ← lift (build_selectable_items (todos s) (collapsed_groups s)
                          (hide_completed s));
     match selectable with
     | e :: _ => lift (select_entry s e)
     | [] => mret s
     end) w = Ok (s', w) /\ todos s' = todos s.
Proof.
  intros Hid Ht.
  pose proof (build_selectable_items_refines (todos s) (collapsed_groups s)
                (hide_completed s) Ht) as Hb.
  pose proof (build_valid _ _ _ _ Ht Hb) as Hv.
  unfold_M. rewrite Hb.
  destruct (selectable_entries _ _ _) as [|e sel]; [by eexists|].
  inversion Hv as [|? ? He _]; subst.
  destruct (select_entry_spec s e Hid He) as (s1 & -> & _ & Hts & _).
  by exists s1.
Qed.

Lemma key_enter_toggles s : toggles s -> key_enter s = toggle_selected s.
Proof.
  intros (Ht & Hn & Hm & Hk & Hs). unfold key_enter.
  rewrite Ht, Hm, Hk, Hs. cbn [andb negb].
  rewrite bool_decide_eq_true_2 by done. by destruct (todos s).
Qed.

Lemma key_enter_toggle s w :
  Forall with_id (on_disk w) -> Forall has_task (on_disk w) ->
  Forall has_done (on_disk w) -> toggles s ->
  exists ts written s',
    update_first (has_id (selected_id s)) toggle_done (on_disk w) = Ok ts /\
    key_enter s w = Ok (s', World (Some written) (uuid_src w) (uuid_next w)) /\
    Permutation written ts /\ todos s' = written.
Proof.
  intros Hwid Hwt Hwd Hg.
  destruct (toggle_loop_update (selected_id s) (on_disk w) Hwd) as (ts & b & Hu & Hloop).
  destruct (save_changed (has_id (selected_id s)) toggle_done w ts)
    as (written & Hs & Hl & Hp & Hid & Htask); try done.
  { apply toggle_done_id. }
  { apply toggle_done_task. }
  cbv zeta in Hs, Hl.
  set (w1 := World (Some written) (uuid_src w) (uuid_next w)) in *.
  set (s1 := set_todos s written true).
  set (s2 := match find_index (has_id (selected_id s1)) written with
             | Some i => set_selection s1 i (selected_id s1) KTodo (selected_group s1)
             | None => s1
             end).
  assert (todos s2 = written) as Hts2.
  { unfold s2. by destruct (find_index _ _). }
  assert (exists s', toggle_selected s w = Ok (s', w1) /\ todos s' = written)
    as (s' & Hs' & Hts').
  { unfold toggle_selected. unfold mbind at 1 2 3 4, M_bind at 1 2 3 4.
    rewrite (load_todos_id w Hwid). unfold lift at 1. rewrite Hloop.
    cbn [fst snd]. rewrite Hs, Hl. fold s1. fold s2.
    destruct (b && hide_completed s2).
    - destruct (select_first s2 w1) as (s' & Hsel & Ht'); try by rewrite Hts2.
      rewrite Hts2 in Hsel. exists s'. split; [exact Hsel|congruence].
    - exists s2. split; [reflexivity|done]. }
  exists ts, written, s'. rewrite (key_enter_toggles s Hg). done.
Qed.

End Handlers.





(** ** The Enter key on a blank text *)

(** C8: when the text typed is empty once trimmed, the Enter key neither
    saves an edit nor creates a record: it is the toggle of the selected
    record when the session is not typing and a record is selected, and
    nothing otherwise; a session that is typing, which is one that submits
    its text, is left exactly as it was, and so is the file. *)
Theorem C8_blank_text_rejected (s : session) (w : world) :
  strip (input_text s) = "" ->
  (input_mode s = true -> key_enter s w = Ok (s, w)) /\
  (toggles s -> key_enter s w = toggle_selected s w) /\
  (~ toggles s -> key_enter s w = Ok (s, w)).
Proof.
  intros Hblank.
  assert (truthy_str (strip (input_text s)) = false) as Ht by by rewrite Hblank.
  split; [|split].
  - intros Hm. unfold key_enter. rewrite Ht, Hm. cbn [andb negb].
    by rewrite andb_false_r.
  - intros Hg. by rewrite key_enter_toggles.
  - intros Hn. unfold key_enter. rewrite Ht. cbn [andb].
    destruct (truthy_list (todos s) && negb (input_mode s)
              && bool_decide (selected_type s = KTodo) && truthy (selected_id s))
      eqn:E; [|done].
    exfalso. apply Hn.
    apply andb_true_iff in E as [E Hsid].
    apply andb_true_iff in E as [E Hk%bool_decide_eq_true].
    apply andb_true_iff in E as [Hl Hm%negb_true_iff].
    repeat split; try done. intros Hnil. by rewrite Hnil in Hl.
Qed.

Lemma C8_blank_text_rejected_witness :
  let s := Session [mk_todo "a" "Buy milk" false] false 0 (VStr "a") KTodo VNone
             "   " 3 true (VStr "a") ∅ false in
  let w := w0 (Some [mk_todo "a" "Buy milk" false]) in
  (input_mode s = true -> key_enter s w = Ok (s, w)) /\
  (toggles s -> key_enter s w = toggle_selected s w) /\
  (~ toggles s -> key_enter s w = Ok (s, w)).
Proof. cbv zeta. apply C8_blank_text_rejected. reflexivity. Defined.

(** * Further properties of the program *)

(** ** Loading *)

Lemma backfill_ids_count ds w l w' :
  backfill_ids ds w = Ok (l, w') ->
  uuid_next w' =
    (uuid_next w + length (List.filter (fun d => negb (has_key d "id")) ds))%nat.
Proof.
  revert w l w'; induction ds as [|d ds IH]; intros w l w'; simpl.
  - unfold_M. intros [= <- <-]. lia.
  - unfold_M. destruct (has_key d "id") eqn:Hid; simpl.
    + destruct (backfill_ids ds w) as [[l1 w1]|] eqn:E; [|done].
      intros [= <- <-]. by apply IH in E.
    + destruct (backfill_ids ds _) as [[l1 w1]|] eqn:E; [|done].
      intros [= <- <-]. apply IH in E. rewrite E. simpl. lia.
Qed.

(** X1: what [load_todos] returns.  For the absent file it is the empty
    list.  For a file that holds a list of objects it is one record for each
    record of the file, in the same order, every one with an id: a record
    that has an id as it is, a record without one with the field [id] added
    and nothing else changed; one id is drawn for each record without one,
    and the file is left as it is. *)
Theorem load_todos_contract (w : world) :
  (file w = None -> load_todos w = Ok ([], w)) /\
  (forall ds, file w = Some ds ->
   exists l w',
     load_todos w = Ok (l, w') /\
     file w' = Some ds /\ uuid_src w' = uuid_src w /\
     length l = length ds /\
     Forall with_id l /\
     (forall i d, ds !! i = Some d -> with_id d -> l !! i = Some d) /\
     (forall i d, ds !! i = Some d -> ~ with_id d ->
        exists u c, l !! i = Some c /\ c !! "id" = Some (VStr u) /\
          forall k, k <> "id" -> c !! k = d !! k) /\
     uuid_next w' = (uuid_next w + length (legacy ds))%nat).
Proof.
  split.
  { intros Hf. unfold load_todos. by rewrite Hf. }
  intros ds Hf.
  destruct (load_todos_spec w) as (l & w' & Hl & Hf' & Hs & Hb).
  unfold on_disk in Hb. rewrite Hf in Hb. cbn [default] in Hb.
  exists l, w'. split; [done|]. split; [congruence|]. split; [done|].
  split; [symmetry; by eapply Forall2_length|].
  split; [by eapply load_todos_with_id|].
  split; [|split].
  - intros i d Hi Hd.
    destruct (Forall2_lookup_l _ _ _ _ _ Hb Hi) as (c & Hc & Hdc).
    unfold backfilled, with_id in *. rewrite Hd in Hdc. by subst.
  - intros i d Hi Hd.
    destruct (Forall2_lookup_l _ _ _ _ _ Hb Hi) as (c & Hc & Hdc).
    unfold backfilled, with_id in *.
    destruct (has_key d "id"); [done|]. destruct Hdc as [u ->].
    exists u. eexists. split; [done|]. split; [apply lookup_insert_eq|].
    intros k Hk. by rewrite lookup_insert_ne.
  - unfold load_todos in Hl. rewrite Hf in Hl.
    by apply backfill_ids_count in Hl.
Qed.

Lemma load_todos_contract_witness :
  exists l w',
    load_todos (w0 (Some [ {["task" := VStr "old"]}; mk_todo "a" "x" false ])) = Ok (l, w') /\
    length l = 2 /\ uuid_next w' = 1.
Proof.
  destruct (load_todos_contract
              (w0 (Some [ {["task" := VStr "old"]}; mk_todo "a" "x" false ])))
    as [_ H].
  destruct (H _ eq_refl) as (l & w' & H1 & _ & _ & H2 & _ & _ & _ & H3).
  exists l, w'. split; [done|]. split; [done|]. rewrite H3. vm_compute. reflexivity.
Defined.

(** ** The input field *)

Section InputField.

Implicit Types (t a b : string).

Lemma length_append a b :
  String.length (a +:+ b) = (String.length a + String.length b)%nat.
Proof. induction a; simpl; auto. Qed.

Lemma length_slice_to n t : String.length (slice_to n t) = Nat.min n (String.length t).
Proof. revert t; induction n as [|n IH]; intros [|c t]; simpl; auto. Qed.

Lemma length_slice_from n t :
  String.length (slice_from n t) = (String.length t - n)%nat.
Proof. revert t; induction n as [|n IH]; intros [|c t]; simpl; auto. Qed.

Lemma slice_to_app a b : slice_to (String.length a) (a +:+ b) = a.
Proof. induction a; simpl; [by destruct b|congruence]. Qed.

Lemma slice_to_from n t : slice_to n t +:+ slice_from n t = t.
Proof. revert t; induction n as [|n IH]; intros [|c t]; simpl; auto. by rewrite IH. Qed.

End InputField.

(** ** The invariants of the loop *)

Section Invariants.

#[local] Arguments py_eq : simpl never.

(** Case analysis on the matches of a hypothesis, innermost first. *)
Ltac split_ok H :=
  unfold mbind, res_bind, M_bind, mret, res_ret, M_ret, lift in H;
  repeat match type of H with
  | context [match ?x with _ => _ end] =>
      lazymatch x with
      | context [match _ with _ => _ end] => fail
      | _ => destruct x eqn:?; try discriminate H
      end
  end.

Lemma keeps_refl s : keeps s s.
Proof. by split. Qed.

Lemma keeps_same s s' :
  input_text s' = input_text s -> cursor_pos s' = cursor_pos s ->
  todos s' = todos s -> keeps s s'.
Proof. unfold keeps, cursor_ok. by intros -> -> ->. Qed.

Lemma keeps_loaded s s' w ts w' :
  input_text s' = input_text s -> cursor_pos s' = cursor_pos s ->
  load_todos w = Ok (ts, w') -> todos s' = ts -> keeps s s'.
Proof.
  unfold keeps, cursor_ok. intros -> -> Hl ->. split; [done|].
  intros _. by eapply load_todos_with_id.
Qed.

Lemma select_entry_same s e s' :
  select_entry s e = Ok s' ->
  input_text s' = input_text s /\ cursor_pos s' = cursor_pos s /\
  todos s' = todos s.
Proof.
  destruct e as [v|g]; simpl.
  - destruct (index (todos s) v) as [t|]; [|done]. simpl.
    destruct (getitem t "id"); [|done]. by intros [= <-].
  - by intros [= <-].
Qed.

Lemma key_up_keeps s s' : key_up s = Ok s' -> keeps s s'.
Proof.
  unfold key_up. intros H.
  destruct (truthy_list (todos s)); [|injection H as <-; by apply keeps_same].
  destruct (build_selectable_items _ _ _) as [sel|]; [|done]. cbn in H.
  destruct (truthy_list sel); [|injection H as <-; by apply keeps_same].
  destruct (find_current_pos s 0 sel) as [pos|]; [|done]. cbn in H.
  destruct (0 <? pos)%Z; [|injection H as <-; by apply keeps_same].
  destruct (index sel _) as [e|]; [|done]. cbn in H.
  destruct (select_entry s e) as [s1|] eqn:E; [|done]. cbn in H.
  injection H as <-. apply select_entry_same in E as (? & ? & ?).
  by apply keeps_same.
Qed.

Lemma key_down_keeps s s' : key_down s = Ok s' -> keeps s s'.
Proof.
  unfold key_down. intros H.
  destruct (truthy_list (todos s)); [|injection H as <-; by apply keeps_same].
  destruct (build_selectable_items _ _ _) as [sel|]; [|done]. cbn in H.
  destruct (truthy_list sel); [|injection H as <-; by apply keeps_same].
  destruct (find_current_pos s 0 sel) as [pos|]; [|done]. cbn in H.
  destruct (pos <? _)%Z; [|injection H as <-; by apply keeps_same].
  destruct (index sel _) as [e|]; [|done]. cbn in H.
  destruct (select_entry s e) as [s1|] eqn:E; [|done]. cbn in H.
  injection H as <-. apply select_entry_same in E as (? & ? & ?).
  by apply keeps_same.
Qed.

Lemma key_left_keeps s s' : key_left s = Ok s' -> keeps s s'.
Proof.
  unfold key_left. intros H. destruct (input_mode s).
  - destruct (0 <? cursor_pos s)%nat eqn:E; injection H as <-; [|apply keeps_refl].
    split; [|done]. unfold cursor_ok. simpl. lia.
  - split_ok H; try (injection H as <-); by apply keeps_same.
Qed.

Lemma key_right_keeps s s' : key_right s = Ok s' -> keeps s s'.
Proof.
  unfold key_right. intros H. destruct (input_mode s).
  - destruct (cursor_pos s <? _)%nat eqn:E; injection H as <-; [|apply keeps_refl].
    split; [|done]. unfold cursor_ok. simpl. apply Nat.ltb_lt in E. lia.
  - cbv zeta in H. split_ok H; try (injection H as <-); by apply keeps_same.
Qed.

Lemma key_tab_keeps s s' : key_tab s = Ok s' -> keeps s s'.
Proof.
  unfold key_tab. intros H. cbv zeta in H.
  split_ok H; try (injection H as <-); by apply keeps_same.
Qed.

Lemma key_ctrl_h_keeps s s' : key_ctrl_h s = Ok s' -> keeps s s'.
Proof.
  unfold key_ctrl_h. intros H. cbv zeta in H.
  destruct (input_mode s); [injection H as <-; apply keeps_refl|].
  destruct (_ && _); [|injection H as <-; by apply keeps_same].
  destruct (List.find _ _); [|injection H as <-; by apply keeps_same].
  destruct (build_selectable_items _ _ _) as [[|e sel]|]; [| |done]; cbn in H.
  - injection H as <-. by apply keeps_same.
  - apply select_entry_same in H as (? & ? & ?). by apply keeps_same.
Qed.

Lemma key_f2_keeps s s' : key_f2 s = Ok s' -> keeps s s'.
Proof.
  unfold key_f2. intros H.
  split_ok H; try (injection H as <-); try apply keeps_refl;
    (split; [intros _; unfold cursor_ok; simpl; lia | done]).
Qed.

Lemma key_printable_keeps n s : keeps s (key_printable n s).
Proof.
  unfold key_printable. destruct (_ && _); [|apply keeps_refl].
  split; [|done]. unfold cursor_ok. simpl. intros Hc.
  rewrite !length_append, length_slice_to. simpl.
  rewrite length_slice_from. lia.
Qed.

Lemma key_esc_keeps s s' : key_esc s = Some s' -> keeps s s'.
Proof.
  unfold key_esc. destruct (_ || _); [|done]. intros [= <-].
  split; [|done]. intros _. unfold cursor_ok. simpl. lia.
Qed.

Lemma reselect_same s sid ts :
  input_text (reselect s sid ts) = input_text s /\
  cursor_pos (reselect s sid ts) = cursor_pos s.
Proof. unfold reselect. by destruct (find_index _ _). Qed.

Lemma save_edit_keeps s w s' w' : save_edit s w = Ok (s', w') -> keeps s s'.
Proof.
  unfold save_edit. intros H. split_ok H. injection H as <- <-.
  split; [intros _; unfold cursor_ok; simpl; lia|]. intros _.
  cbn. rewrite reselect_todos. cbn. by eapply load_todos_with_id.
Qed.

Lemma add_new_keeps s w s' w' : add_new s w = Ok (s', w') -> keeps s s'.
Proof.
  unfold add_new. intros H. split_ok H. injection H as <- <-.
  split; [intros _; unfold cursor_ok; simpl; lia|]. intros _.
  cbn. rewrite reselect_todos. cbn. by eapply load_todos_with_id.
Qed.

Lemma toggle_selected_keeps s w s' w' :
  toggle_selected s w = Ok (s', w') -> keeps s s'.
Proof.
  unfold toggle_selected. intros H. cbv zeta in H.
  unfold mbind, M_bind in H.
  destruct (load_todos w) as [[ts w1]|]; [|done].
  destruct (lift (toggle_loop (selected_id s) ts) w1) as [[r w2]|]; [|done].
  destruct (save_todos r.1 w2) as [[[] w3]|]; [|done].
  destruct (load_todos w3) as [[ts' w4]|] eqn:Hl; [|done].
  set (s2 := match find_index _ ts' with Some i => _ | None => _ end) in H.
  assert (input_text s2 = input_text s /\ cursor_pos s2 = cursor_pos s /\
          todos s2 = ts') as (Hi & Hc & Ht).
  { unfold s2. by destruct (find_index _ _). }
  destruct (_ && _).
  - destruct (lift (build_selectable_items _ _ _) w4) as [[[|e sel] w5]|];
      [| |done].
    + injection H as <- <-. by eapply keeps_loaded.
    + unfold lift in H. destruct (select_entry s2 e) as [s3|] eqn:E; [|done].
      injection H as <- <-. apply select_entry_same in E as (? & ? & ?).
      eapply keeps_loaded; [| |exact Hl|]; congruence.
  - injection H as <- <-. by eapply keeps_loaded.
Qed.

Lemma key_enter_keeps s w s' w' : key_enter s w = Ok (s', w') -> keeps s s'.
Proof.
  unfold key_enter. intros H.
  destruct (_ && _); [by eapply save_edit_keeps|].
  destruct (truthy_str _); [by eapply add_new_keeps|].
  destruct (_ && _); [by eapply toggle_selected_keeps|].
  injection H as <- <-. apply keeps_refl.
Qed.

Lemma delete_selected_keeps s w s' w' :
  delete_selected s w = Ok (s', w') -> keeps s s'.
Proof.
  unfold delete_selected, delete_from_file. intros H. unfold write_file in H.
  unfold mbind, M_bind, mret, M_ret in H.
  destruct (load_todos w) as [[ts w1]|] eqn:Hl; [|done].
  set (ts' := List.filter _ ts) in H.
  assert (Forall with_id ts') as Hid.
  { pose proof (load_todos_with_id _ _ _ Hl) as Hts.
    rewrite Forall_forall in Hts. apply Forall_forall.
    intros x [Hx _]%elem_of_List_filter. auto. }
  split_ok H; injection H as <- <-; by split.
Qed.

Lemma key_delete_keeps s w s' w' : key_delete s w = Ok (s', w') -> keeps s s'.
Proof.
  unfold key_delete. intros H. destruct (truthy_str _).
  - destruct (cursor_pos s <? _)%nat eqn:E; injection H as <- <-;
      [|apply keeps_refl].
    split; [|done]. unfold cursor_ok. cbn [cursor_pos input_text set_input].
    intros _. apply Nat.ltb_lt in E.
    change (match input_text s with
            | "" => ""
            | String _ s' => slice_from (cursor_pos s) s'
            end) with (slice_from (S (cursor_pos s)) (input_text s)).
    rewrite length_append, length_slice_to, length_slice_from. lia.
  - destruct (_ && _); [|injection H as <- <-; apply keeps_refl].
    destruct (truthy_list _); [by eapply delete_selected_keeps|].
    injection H as <- <-. apply keeps_refl.
Qed.

Lemma key_backspace_keeps s w s' w' :
  key_backspace s w = Ok (s', w') -> keeps s s'.
Proof.
  unfold key_backspace. intros H. destruct (truthy_str _).
  - destruct (0 <? cursor_pos s)%nat eqn:E; injection H as <- <-;
      [|apply keeps_refl].
    split; [|done]. unfold cursor_ok. cbn [cursor_pos input_text set_input].
    intros Hc. apply Nat.ltb_lt in E.
    rewrite length_append, length_slice_to, length_slice_from. lia.
  - destruct (_ && _); [|injection H as <- <-; apply keeps_refl].
    destruct (truthy_list _); [by eapply delete_selected_keeps|].
    injection H as <- <-. apply keeps_refl.
Qed.

Lemma change_selected_keeps f s w s' w' :
  change_selected f s w = Ok (s', w') -> keeps s s'.
Proof.
  unfold change_selected. intros H.
  destruct (truthy_list _); [|injection H as <- <-; apply keeps_refl].
  unfold mbind, M_bind, mret, M_ret in H.
  destruct (load_todos w) as [[ts w1]|]; [|done].
  destruct (lift _ w1) as [[ts1 w2]|]; [|done].
  destruct (save_todos ts1 w2) as [[[] w3]|]; [|done].
  destruct (load_todos w3) as [[ts' w4]|] eqn:Hl; [|done].
  injection H as <- <-.
  destruct (find_index _ ts'); by eapply keeps_loaded.
Qed.

Lemma key_priority_keeps n f s w s' w' :
  key_priority n f s w = Ok (s', w') -> keeps s s'.
Proof.
  unfold key_priority. intros H.
  destruct (_ && _); [by eapply change_selected_keeps|].
  injection H as <- <-. apply key_printable_keeps.
Qed.

Lemma handle_keeps k s w s' w' :
  handle k s w = Ok (Some s', w') -> keeps s s'.
Proof.
  destruct k as [| | | | | | | | |n]; simpl; unfold mbind, M_bind, mret, M_ret, lift.
  - intros [= <- <-]. apply keeps_refl.
  - intros [= <- <-]. apply keeps_refl.
  - destruct (key_up s) eqn:E; [|done]. intros [= <- <-]. by apply key_up_keeps.
  - destruct (key_down s) eqn:E; [|done]. intros [= <- <-]. by apply key_down_keeps.
  - destruct (key_left s) eqn:E; [|done]. intros [= <- <-]. by apply key_left_keeps.
  - destruct (key_right s) eqn:E; [|done]. intros [= <- <-]. by apply key_right_keeps.
  - destruct (key_delete s w) as [[s1 w1]|] eqn:E; [|done]. intros [= <- <-].
    by eapply key_delete_keeps.
  - destruct (key_backspace s w) as [[s1 w1]|] eqn:E; [|done]. intros [= <- <-].
    by eapply key_backspace_keeps.
  - destruct (key_f2 s) eqn:E; [|done]. intros [= <- <-]. by apply key_f2_keeps.
  - unfold handle_code, mbind, M_bind, mret, M_ret, lift.
    repeat (destruct (n =? _)%nat).
    + destruct (key_enter s w) as [[s1 w1]|] eqn:E; [|done]. intros [= <- <-].
      by eapply key_enter_keeps.
    + destruct (key_backspace s w) as [[s1 w1]|] eqn:E; [|done]. intros [= <- <-].
      by eapply key_backspace_keeps.
    + destruct (key_1 s w) as [[s1 w1]|] eqn:E; [|done]. intros [= <- <-].
      by eapply key_priority_keeps.
    + destruct (key_2 s w) as [[s1 w1]|] eqn:E; [|done]. intros [= <- <-].
      by eapply key_priority_keeps.
    + destruct (key_0 s w) as [[s1 w1]|] eqn:E; [|done]. intros [= <- <-].
      by eapply key_priority_keeps.
    + destruct (key_ctrl_h s) eqn:E; [|done]. intros [= <- <-].
      by apply key_ctrl_h_keeps.
    + destruct (key_tab s) eqn:E; [|done]. intros [= <- <-]. by apply key_tab_keeps.
    + intros [= E <-]. by apply key_esc_keeps.
    + intros [= <- <-]. apply key_printable_keeps.
Qed.

Lemma reload_external_keeps s w s' w' :
  reload_external s w = Ok (s', w') -> keeps s s'.
Proof.
  unfold reload_external. intros H. unfold mbind, M_bind in H.
  destruct (load_todos w) as [[ts w1]|] eqn:Hl; [|done]. cbv zeta in H.
  split_ok H; injection H as <- <-; by eapply keeps_loaded.
Qed.

Lemma run_keeps evs s w s' w' :
  run evs s w = Ok (Some s', w') -> keeps s s'.
Proof.
  revert s w; induction evs as [|[|f|k] evs IH]; intros s w; simpl;
    unfold mbind, M_bind, mret, M_ret.
  - intros [= <- <-]. apply keeps_refl.
  - destruct (reload_external s w) as [[s1 w1]|] eqn:E; [|done]. intros H.
    apply reload_external_keeps in E as [E1 E2]. apply IH in H as [H1 H2].
    split; auto.
  - apply IH.
  - destruct (handle k s w) as [[[s1|] w1]|] eqn:E; [|done|done]. intros H.
    apply handle_keeps in E as [E1 E2]. apply IH in H as [H1 H2].
    split; auto.
Qed.

Lemma initial_ok w s w' :
  initial w = Ok (s, w') -> cursor_ok s /\ Forall with_id (todos s).
Proof.
  unfold initial, mbind, M_bind, mret, M_ret. intros H.
  destruct (load_todos w) as [[ts w1]|] eqn:Hl; [|done].
  split_ok H; injection H as <- <-;
    (split; [unfold cursor_ok; simpl; lia | by eapply load_todos_with_id]).
Qed.

End Invariants.

(** X2: whatever the file holds, whatever other sessions make of it between
    the turns of the loop, and whatever the keys and the reloads, as long as
    the session runs the cursor of the input field is inside the text or at
    its end, so that every slice of the text at the cursor is taken within
    the text. *)
Theorem cursor_stays_in_text (evs : list event) (w : world) s0 w0 s w' :
  initial w = Ok (s0, w0) ->
  run evs s0 w0 = Ok (Some s, w') ->
  cursor_pos s <= String.length (input_text s).
Proof.
  intros [Hc _]%initial_ok [Hk _]%run_keeps. by apply Hk.
Qed.

(** X3: whatever the file holds, whatever other sessions make of it between
    the turns of the loop, and whatever the keys and the reloads, as long as
    the session runs every record of the list in memory has an id, also when
    the records of the file have none. *)
Theorem records_in_memory_have_ids (evs : list event) (w : world) s0 w0 s w' :
  initial w = Ok (s0, w0) ->
  run evs s0 w0 = Ok (Some s, w') ->
  Forall with_id (todos s).
Proof.
  intros [_ Hi]%initial_ok [_ Hk]%run_keeps. by apply Hk.
Qed.

Lemma cursor_stays_in_text_witness :
  let w := w0 (Some [ {["task" := VStr "Old: entry"; "done" := VBool false]};
                      mk_todo "b" "Solo" false ]) in
  let evs := [Key (Code 104); Key (Code 105); Key KEY_LEFT; Key KEY_BACKSPACE;
              Written (Some [ {["task" := VStr "Work: new"; "done" := VBool false]} ]);
              Changed; Key (Code 33); Key (Code 10); Key KEY_DOWN] in
  exists s0 w1 s w',
    initial w = Ok (s0, w1) /\ run evs s0 w1 = Ok (Some s, w') /\
    cursor_pos s <= String.length (input_text s).
Proof.
  intros w evs. eexists _, _, _, _.
  split; [vm_compute; reflexivity|].
  split; [vm_compute; reflexivity|].
  eapply (cursor_stays_in_text evs w); [vm_compute; reflexivity | vm_compute; reflexivity].
Defined.

Lemma records_in_memory_have_ids_witness :
  let w := w0 (Some [ {["task" := VStr "Old: entry"; "done" := VBool false]};
                      mk_todo "b" "Solo" false ]) in
  let evs := [Key (Code 104); Key (Code 105); Key KEY_LEFT; Key KEY_BACKSPACE;
              Written (Some [ {["task" := VStr "Work: new"; "done" := VBool false]} ]);
              Changed; Key (Code 33); Key (Code 10); Key KEY_DOWN] in
  exists s0 w1 s w',
    initial w = Ok (s0, w1) /\ run evs s0 w1 = Ok (Some s, w') /\
    Forall with_id (todos s).
Proof.
  intros w evs. eexists _, _, _, _.
  split; [vm_compute; reflexivity|].
  split; [vm_compute; reflexivity|].
  eapply (records_in_memory_have_ids evs w); [vm_compute; reflexivity | vm_compute; reflexivity].
Defined.

Lemma append_cons_neq a c b : a +:+ String c b <> "".
Proof. by destruct a. Qed.

(** X4: a character typed and then taken back with Backspace leaves the text and
    the cursor as they were; the session stays in input mode, and the file is
    not read. *)
Theorem type_then_backspace (n : nat) (s : session) (w : world) :
  32 <= n <= 126 ->
  cursor_pos s <= String.length (input_text s) ->
  key_backspace (key_printable n s) w =
  Ok (set_input s (input_text s) (cursor_pos s) true (editing_id s), w).
Proof.
  intros [Hlo Hhi] Hc. unfold key_printable.
  rewrite (proj2 (Nat.leb_le 32 n) Hlo), (proj2 (Nat.leb_le n 126) Hhi).
  cbn [andb]. unfold key_backspace.
  cbn [input_text cursor_pos set_input input_mode editing_id].
  set (a := slice_to (cursor_pos s) (input_text s)).
  set (b := slice_from (cursor_pos s) (input_text s)).
  assert (String.length a = cursor_pos s) as Ha.
  { unfold a. rewrite length_slice_to. lia. }
  unfold chr. change (String ?c "" +:+ b) with (String c b).
  assert (truthy_str (a +:+ String (ascii_of_nat n) b) = true) as ->.
  { unfold truthy_str, truthy. apply negb_true_iff, String.eqb_neq, append_cons_neq. }
  change (0 <? S (cursor_pos s))%nat with true. cbv iota.
  replace (S (cursor_pos s) - 1)%nat with (String.length a) by lia.
  rewrite slice_to_app.
  replace (slice_from (S (cursor_pos s)) (a +:+ String (ascii_of_nat n) b)) with b.
  - rewrite Ha. unfold a, b. rewrite slice_to_from. reflexivity.
  - change (a +:+ String (ascii_of_nat n) b)
      with (a +:+ (String (ascii_of_nat n) "" +:+ b)).
    rewrite <- append_assoc.
    replace (S (cursor_pos s)) with (String.length (a +:+ String (ascii_of_nat n) ""))
      by (rewrite length_append; simpl; lia).
    by rewrite slice_from_app.
Qed.

Lemma type_then_backspace_witness :
  let s := Session [] false 0 VNone KTodo VNone "Buy mlk" 5 true VNone ∅ false in
  key_backspace (key_printable 105 s) (w0 None) =
  Ok (set_input s (input_text s) (cursor_pos s) true (editing_id s), w0 None).
Proof. cbv zeta. apply type_then_backspace; simpl; lia. Defined.

(** ** The priority keys *)

Lemma decode_task_extract t1 t2 p1 p2 clean group text :
  extract_priority t1 = (p1, clean) -> extract_priority t2 = (p2, clean) ->
  decode_task t1 = Ok (p1, group, text) -> decode_task t2 = Ok (p2, group, text).
Proof.
  unfold decode_task. intros -> ->.
  destruct (contains ":" clean); [|congruence].
  destruct (index (split1 ":" clean) 0); [|done]. cbn [mbind res_bind].
  destruct (index (split1 ":" clean) 1); [|done]. cbn [mbind res_bind].
  congruence.
Qed.

Lemma decode_task_priority task priority group text :
  decode_task task = Ok (priority, group, text) ->
  extract_priority task = (priority, cut_priority task).
Proof.
  rewrite cut_priority_extract. unfold decode_task.
  destruct (extract_priority task) as [p clean]. simpl.
  destruct (contains ":" clean); [|congruence].
  destruct (index (split1 ":" clean) 0); [|done]. cbn [mbind res_bind].
  destruct (index (split1 ":" clean) 1); [|done]. cbn [mbind res_bind].
  congruence.
Qed.

(** X5: what the keys [1], [2] and [0] make of the task of a record.  The key
    [1] removes the marker of a record of low priority and gives every other
    record the marker of the low priority in place of the one it has; the key
    [2] does the same with the high priority; the key [0] removes the marker.
    A task that is given a marker decodes to that priority with the group and
    the text it had; a task whose marker is removed does so too, with no
    priority, unless what follows the marker starts with a marker again.  No
    other field of the record changes. *)
Theorem priority_keys_recode (todo : dict) task priority group text :
  todo !! "task" = Some (VStr task) ->
  decode_task task = Ok (priority, group, text) ->
  let clean := cut_priority task in
  toggle_yellow todo =
    Ok (<["task" := VStr (if decide (priority = 1) then clean else "! " +:+ clean)]> todo) /\
  toggle_red todo =
    Ok (<["task" := VStr (if decide (priority = 2) then clean else "!! " +:+ clean)]> todo) /\
  remove_priority todo =
    Ok (if decide (priority = 0) then todo else <["task" := VStr clean]> todo) /\
  decode_task ("! " +:+ clean) = Ok (1, group, text) /\
  decode_task ("!! " +:+ clean) = Ok (2, group, text) /\
  (~ is_prefix "! " clean -> ~ is_prefix "!! " clean ->
   decode_task clean = Ok (0, group, text)).
Proof.
  intros Ht Hd clean. subst clean.
  pose proof (decode_task_priority _ _ _ _ Hd) as He.
  pose proof (f_equal fst He) as Hp. pose proof (f_equal snd He) as Hc.
  cbn [fst snd] in Hp, Hc. rewrite <- Hc in *. clear Hc.
  set (clean := (extract_priority task).2) in *.
  unfold toggle_yellow, toggle_red, remove_priority, getitem. rewrite Ht.
  cbn [mbind res_bind as_str].
  assert ((task = "!! " +:+ clean /\ priority = 2) \/
          (task = "! " +:+ clean /\ priority = 1) \/
          (startswith task "!! " = false /\ startswith task "! " = false /\
           task = clean /\ priority = 0)) as Hcases.
  { unfold clean. destruct (extract_priority_cases task) as
      [(c & Hc & E) | [(c & Hc & E) | (H2 & H1 & E)]]; rewrite E in *; simpl in *;
      subst; auto 10. }
  split; [|split; [|split; [|split; [|split]]]].
  - destruct Hcases as [[E ->] | [[E ->] | (H2 & H1 & E & ->)]].
    + rewrite E. reflexivity.
    + rewrite E. reflexivity.
    + rewrite H1, H2, E. reflexivity.
  - destruct Hcases as [[E ->] | [[E ->] | (H2 & H1 & E & ->)]].
    + rewrite E. reflexivity.
    + rewrite E. reflexivity.
    + rewrite H1, H2, E. reflexivity.
  - destruct Hcases as [[E ->] | [[E ->] | (H2 & H1 & E & ->)]].
    + rewrite E. reflexivity.
    + rewrite E. reflexivity.
    + rewrite H1, H2. reflexivity.
  - eapply decode_task_extract; [exact He| |exact Hd].
    apply (extract_priority_marked 1). by left.
  - eapply decode_task_extract; [exact He| |exact Hd].
    apply (extract_priority_marked 2). by right.
  - intros H1 H2. eapply decode_task_extract; [exact He| |exact Hd].
    rewrite !is_prefix_startswith in H1, H2. unfold extract_priority.
    destruct (startswith clean "!! "); [done|].
    by destruct (startswith clean "! ").
Qed.

Lemma priority_keys_recode_witness :
  let todo := mk_todo "a" "!! Work: Apple" false in
  let clean := cut_priority "!! Work: Apple" in
  toggle_yellow todo =
    Ok (<["task" := VStr (if decide (2 = 1) then clean else "! " +:+ clean)]> todo) /\
  toggle_red todo =
    Ok (<["task" := VStr (if decide (2 = 2) then clean else "!! " +:+ clean)]> todo) /\
  remove_priority todo =
    Ok (if decide (2 = 0) then todo else <["task" := VStr clean]> todo) /\
  decode_task ("! " +:+ clean) = Ok (1, "Work", "Apple") /\
  decode_task ("!! " +:+ clean) = Ok (2, "Work", "Apple") /\
  (~ is_prefix "! " clean -> ~ is_prefix "!! " clean ->
   decode_task clean = Ok (0, "Work", "Apple")).
Proof.
  cbv zeta. apply (priority_keys_recode (mk_todo "a" "!! Work: Apple" false));
    vm_compute; reflexivity.
Defined.

Section PriorityHandlers.

#[local] Arguments py_eq : simpl never.

Lemma priority_change_frame f x x' :
  priority_change f -> f x = Ok x' ->
  (forall k, k <> "task" -> x' !! k = x !! k) /\ (has_task x -> has_task x').
Proof.
  intros [-> | [-> | ->]]; unfold toggle_yellow, toggle_red, remove_priority, getitem;
    (destruct (x !! "task") as [[| | |task]|] eqn:Ht; try done);
    cbn [mbind res_bind as_str]; intros H;
    repeat match type of H with
    | context [if ?b then _ else _] => destruct b
    end;
    injection H as <-;
    (split; [intros k Hk; by rewrite ?lookup_insert_ne
            | intros _; eexists; first [apply lookup_insert_eq | exact Ht]]).
Qed.

Lemma priority_change_total f x :
  priority_change f -> has_task x -> exists x', f x = Ok x'.
Proof.
  intros [-> | [-> | ->]] [task Ht];
    unfold toggle_yellow, toggle_red, remove_priority, getitem; rewrite Ht;
    cbn [mbind res_bind as_str];
    repeat match goal with
    | |- context [if ?b then _ else _] => destruct b
    end; by eexists.
Qed.

Lemma change_selected_saves f s w :
  priority_change f -> todos s <> [] ->
  Forall with_id (on_disk w) -> Forall has_task (on_disk w) ->
  exists ts written s',
    update_first (has_id (selected_id s)) f (on_disk w) = Ok ts /\
    change_selected f s w = Ok (s', World (Some written) (uuid_src w) (uuid_next w)) /\
    Permutation written ts /\ todos s' = written /\
    our_ids_of ts = our_ids_of (on_disk w) /\
    selected_id s' = selected_id s /\ input_text s' = input_text s.
Proof.
  intros Hf Hne Hwid Hwt.
  destruct (update_first_total (has_id (selected_id s)) f (on_disk w)) as [ts Hu].
  { eapply Forall_impl; [exact Hwt|]. intros x. by apply priority_change_total. }
  assert (forall x x', f x = Ok x' -> x' !! "id" = x !! "id") as Hid.
  { intros x x' [H _]%(priority_change_frame f); [by apply H|done]. }
  destruct (save_changed (has_id (selected_id s)) f w ts)
    as (written & Hs & Hl & Hp & _); try done.
  { intros x x' Hx [_ H]%(priority_change_frame f); auto. }
  cbv zeta in Hs, Hl.
  exists ts, written. eexists. split; [done|]. split; [|split; [done|]].
  - unfold change_selected. destruct (todos s); [done|]. cbn [truthy_list].
    unfold_M. rewrite (load_todos_id w Hwid), Hu, Hs, Hl. reflexivity.
  - split; [by destruct (find_index _ _)|].
    split; [by eapply update_first_ids|].
    split; by destruct (find_index _ _).
Qed.

End PriorityHandlers.



(** X7: the handlers that change a record in place, which are the save of an
    edit, the toggle and the priority keys, work on what they read from the
    file and not on the list in memory: the file they write has the ids of
    the file they found, each as often as before.  So they neither lose a
    record nor bring back one that another session has deleted. *)
Theorem in_place_handlers_keep_ids (s : session) (w : world) :
  Forall with_id (on_disk w) -> Forall has_task (on_disk w) ->
  (truthy_str (strip (input_text s)) = true -> truthy (editing_id s) = true ->
   exists s' w', key_enter s w = Ok (s', w') /\
     Permutation (our_ids_of (on_disk w')) (our_ids_of (on_disk w))) /\
  (Forall has_done (on_disk w) -> toggles s ->
   exists s' w', key_enter s w = Ok (s', w') /\
     Permutation (our_ids_of (on_disk w')) (our_ids_of (on_disk w))) /\
  (forall n f, priority_change f ->
   input_text s = "" -> input_mode s = false -> selected_type s = KTodo ->
   todos s <> [] ->
   exists s' w', key_priority n f s w = Ok (s', w') /\
     Permutation (our_ids_of (on_disk w')) (our_ids_of (on_disk w))).
Proof.
  intros Hwid Hwt. split; [|split].
  - intros Htext Hed.
    destruct (key_enter_edit s w Hwid Hwt Htext Hed) as (ts & written & s' & Hu & Hk & Hp & _).
    eexists s', _. split; [exact Hk|].
    change (on_disk (World (Some written) _ _)) with written.
    unfold our_ids_of at 1. rewrite Hp.
    fold (our_ids_of ts). by rewrite (update_first_ids _ _ _ _ (edit_task_id _) Hu).
  - intros Hd Hg.
    destruct (key_enter_toggle s w Hwid Hwt Hd Hg) as (ts & written & s' & Hu & Hk & Hp & _).
    eexists s', _. split; [exact Hk|].
    change (on_disk (World (Some written) _ _)) with written.
    unfold our_ids_of at 1. rewrite Hp.
    fold (our_ids_of ts). by rewrite (update_first_ids _ _ _ _ toggle_done_id Hu).
  - intros n f Hf Hi Hm Hk Hne.
    destruct (change_selected_saves f s w Hf Hne Hwid Hwt)
      as (ts & written & s' & Hu & Hc & Hp & _ & Hids & _).
    eexists s', _. split.
    { unfold key_priority. rewrite Hi, Hm, Hk. cbn. exact Hc. }
    change (on_disk (World (Some written) _ _)) with written.
    unfold our_ids_of at 1. rewrite Hp. fold (our_ids_of ts). by rewrite Hids.
Qed.

Lemma in_place_handlers_keep_ids_witness :
  let s := Session [mk_todo "gone" "Old" false; mk_todo "a" "Work: Apple" false]
             false 0 (VStr "gone") KTodo VNone "" 0 false VNone ∅ false in
  let w := w0 (Some [mk_todo "a" "Work: Apple" false]) in
  (truthy_str (strip (input_text s)) = true -> truthy (editing_id s) = true ->
   exists s' w', key_enter s w = Ok (s', w') /\
     Permutation (our_ids_of (on_disk w')) (our_ids_of (on_disk w))) /\
  (Forall has_done (on_disk w) -> toggles s ->
   exists s' w', key_enter s w = Ok (s', w') /\
     Permutation (our_ids_of (on_disk w')) (our_ids_of (on_disk w))) /\
  (forall n f, priority_change f ->
   input_text s = "" -> input_mode s = false -> selected_type s = KTodo ->
   todos s <> [] ->
   exists s' w', key_priority n f s w = Ok (s', w') /\
     Permutation (our_ids_of (on_disk w')) (our_ids_of (on_disk w))).
Proof.
  cbv zeta. apply in_place_handlers_keep_ids.
  - repeat constructor.
  - repeat constructor; eexists; vm_compute; reflexivity.
Defined.

(** ** The creation of a record *)

Section Creation.

#[local] Arguments py_eq : simpl never.

Lemma find_index_is_Some {A} (p : A -> bool) l x :
  x ∈ l -> p x = true -> is_Some (find_index p l).
Proof.
  intros Hin Hp. destruct (find_index p l) eqn:E; [by eexists|].
  rewrite find_index_None in E. rewrite (E x Hin) in Hp. done.
Qed.

(** X8: the Enter key on a text that is not blank, with no edit under way,
    creates one record: its id is the one drawn from the source of ids, its
    task is the trimmed text, it is not done.  The file written holds, in the
    order of the sort, the list in memory, the new record and the records of
    the file whose id the list in memory lacks.  The selected id becomes the
    id of the new record and the row index the first row of that id; the
    type of the selection and the selected group are not touched, so that
    after a header was selected the selection is still that header.  The
    input field is emptied and left; the edit under way, the collapsed
    groups and the filter stay. *)
Theorem create_adds_one_record (s : session) (w : world) :
  truthy_str (strip (input_text s)) = true ->
  truthy (editing_id s) = false ->
  Forall with_id (todos s) -> Forall has_task (todos s) ->
  Forall with_id (on_disk w) -> Forall has_task (on_disk w) ->
  let new_id := uuid_src w (uuid_next w) in
  let new : dict := {["id" := VStr new_id; "task" := VStr (strip (input_text s));
                      "done" := VBool false]} in
  exists written s' i,
    key_enter s w =
      Ok (s', World (Some written) (uuid_src w) (S (uuid_next w))) /\
    Permutation written
      ((todos s ++ [new]) ++ foreign (todos s ++ [new]) (on_disk w)) /\
    todos s' = written /\ just_saved s' = true /\
    find_index (has_id (VStr new_id)) written = Some i /\
    selected s' = i /\ selected_id s' = VStr new_id /\
    selected_type s' = selected_type s /\ selected_group s' = selected_group s /\
    input_text s' = "" /\ cursor_pos s' = 0 /\ input_mode s' = false /\
    editing_id s' = editing_id s /\
    collapsed_groups s' = collapsed_groups s /\ hide_completed s' = hide_completed s.
Proof.
  intros Htext Hed Hsid Hst Hwid Hwt new_id new.
  set (w1 := World (file w) (uuid_src w) (S (uuid_next w))).
  assert (load_todos w1 = Ok (on_disk w, w1)) as Hl by by apply (load_todos_id w1).
  assert (with_id new /\ has_task new) as [Hnid Hnt].
  { split; [by apply has_key_true | by eexists]. }
  destruct (save_todos_spec (todos s ++ [new]) w1 _ _ Hl) as (written & Hs & Hp & _).
  { apply Forall_app. split; [apply Forall_app; split; [done|by constructor]|].
    apply Forall_forall. intros x [Hx _]%elem_of_List_filter.
    rewrite Forall_forall in Hwt. auto. }
  cbn [uuid_src uuid_next w1] in Hs.
  set (w2 := World (Some written) (uuid_src w) (S (uuid_next w))) in *.
  assert (Forall with_id written) as Hwr.
  { rewrite Hp. apply Forall_app. split; [apply Forall_app; split; [done|by constructor]|].
    apply Forall_forall. intros x [Hx _]%elem_of_List_filter.
    rewrite Forall_forall in Hwid. auto. }
  assert (load_todos w2 = Ok (written, w2)) as Hl2 by by apply (load_todos_id w2).
  assert (is_Some (find_index (has_id (VStr new_id)) written)) as [i Hi].
  { apply (find_index_is_Some _ _ new).
    - rewrite Hp. apply elem_of_app. left. apply elem_of_app. right. left.
    - unfold has_id, get, new. by rewrite lookup_insert_eq, py_eq_refl. }
  exists written. eexists. exists i. split.
  { unfold key_enter. rewrite Htext, Hed. cbn [andb].
    unfold add_new. unfold mbind at 1, M_bind at 1. unfold uuid4 at 1.
    fold w1. fold new_id. fold new.
    unfold mbind at 1, M_bind at 1. rewrite Hs.
    unfold mbind at 1, M_bind at 1. rewrite Hl2. reflexivity. }
  split; [done|]. unfold reselect. rewrite Hi. by cbn.
Qed.

Lemma create_adds_one_record_witness :
  let s := Session [mk_todo "a" "Work: Apple" false] false 0 VNone KGroup (VStr "Work")
             "  Buy milk " 11 true VNone {[ "Work" ]} false in
  let w := w0 (Some [mk_todo "a" "Work: Apple" false; mk_todo "x" "Solo" false]) in
  exists written s',
    key_enter s w =
      Ok (s', World (Some written) (uuid_src w) (S (uuid_next w))) /\
    selected_id s' = VStr "u0" /\ selected_type s' = KGroup /\
    selected_group s' = VStr "Work".
Proof.
  cbv zeta.
  destruct (create_adds_one_record
              (Session [mk_todo "a" "Work: Apple" false] false 0 VNone KGroup (VStr "Work")
                 "  Buy milk " 11 true VNone {[ "Work" ]} false)
              (w0 (Some [mk_todo "a" "Work: Apple" false; mk_todo "x" "Solo" false])))
    as (written & s' & i & H1 & _ & _ & _ & _ & _ & H2 & H3 & H4 & _).
  - vm_compute; reflexivity.
  - reflexivity.
  - repeat constructor.
  - repeat constructor; eexists; vm_compute; reflexivity.
  - repeat constructor.
  - repeat constructor; eexists; vm_compute; reflexivity.
  - exists written, s'. by repeat split.
Defined.

End Creation.

(** ** The bounds of the deletion *)

Section Deletion.

#[local] Arguments py_eq : simpl never.





End Deletion.

(** ** The order of the file does not depend on the order of the list *)

Lemma sorted_perm_eq {A} (R : A -> A -> Prop) (a b : list A) :
  (forall x y, x ∈ a -> y ∈ a -> R x y -> R y x -> x = y) ->
  StronglySorted R a -> StronglySorted R b -> Permutation a b -> a = b.
Proof.
  revert b; induction a as [|x a IH]; intros b Hanti Ha Hb Hp.
  - by apply Permutation_nil in Hp.
  - destruct b as [|y b]; [by apply Permutation_sym, Permutation_nil in Hp|].
    apply StronglySorted_inv in Ha as [Ha Hxa].
    apply StronglySorted_inv in Hb as [Hb Hyb].
    rewrite Forall_forall in Hxa, Hyb.
    assert (x = y) as <-.
    { assert (x ∈ y :: b) as Hx by (rewrite <- Hp; left).
      assert (y ∈ x :: a) as Hy by (rewrite Hp; left).
      apply elem_of_cons in Hx as [->|Hx]; [done|].
      apply elem_of_cons in Hy as [->|Hy]; [done|].
      apply Hanti; [left | by right | by apply Hxa | by apply Hyb]. }
    f_equal. apply IH; try done.
    + intros u v Hu Hv. apply Hanti; by right.
    + by apply Permutation_cons_inv in Hp.
Qed.

(** X10: two lists with the same records, whatever their order, are sorted to the
    same list, provided each record has a task and records with the same sort
    key are the same record: the order in which [save_todos] writes the file
    is then fixed by the records alone. *)
Theorem sort_todos_order_independent (l1 l2 : list dict) :
  Permutation l1 l2 ->
  Forall has_task l1 ->
  (forall x y, x ∈ l1 -> y ∈ l1 -> get_sort_key x = get_sort_key y -> x = y) ->
  exists sorted, sort_todos l1 = Ok sorted /\ sort_todos l2 = Ok sorted.
Proof.
  intros Hp Ht Hkey.
  destruct (sort_todos_total l1 Ht) as [s1 H1].
  destruct (sort_todos_total l2) as [s2 H2]; [by rewrite <- Hp|].
  exists s1. split; [done|]. rewrite H2. f_equal.
  apply sort_todos_spec in H1 as [Hp1 Hs1].
  apply sort_todos_spec in H2 as [Hp2 Hs2].
  symmetry. apply (sorted_perm_eq todo_le); try done.
  - intros x y Hx Hy (kx & ky & Hkx & Hky & Hle) (ky' & kx' & Hky' & Hkx' & Hle').
    rewrite Hp1 in Hx, Hy. apply Hkey; try done.
    rewrite Hkx, Hky. f_equal.
    rewrite Hkx in Hkx'. rewrite Hky in Hky'. injection Hkx' as <-. injection Hky' as <-.
    by apply key_le_antisym.
  - by rewrite Hp1, Hp, <- Hp2.
Qed.

Lemma sort_todos_order_independent_witness :
  let a := mk_todo "1" "Work: Apple" false in
  let z := mk_todo "2" "work: zebra" true in
  let o := mk_todo "3" "Solo" false in
  exists sorted, sort_todos [o; z; a] = Ok sorted /\ sort_todos [z; a; o] = Ok sorted.
Proof.
  cbv zeta. apply sort_todos_order_independent.
  - apply Permutation_cons_append.
  - repeat constructor; eexists; vm_compute; reflexivity.
  - intros x y Hx Hy.
    repeat (apply elem_of_cons in Hx as [->|Hx]);
    repeat (apply elem_of_cons in Hy as [->|Hy]);
    try (by apply elem_of_nil in Hx); try (by apply elem_of_nil in Hy);
    try reflexivity; vm_compute; discriminate.
Defined.

(** ** Collapsing and expanding groups *)

Section Groups.

#[local] Arguments py_eq : simpl never.

Lemma elem_of_members v g vis :
  v ∈ members g vis <-> exists t, (v, t) ∈ vis /\ entry_group (v, t) = g.
Proof.
  unfold members. rewrite list_elem_of_fmap. split.
  - intros ([v' t] & -> & [Hin Hg%String.eqb_eq]%elem_of_List_filter). eauto.
  - intros (t & Hin & Hg). exists (v, t). split; [done|].
    apply elem_of_List_filter. split; [done|]. by apply String.eqb_eq.
Qed.

Lemma elem_of_entries e (ts : list dict) collapsed hide :
  e ∈ selectable_entries ts collapsed hide <->
  exists g, g ∈ map entry_group (visible hide ts) /\
    e ∈ entries_of_group collapsed (visible hide ts) g.
Proof.
  unfold selectable_entries. cbv zeta. rewrite elem_of_concat. split.
  - intros (es & (g & -> & Hg)%list_elem_of_fmap & He).
    rewrite first_occurrences_elem in Hg. eauto.
  - intros (g & Hg & He). eexists. split; [|exact He].
    apply list_elem_of_fmap. exists g. split; [done|].
    by rewrite first_occurrences_elem.
Qed.

(** The headers of the selectable sequence are the collapsed named groups
    that have a record that is shown. *)
Lemma header_in_entries g (ts : list dict) collapsed hide :
  EGroup g ∈ selectable_entries ts collapsed hide <->
  g <> "__ungrouped__" /\ g ∈ collapsed /\
  g ∈ map entry_group (visible hide ts).
Proof.
  rewrite elem_of_entries. unfold entries_of_group. split.
  - intros (g' & Hg' & He).
    destruct (String.eqb g' "__ungrouped__") eqn:E.
    { by apply list_elem_of_fmap in He as (? & ? & _). }
    case_bool_decide as Hc.
    + apply list_elem_of_singleton in He as [= ->].
      apply String.eqb_neq in E. done.
    + by apply list_elem_of_fmap in He as (? & ? & _).
  - intros (Hne & Hc & Hg). exists g. split; [done|].
    apply String.eqb_neq in Hne. rewrite Hne.
    rewrite bool_decide_eq_true_2 by done. left.
Qed.

(** The record entries of the selectable sequence are the records that are
    shown and are ungrouped or in a group that is not collapsed. *)
Lemma record_in_entries v (ts : list dict) collapsed hide :
  ETodo v ∈ selectable_entries ts collapsed hide <->
  exists t, (v, t) ∈ visible hide ts /\
    (entry_group (v, t) = "__ungrouped__" \/ entry_group (v, t) ∉ collapsed).
Proof.
  rewrite elem_of_entries. unfold entries_of_group. split.
  - intros (g & Hg & He).
    destruct (String.eqb g "__ungrouped__") eqn:E.
    { apply String.eqb_eq in E. subst g.
      apply list_elem_of_fmap in He as (v' & [= <-] & Hv).
      apply elem_of_members in Hv as (t & Hin & Hgr). eauto. }
    case_bool_decide as Hc.
    + by apply list_elem_of_singleton in He.
    + apply list_elem_of_fmap in He as (v' & [= <-] & Hv).
      apply elem_of_members in Hv as (t & Hin & Hgr). exists t.
      split; [done|]. right. by rewrite Hgr.
  - intros (t & Hin & Hcase). exists (entry_group (v, t)). split.
    { apply list_elem_of_fmap. by exists (v, t). }
    assert (ETodo v ∈ map ETodo (members (entry_group (v, t)) (visible hide ts))) as Hm.
    { apply list_elem_of_fmap. exists v. split; [done|].
      apply elem_of_members. eauto. }
    destruct (String.eqb (entry_group (v, t)) "__ungrouped__") eqn:E; [done|].
    destruct Hcase as [Hu | Hn]; [apply String.eqb_neq in E; done|].
    by rewrite bool_decide_eq_false_2.
Qed.

Lemma get_todo_group_of (todo : dict) g :
  get_todo_group todo = Ok g ->
  has_task todo /\ group_of (task_of todo) = g.
Proof.
  unfold get_todo_group, getitem, task_of.
  destruct (todo !! "task") as [[| | |task]|] eqn:Ht; try done.
  cbn [mbind res_bind as_str]. intros Hg. split; [by eexists|].
  destruct (decode_task_total task) as (p & g' & d & Hd).
  assert (get_todo_group todo = Ok g') as Hg'
    by (eapply get_todo_group_decode; eauto).
  unfold get_todo_group, getitem in Hg'. rewrite Ht in Hg'.
  cbn [mbind res_bind as_str] in Hg'. unfold group_of. rewrite Hd. congruence.
Qed.

Lemma get_todo_group_total (todo : dict) :
  has_task todo -> get_todo_group todo = Ok (group_of (task_of todo)).
Proof.
  intros [task Ht]. destruct (decode_task_total task) as (p & g & d & Hd).
  rewrite (get_todo_group_decode _ _ _ _ _ Ht Hd).
  unfold group_of, task_of. by rewrite Ht, Hd.
Qed.

Lemma elem_of_enumerate_lookup {A} (l : list A) i x k :
  l !! i = Some x -> (k + i, x) ∈ zip (seq k (length l)) l.
Proof.
  revert i k; induction l as [|y l IH]; intros i k; [done|].
  destruct i as [|i]; simpl.
  - intros [= ->]. rewrite Nat.add_0_r. left.
  - intros Hi. right. replace (k + S i) with (S k + i) by lia. by apply IH.
Qed.

Lemma find_Some_lookup {A} (p : A -> bool) l x :
  List.find p l = Some x -> p x = true /\ exists i, l !! i = Some x.
Proof.
  intros [Hin Hp]%find_some. split; [done|].
  by apply list_elem_of_lookup_1, list_elem_of_In.
Qed.

End Groups.

Section GroupKeys.

#[local] Arguments py_eq : simpl never.

Lemma find_group_member_spec g k (l : list dict) :
  Forall has_task l ->
  find_group_member (VStr g) k l =
  Ok (match find_index (in_group g) l with
      | Some i => (fun t => (k + i, t)) <$> l !! i
      | None => None
      end).
Proof.
  intros Hl. revert k. induction Hl as [|x l Hx _ IH]; intros k; [done|].
  simpl. rewrite (get_todo_group_total _ Hx). cbn [mbind res_bind].
  unfold in_group at 1. change (py_eq (VStr ?a) (VStr ?b)) with (String.eqb a b).
  destruct (String.eqb (group_of (task_of x)) g) eqn:E.
  - simpl. by rewrite Nat.add_0_r.
  - rewrite IH. destruct (find_index (in_group g) l) as [i|]; simpl; [|done].
    by replace (k + S i) with (S k + i) by lia.
Qed.

Lemma visible_lookup hide (ts : list dict) i t :
  (i, t) ∈ visible hide ts <-> ts !! i = Some t /\ shown hide (i, t) = true.
Proof.
  unfold visible. rewrite elem_of_List_filter.
  assert ((i, t) ∈ enumerate ts <-> ts !! i = Some t) as ->; [|done].
  unfold enumerate. split.
  - intros Hin. assert (forall k (l : list dict), (i, t) ∈ zip (seq k (length l)) l ->
      l !! (i - k) = Some t /\ k <= i) as Hgen.
    { clear. intros k l. revert k. induction l as [|y l IH]; intros k; simpl.
      - by inversion 1.
      - intros [[= -> ->]|H]%elem_of_cons.
        + by rewrite Nat.sub_diag.
        + apply IH in H as [H ?]. split; [|lia].
          replace (i - k) with (S (i - S k)) by lia. done. }
    apply Hgen in Hin as [Hin _]. by rewrite Nat.sub_0_r in Hin.
  - intros Hi. by apply (elem_of_enumerate_lookup ts i t 0).
Qed.

(** What the Left key does to a selected record of a named group. *)
Lemma key_left_collapses s (todo : dict) g :
  input_mode s = false -> selected_type s = KTodo ->
  truthy (selected_id s) = true ->
  List.find (has_id (selected_id s)) (todos s) = Some todo ->
  get_todo_group todo = Ok g -> g <> "__ungrouped__" ->
  key_left s =
  Ok (set_selection (set_collapsed s ({[g]} ∪ collapsed_groups s))
        (selected s) VNone KGroup (VStr g)).
Proof.
  intros Hm Hty Hsid Hf Hg Hne. unfold key_left.
  rewrite Hm, Hty, Hsid, Hf, Hg.
  assert (truthy_list (todos s) = true) as ->.
  { apply find_some in Hf as [Hin _]. by destruct (todos s). }
  rewrite bool_decide_eq_true_2 by done. cbn [andb mbind res_bind].
  apply String.eqb_neq in Hne. by rewrite Hne.
Qed.

(** What the Right key does to a selected header. *)
Lemma key_right_expands s g :
  input_mode s = false -> selected_type s = KGroup ->
  selected_group s = VStr g -> g <> "" ->
  Forall has_task (todos s) -> Forall with_id (todos s) ->
  exists s', key_right s = Ok s' /\
    collapsed_groups s' = collapsed_groups s ∖ {[g]} /\
    hide_completed s' = hide_completed s /\ same_list s s' /\
    match find_index (in_group g) (todos s) with
    | Some i => focus_on (todos s) s' (ETodo i)
    | None => same_selection s s'
    end.
Proof.
  intros Hm Hty Hgrp Hne Ht Hid. unfold key_right.
  rewrite Hm, Hty, Hgrp. rewrite bool_decide_eq_true_2 by done.
  assert (truthy (VStr g) = true) as -> by (by destruct g).
  cbn [andb discard]. cbv zeta. cbn [selected_group set_collapsed todos].
  rewrite ?Hgrp. rewrite (find_group_member_spec g 0 _ Ht).
  destruct (find_index (in_group g) (todos s)) as [i|] eqn:Hi.
  - destruct (find_index_Some _ _ _ Hi) as [(t & Hit & _) _].
    rewrite Hit. cbn [fmap option_fmap option_map mbind res_bind].
    assert (with_id t) as [sid Hsid]%has_key_true.
    { rewrite Forall_forall in Hid. apply Hid. by eapply list_elem_of_lookup_2. }
    unfold getitem. rewrite Hsid. cbn [mbind res_bind].
    eexists. split; [reflexivity|]. repeat split. exists t. by split.
  - cbn [mbind res_bind]. eexists. split; [reflexivity|]. by repeat split.
Qed.

End GroupKeys.

(** X11: the Left key on a selected record of a named group collapses the group:
    the group joins the collapsed groups, the selection becomes its header,
    and the list and the input field stay as they are.  In the selectable
    sequence that follows no record of the group is an entry, and the header
    is an entry when the record is shown. *)
Theorem collapse_selects_header (s : session) (todo : dict) (g : string) :
  input_mode s = false -> selected_type s = KTodo ->
  truthy (selected_id s) = true ->
  List.find (has_id (selected_id s)) (todos s) = Some todo ->
  get_todo_group todo = Ok g -> g <> "__ungrouped__" ->
  exists s', key_left s = Ok s' /\
    collapsed_groups s' = {[g]} ∪ collapsed_groups s /\
    hide_completed s' = hide_completed s /\ same_list s s' /\
    focus_on (todos s) s' (EGroup g) /\
    (forall v t, todos s !! v = Some t -> in_group g t = true ->
       ETodo v ∉ selectable_entries (todos s') (collapsed_groups s')
                   (hide_completed s')) /\
    (shown (hide_completed s) (0, todo) = true ->
     EGroup g ∈ selectable_entries (todos s') (collapsed_groups s')
                  (hide_completed s')).
Proof.
  intros Hm Hty Hsid Hf Hg Hne.
  eexists. split; [by eapply key_left_collapses|].
  cbn [collapsed_groups hide_completed todos set_selection set_collapsed].
  split; [done|]. split; [done|]. split; [by repeat split|].
  split; [by repeat split|]. split.
  - intros v t Hv Hin [t' [Hvis Hcase]]%record_in_entries.
    apply visible_lookup in Hvis as [Hv' _].
    assert (t' = t) as -> by congruence.
    apply String.eqb_eq in Hin. unfold entry_group in Hcase. simpl in Hcase.
    rewrite Hin in Hcase. destruct Hcase as [?|Hn]; [done|].
    apply Hn. set_solver.
  - intros Hshown. apply header_in_entries. split; [done|].
    split; [set_solver|].
    destruct (find_Some_lookup _ _ _ Hf) as [_ [i Hi]].
    apply get_todo_group_of in Hg as [_ Hg].
    apply list_elem_of_fmap. exists (i, todo). split; [by rewrite <- Hg|].
    apply visible_lookup. by split.
Qed.

Lemma collapse_selects_header_witness :
  exists s', key_left (Session [mk_todo "a" "Home: x" false; mk_todo "b" "Work: y" false]
                         false 1 (VStr "b") KTodo VNone "" 0 false VNone ∅ false)
             = Ok s' /\
    collapsed_groups s' = {[ "Work" ]} ∪ ∅ /\ selected_group s' = VStr "Work".
Proof.
  destruct (collapse_selects_header
              (Session [mk_todo "a" "Home: x" false; mk_todo "b" "Work: y" false]
                 false 1 (VStr "b") KTodo VNone "" 0 false VNone ∅ false)
              (mk_todo "b" "Work: y" false) "Work")
    as (s' & H1 & H2 & _ & _ & (_ & H3 & _) & _);
    [reflexivity | reflexivity | reflexivity | vm_compute; reflexivity
    | vm_compute; reflexivity | discriminate |].
  exists s'. by repeat split.
Defined.

(** X12: the Right key on a selected header expands the group: the group leaves
    the collapsed groups and the selection becomes the first record of the
    list that is of the group, which is an entry of the selectable sequence
    that follows exactly when it is shown.  With no record of the group the
    selection stays. *)
Theorem expand_selects_first_member (s : session) (g : string) :
  input_mode s = false -> selected_type s = KGroup ->
  selected_group s = VStr g -> g <> "" ->
  Forall has_task (todos s) -> Forall with_id (todos s) ->
  exists s', key_right s = Ok s' /\
    collapsed_groups s' = collapsed_groups s ∖ {[g]} /\
    hide_completed s' = hide_completed s /\ same_list s s' /\
    match find_index (in_group g) (todos s) with
    | Some i =>
        focus_on (todos s) s' (ETodo i) /\
        (exists t, todos s !! i = Some t /\ in_group g t = true /\
           (ETodo i ∈ selectable_entries (todos s') (collapsed_groups s')
                        (hide_completed s')
            <-> shown (hide_completed s) (i, t) = true)) /\
        (forall j t, j < i -> todos s !! j = Some t -> in_group g t = false)
    | None => same_selection s s'
    end.
Proof.
  intros Hm Hty Hgrp Hne Ht Hid.
  destruct (key_right_expands s g Hm Hty Hgrp Hne Ht Hid)
    as (s' & Hk & Hc & Hh & Hl & Hsel).
  exists s'. split; [done|]. split; [done|]. split; [done|]. split; [done|].
  destruct (find_index (in_group g) (todos s)) as [i|] eqn:Hi; [|done].
  destruct (find_index_Some _ _ _ Hi) as [(t & Hit & Hin) Hfirst].
  split; [done|]. split; [|done].
  exists t. split; [done|]. split; [done|].
  destruct Hl as [-> _]. rewrite Hc, Hh. rewrite record_in_entries. split.
  - intros (t' & [Hit' Hs]%visible_lookup & _). congruence.
  - intros Hs. exists t. split; [by apply visible_lookup|].
    right. apply String.eqb_eq in Hin. unfold entry_group. simpl.
    rewrite Hin. intros [_ Hn]%elem_of_difference. apply Hn.
    by apply elem_of_singleton.
Qed.

Lemma expand_selects_first_member_witness :
  exists s', key_right (Session [mk_todo "a" "Home: x" false; mk_todo "b" "Work: y" false]
                          false 0 VNone KGroup (VStr "Work") "" 0 false VNone
                          {[ "Work" ]} false)
             = Ok s' /\ selected s' = 1 /\ selected_id s' = VStr "b".
Proof.
  destruct (expand_selects_first_member
              (Session [mk_todo "a" "Home: x" false; mk_todo "b" "Work: y" false]
                 false 0 VNone KGroup (VStr "Work") "" 0 false VNone
                 {[ "Work" ]} false) "Work")
    as (s' & H1 & _ & _ & _ & H2);
    [reflexivity | reflexivity | reflexivity | discriminate
    | repeat constructor; eexists; vm_compute; reflexivity
    | repeat constructor |].
  exists s'. split; [done|].
  change (find_index _ _) with (Some 1) in H2.
  destruct H2 as [(_ & Hs & _ & t & Ht & Hid) _]. split; [done|].
  cbn [todos] in Ht. injection Ht as <-.
  vm_compute in Hid. injection Hid as Hid. symmetry. exact Hid.
Defined.

(** X13: the Left key and then the Right key, on a selected record of a named
    group that is not collapsed: the collapsed groups, the list and the input
    field are as before, and the selection is the first record of the list
    that is of the group.  The name of the group must not be empty: a header
    with the empty name is not expanded by the Right key. *)
Theorem collapse_then_expand (s : session) (todo : dict) (g : string) :
  input_mode s = false -> selected_type s = KTodo ->
  truthy (selected_id s) = true ->
  List.find (has_id (selected_id s)) (todos s) = Some todo ->
  get_todo_group todo = Ok g -> g <> "__ungrouped__" -> g <> "" ->
  g ∉ collapsed_groups s ->
  Forall has_task (todos s) -> Forall with_id (todos s) ->
  exists s1 s2 i,
    key_left s = Ok s1 /\ key_right s1 = Ok s2 /\
    collapsed_groups s2 = collapsed_groups s /\
    hide_completed s2 = hide_completed s /\ same_list s s2 /\
    find_index (in_group g) (todos s) = Some i /\
    focus_on (todos s) s2 (ETodo i).
Proof.
  intros Hm Hty Hsid Hf Hg Hne Hne' Hnc Ht Hid.
  pose proof (key_left_collapses s todo g Hm Hty Hsid Hf Hg Hne) as Hl.
  destruct (key_right_expands
              (set_selection (set_collapsed s ({[g]} ∪ collapsed_groups s))
                 (selected s) VNone KGroup (VStr g)) g)
    as (s2 & Hr & Hc & Hh & Hsl & Hsel); try done.
  cbn [collapsed_groups hide_completed todos set_selection set_collapsed] in *.
  destruct (find_index_is_Some (in_group g) (todos s) todo) as [i Hi].
  { apply find_some in Hf as [Hin _]. by apply list_elem_of_In. }
  { apply get_todo_group_of in Hg as [_ Hg]. by apply String.eqb_eq. }
  rewrite Hi in Hsel.
  eexists _, s2, i. split; [exact Hl|]. split; [exact Hr|].
  split; [|done]. rewrite Hc. apply set_eq. intros x.
  rewrite elem_of_difference, elem_of_union, !elem_of_singleton.
  destruct (decide (x = g)) as [->|]; tauto.
Qed.

Lemma collapse_then_expand_witness :
  exists s1 s2,
    key_left (Session [mk_todo "a" "Work: x" false; mk_todo "b" "Work: y" false]
                false 1 (VStr "b") KTodo VNone "" 0 false VNone ∅ false) = Ok s1 /\
    key_right s1 = Ok s2 /\ collapsed_groups s2 = ∅ /\ selected s2 = 0.
Proof.
  destruct (collapse_then_expand
              (Session [mk_todo "a" "Work: x" false; mk_todo "b" "Work: y" false]
                 false 1 (VStr "b") KTodo VNone "" 0 false VNone ∅ false)
              (mk_todo "b" "Work: y" false) "Work")
    as (s1 & s2 & i & H1 & H2 & H3 & _ & _ & Hi & _ & Hs & _);
    [reflexivity | reflexivity | reflexivity | vm_compute; reflexivity
    | vm_compute; reflexivity | discriminate | discriminate
    | apply not_elem_of_empty
    | repeat constructor; eexists; vm_compute; reflexivity
    | repeat constructor |].
  exists s1, s2. split; [done|]. split; [done|]. split; [done|].
  change (find_index _ _) with (Some 0) in Hi. congruence.
Defined.

Section TabKey.

#[local] Arguments py_eq : simpl never.

Lemma all_groups_of_spec (l : list dict) :
  Forall has_task l ->
  exists G, all_groups_of l = Ok G /\
    forall g, g ∈ G <-> g <> "__ungrouped__" /\ exists t, t ∈ l /\ in_group g t = true.
Proof.
  induction 1 as [|x l Hx _ (G & IH & HG)]; simpl.
  - exists ∅. split; [done|]. intros g. split; [set_solver|].
    intros (_ & t & Hin & _). by inversion Hin.
  - rewrite (get_todo_group_total _ Hx), IH. cbn [mbind res_bind].
    eexists. split; [reflexivity|]. intros g.
    destruct (String.eqb (group_of (task_of x)) "__ungrouped__") eqn:E; cbn [negb].
    + rewrite HG. apply String.eqb_eq in E. split.
      * intros (Hne & t & Hin & Ht). split; [done|]. exists t. split; [by right|done].
      * intros (Hne & t & [->|Hin]%elem_of_cons & Ht).
        { unfold in_group in Ht. apply String.eqb_eq in Ht. congruence. }
        split; [done|]. by exists t.
    + apply String.eqb_neq in E. rewrite elem_of_union, elem_of_singleton, HG. split.
      * intros [->|(Hne & t & Hin & Ht)].
        { split; [done|]. exists x. split; [left|]. unfold in_group.
          by apply String.eqb_eq. }
        split; [done|]. exists t. split; [by right|done].
      * intros (Hne & t & [->|Hin]%elem_of_cons & Ht).
        { left. unfold in_group in Ht. by apply String.eqb_eq in Ht. }
        right. split; [done|]. by exists t.
Qed.

End TabKey.

(** X14: the Tab key with no group collapsed collapses every group: the collapsed
    groups are then the names, other than the sentinel, of the groups of the
    records of the list, and every record entry of the selectable sequence
    that follows is an ungrouped record.  A selected record of a named group
    gives the selection to the header of its group; any other selection
    stays. *)
Theorem tab_collapses_all (s : session) :
  input_mode s = false -> collapsed_groups s = ∅ ->
  Forall has_task (todos s) ->
  exists s', key_tab s = Ok s' /\
    (forall g, g ∈ collapsed_groups s' <->
       g <> "__ungrouped__" /\ exists t, t ∈ todos s /\ in_group g t = true) /\
    hide_completed s' = hide_completed s /\ same_list s s' /\
    (forall v t, todos s !! v = Some t ->
       ETodo v ∈ selectable_entries (todos s') (collapsed_groups s')
                   (hide_completed s') ->
       in_group "__ungrouped__" t = true) /\
    match (if bool_decide (selected_type s = KTodo) && truthy (selected_id s)
           then List.find (has_id (selected_id s)) (todos s) else None) with
    | Some todo =>
        if in_group "__ungrouped__" todo then same_selection s s'
        else focus_on (todos s) s' (EGroup (group_of (task_of todo)))
    | None => same_selection s s'
    end.
Proof.
  intros Hm Hc Ht. destruct (all_groups_of_spec _ Ht) as (G & HG & HGspec).
  assert (forall s', collapsed_groups s' = collapsed_groups s ∪ G ->
            todos s' = todos s -> hide_completed s' = hide_completed s ->
            (forall g, g ∈ collapsed_groups s' <->
               g <> "__ungrouped__" /\ exists t, t ∈ todos s /\ in_group g t = true) /\
            (forall v t, todos s !! v = Some t ->
               ETodo v ∈ selectable_entries (todos s') (collapsed_groups s')
                           (hide_completed s') ->
               in_group "__ungrouped__" t = true)) as Hprops.
  { intros s' -> -> ->. rewrite Hc.
    assert (forall g, g ∈ (∅ : gset string) ∪ G <-> g ∈ G) as HG'.
    { intros g. rewrite elem_of_union. split; [intros [H|H]; [by inversion H|done]|by right]. }
    split.
    - intros g. by rewrite HG', HGspec.
    - intros v t Hv (t' & [Hv' _]%visible_lookup & Hcase)%record_in_entries.
      assert (t' = t) as -> by congruence.
      unfold entry_group in Hcase. simpl in Hcase. unfold in_group.
      destruct Hcase as [->|Hn]; [done|].
      apply String.eqb_eq. destruct (decide (group_of (task_of t) = "__ungrouped__")) as [|Hne]; [done|].
      exfalso. apply Hn. apply HG', HGspec. split; [done|]. exists t.
      split; [by eapply list_elem_of_lookup_2|]. unfold in_group. by apply String.eqb_eq. }
  unfold key_tab. rewrite Hm, HG. cbn [mbind res_bind].
  rewrite (bool_decide_eq_true_2 _ Hc). cbn [negb]. cbv zeta.
  cbn [selected_type selected_id selected_group todos collapsed_groups set_collapsed].
  destruct (bool_decide (selected_type s = KTodo) && truthy (selected_id s)) eqn:Hguard;
    cbn [andb].
  2:{ eexists. split; [reflexivity|].
      by destruct (Hprops (set_collapsed s (collapsed_groups s ∪ G))) as [H1 H2]. }
  destruct (List.find (has_id (selected_id s)) (todos s)) as [todo|] eqn:Hf.
  2:{ destruct (truthy_list (todos s)); cbn [andb];
      (eexists; split; [reflexivity|]);
      by destruct (Hprops (set_collapsed s (collapsed_groups s ∪ G))) as [H1 H2]. }
  assert (todo ∈ todos s) as Hin.
  { apply find_some in Hf as [Hin _]. by apply list_elem_of_In. }
  assert (truthy_list (todos s) = true) as ->.
  { destruct (todos s); [by inversion Hin|done]. }
  assert (has_task todo) as Htodo.
  { rewrite Forall_forall in Ht. by apply Ht. }
  rewrite (get_todo_group_total _ Htodo). cbn [mbind res_bind].
  unfold in_group at 3.
  destruct (String.eqb (group_of (task_of todo)) "__ungrouped__") eqn:E.
  - rewrite bool_decide_eq_false_2.
    2:{ rewrite Hc. intros [H|H]%elem_of_union; [by inversion H|].
        apply HGspec in H as [Hne _]. by apply String.eqb_eq in E. }
    eexists. split; [reflexivity|].
    by destruct (Hprops (set_collapsed s (collapsed_groups s ∪ G))) as [H1 H2].
  - rewrite bool_decide_eq_true_2.
    2:{ apply elem_of_union. right. apply HGspec. apply String.eqb_neq in E.
        split; [done|]. exists todo. split; [done|]. unfold in_group.
        by apply String.eqb_eq. }
    eexists. split; [reflexivity|].
    by destruct (Hprops (set_selection (set_collapsed s (collapsed_groups s ∪ G))
                        (selected s) VNone KGroup (VStr (group_of (task_of todo)))))
      as [H1 H2].
Qed.

Lemma tab_collapses_all_witness :
  exists s',
    key_tab (Session [mk_todo "a" "Home: x" false; mk_todo "b" "y" false]
               false 0 (VStr "a") KTodo VNone "" 0 false VNone ∅ false) = Ok s' /\
    "Home" ∈ collapsed_groups s' /\ selected_group s' = VStr "Home".
Proof.
  destruct (tab_collapses_all
              (Session [mk_todo "a" "Home: x" false; mk_todo "b" "y" false]
                 false 0 (VStr "a") KTodo VNone "" 0 false VNone ∅ false))
    as (s' & H1 & H2 & _ & _ & _ & H3);
    [reflexivity | reflexivity
    | repeat constructor; eexists; vm_compute; reflexivity |].
  exists s'. split; [done|]. split.
  - apply H2. split; [discriminate|]. exists (mk_todo "a" "Home: x" false).
    split; [left | vm_compute; reflexivity].
  - vm_compute in H3. destruct H3 as (_ & H3 & _). exact H3.
Defined.

(** X15: the Tab key with a group collapsed expands every group: no group is
    collapsed, and the selectable sequence that follows has no header.  A
    selected header of a group with a name gives the selection to the first
    record of the list that is of the group, and the name of the group stays
    in the selection; any other selection stays. *)
Theorem tab_expands_all (s : session) :
  input_mode s = false -> collapsed_groups s <> ∅ ->
  Forall has_task (todos s) -> Forall with_id (todos s) ->
  exists s', key_tab s = Ok s' /\
    collapsed_groups s' = ∅ /\
    hide_completed s' = hide_completed s /\ same_list s s' /\
    (forall g, EGroup g ∉ selectable_entries (todos s') (collapsed_groups s')
                            (hide_completed s')) /\
    match selected_type s, selected_group s with
    | KGroup, VStr g =>
        match (if String.eqb g "" then None else find_index (in_group g) (todos s)) with
        | Some i =>
            selected_type s' = KTodo /\ selected s' = i /\
            selected_group s' = selected_group s /\
            exists t : dict, todos s !! i = Some t /\ t !! "id" = Some (selected_id s')
        | None => same_selection s s'
        end
    | _, _ => same_selection s s'
    end.
Proof.
  intros Hm Hc Ht Hid. destruct (all_groups_of_spec _ Ht) as (G & HG & _).
  assert (forall s', collapsed_groups s' = ∅ ->
            forall g, EGroup g ∉ selectable_entries (todos s') (collapsed_groups s')
                                   (hide_completed s')) as Hprops.
  { intros s' -> g (_ & H & _)%header_in_entries. by inversion H. }
  assert (forall k v (l : list dict), Forall has_task l ->
            (forall g, v <> VStr g) -> find_group_member v k l = Ok None) as Hnone.
  { clear. intros k v l Hl Hv. revert k.
    induction Hl as [|y l Hy _ IH]; intros k; [done|].
    simpl. rewrite (get_todo_group_total _ Hy). cbn [mbind res_bind].
    destruct v; try apply IH. by destruct (Hv s). }
  unfold key_tab. rewrite Hm, HG. cbn [mbind res_bind].
  rewrite (bool_decide_eq_false_2 _ Hc). cbn [negb]. cbv zeta.
  cbn [selected_type selected_id selected_group todos collapsed_groups set_collapsed].
  destruct (bool_decide (selected_type s = KGroup) && truthy (selected_group s))
    eqn:Hguard.
  2:{ eexists. split; [reflexivity|]. split; [done|]. split; [done|].
      split; [by repeat split|]. split; [by apply Hprops|].
      destruct (selected_type s); [done|]. rewrite bool_decide_eq_true_2 in Hguard by done.
      cbn [andb] in Hguard. destruct (selected_group s) as [| | |g]; try done.
      cbn [truthy] in Hguard. apply negb_false_iff in Hguard. by rewrite Hguard. }
  apply andb_true_iff in Hguard as [Hty%bool_decide_eq_true Hgrp]. rewrite Hty.
  destruct (selected_group s) as [| | |g] eqn:Hg.
  - done.
  - rewrite Hnone by done. cbn [mbind res_bind].
    eexists. split; [reflexivity|]. split; [done|]. split; [done|].
    split; [by repeat split|]. split; [by apply Hprops|].
    unfold same_selection. cbn. by rewrite Hg.
  - rewrite Hnone by done. cbn [mbind res_bind].
    eexists. split; [reflexivity|]. split; [done|]. split; [done|].
    split; [by repeat split|]. split; [by apply Hprops|].
    unfold same_selection. cbn. by rewrite Hg.
  - cbn [truthy] in Hgrp. apply negb_true_iff in Hgrp. rewrite Hgrp.
    rewrite (find_group_member_spec g 0 _ Ht).
    destruct (find_index (in_group g) (todos s)) as [i|] eqn:Hi.
    + destruct (find_index_Some _ _ _ Hi) as [(t & Hit & _) _].
      rewrite Hit. cbn [fmap option_fmap option_map mbind res_bind].
      assert (with_id t) as [sid Hsid]%has_key_true.
      { rewrite Forall_forall in Hid. apply Hid. by eapply list_elem_of_lookup_2. }
      unfold getitem. rewrite Hsid. cbn [mbind res_bind].
      eexists. split; [reflexivity|]. split; [done|]. split; [done|].
      split; [by repeat split|]. split; [by apply Hprops|].
      cbn. split; [done|]. split; [done|]. split; [done|]. by exists t.
    + cbn [mbind res_bind]. eexists. split; [reflexivity|]. split; [done|].
      split; [done|]. split; [by repeat split|]. split; [by apply Hprops|].
      unfold same_selection. cbn. by rewrite Hg.
Qed.

Lemma tab_expands_all_witness :
  exists s',
    key_tab (Session [mk_todo "a" "Home: x" false; mk_todo "b" "Work: y" false]
               false 0 VNone KGroup (VStr "Work") "" 0 false VNone
               {[ "Home"; "Work" ]} false) = Ok s' /\
    collapsed_groups s' = ∅ /\ selected s' = 1.
Proof.
  destruct (tab_expands_all
              (Session [mk_todo "a" "Home: x" false; mk_todo "b" "Work: y" false]
                 false 0 VNone KGroup (VStr "Work") "" 0 false VNone
                 {[ "Home"; "Work" ]} false))
    as (s' & H1 & H2 & _ & _ & _ & H3);
    [reflexivity
    | intros H; apply (f_equal (fun c : gset string => bool_decide ("Home" ∈ c))) in H;
      vm_compute in H; discriminate
    | repeat constructor; eexists; vm_compute; reflexivity
    | repeat constructor |].
  exists s'. split; [done|]. split; [done|].
  vm_compute in H3. destruct H3 as (_ & H3 & _). exact H3.
Defined.

(** ** The filter of the completed records *)

Section HideKey.

#[local] Arguments py_eq : simpl never.

Lemma select_entry_set s e :
  Forall with_id (todos s) -> valid_entry (todos s) e ->
  exists sel sid ty grp,
    select_entry s e = Ok (set_selection s sel sid ty grp) /\
    focus_on (todos s) (set_selection s sel sid ty grp) e.
Proof.
  intros Hid He. destruct e as [v|g]; simpl in *.
  - destruct (lookup_lt_is_Some_2 _ _ He) as [t Ht].
    rewrite index_lookup, Ht. simpl.
    assert (with_id t) as [sid Hsid]%has_key_true.
    { rewrite Forall_forall in Hid. apply Hid. by eapply list_elem_of_lookup_2. }
    unfold getitem. rewrite Hsid. simpl. eexists _, _, _, _. split; [done|].
    repeat split. by exists t.
  - eexists _, _, _, _. split; [done|]. by repeat split.
Qed.

Lemma find_is_Some {A} (p : A -> bool) l :
  is_Some (List.find p l) <-> exists x, x ∈ l /\ p x = true.
Proof.
  split.
  - intros [x [Hin Hp]%find_some]. exists x. by rewrite list_elem_of_In.
  - intros (x & Hin & Hp). destruct (List.find p l) eqn:E; [by eexists|].
    apply list_elem_of_In in Hin. pose proof (find_none _ _ E x Hin). congruence.
Qed.

End HideKey.

(** X16: Ctrl+H outside the input field switches the filter of the completed
    records and leaves the list, the collapsed groups and the input field as
    they are.  When the filter is switched on while the selected record is
    completed, the selection goes to the first entry of the selectable
    sequence of the filtered list, and stays when that sequence is empty; in
    every other case the selection stays. *)
Theorem hide_completed_selection (s : session) :
  input_mode s = false ->
  Forall has_task (todos s) -> Forall with_id (todos s) ->
  exists s', key_ctrl_h s = Ok s' /\
    hide_completed s' = negb (hide_completed s) /\
    collapsed_groups s' = collapsed_groups s /\ same_list s s' /\
    ((hide_completed s = false /\ selected_type s = KTodo /\
      truthy (selected_id s) = true /\ selected_is_done s) ->
     match selectable_entries (todos s) (collapsed_groups s) true with
     | e :: _ => focus_on (todos s) s' e
     | [] => same_selection s s'
     end) /\
    (~ (hide_completed s = false /\ selected_type s = KTodo /\
        truthy (selected_id s) = true /\ selected_is_done s) ->
     same_selection s s').
Proof.
  intros Hm Ht Hid. unfold key_ctrl_h. rewrite Hm. cbv zeta.
  cbn [hide_completed selected_type selected_id todos collapsed_groups set_hide].
  destruct (negb (hide_completed s) && bool_decide (selected_type s = KTodo)
            && truthy (selected_id s)) eqn:Hguard.
  2:{ eexists. split; [reflexivity|]. split; [done|]. split; [done|].
      split; [by repeat split|]. split; [|by repeat split].
      intros (Hh & Hty & Hsid & _). rewrite Hh, Hty, Hsid in Hguard.
      by rewrite bool_decide_eq_true_2 in Hguard. }
  apply andb_true_iff in Hguard as [[Hh Hty%bool_decide_eq_true]%andb_true_iff Hsid].
  apply negb_true_iff in Hh.
  destruct (List.find _ (todos s)) as [x|] eqn:Hf.
  2:{ eexists. split; [reflexivity|]. split; [done|]. split; [done|].
      split; [by repeat split|]. split; [|by repeat split].
      intros (_ & _ & _ & todo & Hin & Hhas & Hdone).
      apply list_elem_of_In in Hin. pose proof (find_none _ _ Hf todo Hin) as Hn.
      cbv beta in Hn. by rewrite Hhas, Hdone in Hn. }
  rewrite (build_selectable_items_refines _ _ _ Ht). cbn [mbind res_bind].
  rewrite Hh. cbn [negb].
  destruct (selectable_entries (todos s) (collapsed_groups s) true) as [|e sel] eqn:Hsel.
  { eexists. split; [reflexivity|]. split; [done|]. split; [done|].
    split; [by repeat split|]. split; [|by repeat split]. by intros _. }
  destruct (select_entry_set (set_hide s true) e) as (i & sid & ty & grp & -> & Hfocus).
  { done. }
  { destruct e as [v|g]; [|done]. simpl.
    apply (selectable_entries_valid _ (collapsed_groups s) true). rewrite Hsel. left. }
  eexists. split; [reflexivity|]. split; [done|]. split; [done|].
  split; [by repeat split|]. split; [by intros _|].
  intros Hn. exfalso. apply Hn. split; [done|]. split; [done|]. split; [done|].
  apply find_some in Hf as [Hin [Hhas Hdone]%andb_true_iff].
  exists x. by rewrite list_elem_of_In.
Qed.

Lemma hide_completed_selection_witness :
  exists s',
    key_ctrl_h (Session [mk_todo "a" "x" true; mk_todo "b" "y" false]
                  false 0 (VStr "a") KTodo VNone "" 0 false VNone ∅ false) = Ok s' /\
    hide_completed s' = true /\ selected s' = 1.
Proof.
  destruct (hide_completed_selection
              (Session [mk_todo "a" "x" true; mk_todo "b" "y" false]
                 false 0 (VStr "a") KTodo VNone "" 0 false VNone ∅ false))
    as (s' & H1 & H2 & _ & _ & H3 & _);
    [reflexivity
    | repeat constructor; eexists; vm_compute; reflexivity
    | repeat constructor |].
  exists s'. split; [done|]. split; [done|].
  assert (selectable_entries [mk_todo "a" "x" true; mk_todo "b" "y" false] ∅ true
          = [ETodo 1]) as Hsel by (vm_compute; reflexivity).
  cbn [todos collapsed_groups] in H3. rewrite Hsel in H3.
  destruct H3 as (_ & H3 & _); [|done].
  split; [done|]. split; [done|]. split; [done|].
  exists (mk_todo "a" "x" true). split; [left | split; vm_compute; reflexivity].
Defined.

(** ** Opening a record for an edit and saving it unchanged *)

Section EditRoundTrip.

#[local] Arguments py_eq : simpl never.

(** F2 puts the text that the display shows for the record into the input
    field. *)
Lemma key_f2_opens s (todo : dict) task priority group text :
  input_mode s = false -> selected_type s = KTodo ->
  truthy (selected_id s) = true ->
  List.find (has_id (selected_id s)) (todos s) = Some todo ->
  todo !! "task" = Some (VStr task) ->
  decode_task task = Ok (priority, group, text) ->
  key_f2 s = Ok (set_input s text (String.length text) true (selected_id s)).
Proof.
  intros Hm Hty Hsid Hf Htask Hd. unfold key_f2. rewrite Hm, Hty, Hsid, Hf.
  rewrite bool_decide_eq_true_2 by done.
  assert (truthy_list (todos s) = true) as ->.
  { apply find_some in Hf as [Hin _]. by destruct (todos s). }
  cbn [negb andb]. unfold getitem. rewrite Htask. cbn [mbind res_bind as_str].
  cbv zeta. rewrite cut_priority_extract.
  destruct (extract_priority task) as [q clean] eqn:E. cbn [snd].
  destruct (contains ":" clean) eqn:Hc.
  - apply contains_split in Hc as (a & b & -> & Ha).
    rewrite (decode_task_colon _ _ _ _ _ E eq_refl Ha) in Hd.
    injection Hd as _ _ <-. rewrite split1_at by done. reflexivity.
  - rewrite (decode_task_plain _ _ _ E Hc) in Hd. injection Hd as _ _ <-.
    reflexivity.
Qed.

(** The edit with the text that the display shows gives a record that the
    display shows in the same way. *)
Lemma edit_same_text (todo : dict) task priority group text :
  todo !! "task" = Some (VStr task) ->
  decode_task task = Ok (priority, group, text) ->
  strip text = text ->
  exists todo', edit_task text todo = Ok todo' /\ tuple_of todo' = tuple_of todo.
Proof.
  intros Htask Hd Hs. destruct (extract_priority task) as [q clean] eqn:E.
  rewrite (edit_task_eq _ _ _ _ _ Htask E). eexists. split; [reflexivity|].
  unfold tuple_of, getitem, get, get_default.
  rewrite lookup_insert_eq, Htask, !lookup_insert_ne by done.
  cbn [mbind res_bind as_str]. rewrite Hd.
  destruct (contains ":" clean) eqn:Hc.
  - apply contains_split in Hc as (a & b & -> & Ha).
    rewrite split1_at by done. cbn [head default].
    pose proof Hd as Hd'.
    rewrite (decode_task_colon _ _ _ _ _ E eq_refl Ha) in Hd'.
    injection Hd' as <- _ _. change (id a) with a.
    rewrite (decode_edited_grouped _ _ _ _ text a b E Ha Hd). by rewrite Hs.
  - pose proof Hd as Hd'.
    rewrite (decode_task_plain _ _ _ E Hc) in Hd'. injection Hd' as <- _ <-.
    rewrite Hs. change ("" +:+ clean) with clean.
    assert (marker q +:+ clean = task) as ->; [|by rewrite Hd].
    destruct (extract_priority_cases task) as
      [(c & -> & E') | [(c & -> & E') | (_ & _ & E')]];
      rewrite E' in E; by injection E as <- <-.
Qed.

Lemma find_find_index {A} (p : A -> bool) l x :
  List.find p l = Some x ->
  exists i, find_index p l = Some i /\ l !! i = Some x.
Proof.
  induction l as [|y l IH]; simpl; [done|].
  destruct (p y).
  - intros [= ->]. by exists 0.
  - intros (i & -> & Hi)%IH. by exists (S i).
Qed.

End EditRoundTrip.

(** X17: F2 and then Enter, with the list in memory the list of the file: F2
    puts the text that the display shows for the selected record into the
    input field, with the cursor at its end; Enter then writes the file with
    the record replaced by one of the same id, priority, group, text and
    [done], and the other records as they were.  The text must not be blank
    and must have no white space at its ends, which holds of every grouped
    record. *)
Theorem edit_unchanged_round_trip (s : session) (w : world) (todo : dict)
    task priority group text :
  input_mode s = false -> selected_type s = KTodo ->
  truthy (selected_id s) = true ->
  List.find (has_id (selected_id s)) (todos s) = Some todo ->
  todo !! "task" = Some (VStr task) ->
  decode_task task = Ok (priority, group, text) ->
  text <> "" -> strip text = text ->
  on_disk w = todos s ->
  Forall has_task (todos s) -> Forall with_id (todos s) ->
  exists s1 i todo' written s2,
    key_f2 s = Ok s1 /\
    input_text s1 = text /\ cursor_pos s1 = String.length text /\
    input_mode s1 = true /\ editing_id s1 = selected_id s /\
    same_selection s s1 /\ todos s1 = todos s /\
    key_enter s1 w = Ok (s2, World (Some written) (uuid_src w) (uuid_next w)) /\
    find_index (has_id (selected_id s)) (todos s) = Some i /\
    todos s !! i = Some todo /\
    tuple_of todo' = tuple_of todo /\
    Permutation written (<[i := todo']> (todos s)) /\
    todos s2 = written.
Proof.
  intros Hm Hty Hsid Hf Htask Hd Hne Hs Hdisk Ht Hid.
  pose proof (key_f2_opens s todo task priority group text Hm Hty Hsid Hf Htask Hd) as H2.
  destruct (key_enter_edit
              (set_input s text (String.length text) true (selected_id s)) w)
    as (ts & written & s2 & Hu & He & Hp & Hts).
  { by rewrite Hdisk. }
  { by rewrite Hdisk. }
  { cbn [input_text set_input]. rewrite Hs. by destruct text. }
  { done. }
  cbn [input_text editing_id set_input] in Hu. rewrite Hdisk in Hu.
  destruct (find_find_index _ _ _ Hf) as (i & Hi & Hit).
  destruct (edit_same_text todo task priority group text Htask Hd Hs)
    as (todo' & Hedit & Htuple).
  apply update_first_spec in Hu as [[Hnone _] | (j & x & x' & Hj & Hjx & Hfx & ->)];
    [congruence|].
  assert (j = i) as -> by congruence.
  assert (x = todo) as -> by congruence.
  assert (x' = todo') as -> by congruence.
  eexists _, i, todo', written, s2. split; [exact H2|].
  repeat (split; [done|]). done.
Qed.

Lemma edit_unchanged_round_trip_witness :
  exists s1 s2 w2,
    key_f2 (Session [mk_todo "a" "! Work: x" false; mk_todo "b" "y" false]
              false 0 (VStr "a") KTodo VNone "" 0 false VNone ∅ false) = Ok s1 /\
    input_text s1 = "x" /\
    key_enter s1 (w0 (Some [mk_todo "a" "! Work: x" false; mk_todo "b" "y" false]))
    = Ok (s2, w2).
Proof.
  destruct (edit_unchanged_round_trip
              (Session [mk_todo "a" "! Work: x" false; mk_todo "b" "y" false]
                 false 0 (VStr "a") KTodo VNone "" 0 false VNone ∅ false)
              (w0 (Some [mk_todo "a" "! Work: x" false; mk_todo "b" "y" false]))
              (mk_todo "a" "! Work: x" false) "! Work: x" 1 "Work" "x")
    as (s1 & i & todo' & written & s2 & H1 & H2 & _ & _ & _ & _ & _ & H3 & _);
    [reflexivity | reflexivity | reflexivity | vm_compute; reflexivity
    | vm_compute; reflexivity | vm_compute; reflexivity | discriminate
    | vm_compute; reflexivity | reflexivity
    | repeat constructor; eexists; vm_compute; reflexivity
    | repeat constructor |].
  by eexists s1, s2, _.
Defined.

(** ** Records without an id *)

Section Legacy.

#[local] Arguments py_eq : simpl never.

Lemma backfill_ids_eq ds w :
  backfill_ids ds w =
  Ok (backfill_from (uuid_src w) (uuid_next w) ds,
      World (file w) (uuid_src w) (uuid_next w + length (legacy ds))).
Proof.
  revert w; induction ds as [|d ds IH]; intros w; simpl.
  - unfold_M. rewrite Nat.add_0_r. by destruct w.
  - unfold_M. unfold legacy. simpl. destruct (has_key d "id") eqn:Hid; simpl.
    + by rewrite IH.
    + rewrite IH. simpl. do 3 f_equal. unfold legacy. lia.
Qed.

Lemma length_backfill_from src n ds : length (backfill_from src n ds) = length ds.
Proof.
  revert n; induction ds as [|d ds IH]; intros n; simpl; [done|].
  destruct (has_key d "id"); simpl; by rewrite IH.
Qed.

Lemma backfill_from_has_task src n ds :
  Forall has_task ds -> Forall has_task (backfill_from src n ds).
Proof.
  intros H; revert n; induction H as [|d ds [task Hd] _ IH]; intros n; simpl; [done|].
  destruct (has_key d "id"); constructor; try apply IH; [by exists task|].
  exists task. by rewrite lookup_insert_ne.
Qed.

(** The records of the list that [load_todos] returns: the records of the
    file that have an id, and the others with one of the ids drawn. *)
Lemma elem_of_backfill_from src n ds (t : dict) :
  t ∈ backfill_from src n ds ->
  (t ∈ ds /\ with_id t) \/
  (exists d j, d ∈ ds /\ n <= j < n + length (legacy ds) /\ t = <["id" := VStr (src j)]> d).
Proof.
  revert n; induction ds as [|d ds IH]; intros n; simpl; [by inversion 1|].
  unfold legacy. simpl. destruct (has_key d "id") eqn:Hid; simpl.
  - intros [->|Hin]%elem_of_cons; [left; split; [left|done]|].
    destruct (IH _ Hin) as [[? ?]|(d' & j & ? & ? & ?)].
    + left. split; [by right|done].
    + right. exists d', j. split; [by right|done].
  - intros [->|Hin]%elem_of_cons.
    + right. exists d, n. split; [left|]. split; [lia|done].
    + destruct (IH _ Hin) as [[? ?]|(d' & j & ? & Hj & ?)].
      * left. split; [by right|done].
      * right. exists d', j. split; [by right|]. unfold legacy in Hj. split; [lia|done].
Qed.

Lemma backfill_from_keeps src n ds (d : dict) :
  d ∈ ds -> with_id d -> d ∈ backfill_from src n ds.
Proof.
  revert n; induction ds as [|x ds IH]; intros n; [by inversion 1|].
  intros [->|Hin]%elem_of_cons Hd; simpl.
  - unfold with_id in Hd. rewrite Hd. left.
  - destruct (has_key x "id"); right; by apply IH.
Qed.

(** Of a second run of the loop over the same file, with ids that the
    list [ours] does not have, the filter of [save_todos] keeps the records
    that have no id in the file. *)
Lemma foreign_backfill src k ds (ours : list value) :
  (forall d : dict, d ∈ ds -> with_id d -> py_in (get d "id") ours = true) ->
  (forall m, k <= m -> py_in (VStr (src m)) ours = false) ->
  List.filter (fun t : dict => negb (py_in (get t "id") ours)) (backfill_from src k ds)
  = backfill_from src k (legacy ds).
Proof.
  intros Ha Hb. revert k Hb. induction ds as [|d ds IH]; intros k Hb; [done|].
  unfold legacy. simpl. destruct (has_key d "id") eqn:Hid; simpl.
  - rewrite (Ha d) by (done || left). simpl. apply IH; [|done].
    intros d' Hin. apply Ha. by right.
  - rewrite Hid. unfold get at 1. rewrite lookup_insert_eq. simpl.
    rewrite (Hb k) by lia. simpl. f_equal. apply IH.
    + intros d' Hin. apply Ha. by right.
    + intros m Hm. apply Hb. lia.
Qed.

Lemma py_eq_str a v : py_eq (VStr a) v = true -> v = VStr a.
Proof.
  destruct v as [| | |b]; unfold py_eq; try done.
  by intros ->%String.eqb_eq.
Qed.

End Legacy.

(** X18: a file with records that have no id: [load_todos] gives each of them a
    new id in memory and leaves the file as it is, so the save that follows
    reads them again, gives them other ids, takes them for records of
    another session and adds them.  The file written holds the list of
    memory and, once more, every record that had no id, under a second id.
    The ids drawn are taken to differ from one another and from the ids of
    the file. *)
Theorem legacy_records_duplicated (w : world) (ds : list dict) :
  file w = Some ds -> Forall has_task ds ->
  (forall m n, uuid_src w m = uuid_src w n -> m = n) ->
  (forall (d : dict) n, d ∈ ds -> d !! "id" <> Some (VStr (uuid_src w n))) ->
  exists w1 written w2,
    let ts := backfill_from (uuid_src w) (uuid_next w) ds in
    load_todos w = Ok (ts, w1) /\ file w1 = Some ds /\
    save_todos ts w1 = Ok ((), w2) /\ file w2 = Some written /\
    Permutation written
      (ts ++ backfill_from (uuid_src w) (uuid_next w + length (legacy ds)) (legacy ds)) /\
    length written = length ds + length (legacy ds).
Proof.
  intros Hf Ht Hinj Hfresh. cbv zeta.
  set (src := uuid_src w). set (n := uuid_next w). set (c := length (legacy ds)).
  set (ts := backfill_from src n ds).
  assert (load_todos w = Ok (ts, World (Some ds) src (n + c))) as Hl.
  { unfold load_todos. rewrite Hf, backfill_ids_eq. by rewrite Hf. }
  set (w1 := World (Some ds) src (n + c)) in *.
  assert (load_todos w1 = Ok (backfill_from src (n + c) ds, World (Some ds) src (n + c + c)))
    as Hl1.
  { unfold load_todos. simpl. by rewrite backfill_ids_eq. }
  assert (foreign ts (backfill_from src (n + c) ds) = backfill_from src (n + c) (legacy ds))
    as Hforeign.
  { unfold foreign. apply foreign_backfill.
    - intros d Hin Hd. apply py_in_own; [|done]. by apply backfill_from_keeps.
    - intros m Hm. unfold py_in. apply not_true_is_false.
      intros (v & Hv & Heq)%existsb_exists. apply py_eq_str in Heq. subst v.
      apply list_elem_of_In, list_elem_of_omap in Hv as (t & Hin & Hid).
      apply elem_of_backfill_from in Hin as [[Hin _]|(d & j & Hin & Hj & ->)].
      + by apply (Hfresh t m).
      + rewrite lookup_insert_eq in Hid. injection Hid as Hid.
        apply Hinj in Hid. fold c in Hj. lia. }
  destruct (save_todos_spec ts w1 _ _ Hl1) as (sorted & Hs & Hp & _).
  { rewrite Hforeign. apply Forall_app. split; apply backfill_from_has_task; [done|].
    unfold legacy. rewrite Forall_forall in Ht. apply Forall_forall.
    intros x [Hx _]%elem_of_List_filter. by apply Ht. }
  rewrite Hforeign in Hp.
  eexists w1, sorted, _. split; [done|]. split; [done|]. split; [exact Hs|].
  split; [done|]. split; [done|].
  rewrite (Permutation_length Hp), length_app. unfold ts.
  by rewrite !length_backfill_from.
Qed.

Lemma legacy_records_duplicated_witness :
  exists w1 written w2,
    load_todos (w0 (Some [ {["task" := VStr "old"]} ])) = Ok ([ {["id" := VStr "u0"; "task" := VStr "old"]} ], w1) /\
    save_todos [ {["id" := VStr "u0"; "task" := VStr "old"]} ] w1 = Ok ((), w2) /\
    file w2 = Some written /\ length written = 2.
Proof.
  destruct (legacy_records_duplicated (w0 (Some [ {["task" := VStr "old"]} ]))
              [ {["task" := VStr "old"]} ])
    as (w1 & written & w2 & H1 & _ & H2 & H3 & _ & H4).
  - reflexivity.
  - repeat constructor. eexists. vm_compute. reflexivity.
  - intros m n H. simpl in H. injection H as H. by apply (inj pretty) in H.
  - intros d n ->%list_elem_of_singleton. vm_compute. discriminate.
  - exists w1, written, w2. cbv zeta in H1, H2.
    assert (backfill_from (uuid_src (w0 (Some [ {["task" := VStr "old"]} ]))) 0
              [ {["task" := VStr "old"]} ]
            = [ {["id" := VStr "u0"; "task" := VStr "old"]} ]) as E
      by (vm_compute; reflexivity).
    change (uuid_next (w0 _)) with 0 in H1, H2. rewrite E in H1, H2.
    by repeat split.
Defined.

(** ** The start of the program *)

(** X19: the locals of [main] before its loop.  When the first
    [load_todos] returns a list, the start returns too, without another read
    or write of the file: the list is that list; the first row is selected,
    with the id of the first record, which every loaded record has, or with
    no id when the list is empty; the selection is a record; the input field
    is empty, no edit is under way, no group is collapsed and nothing is
    hidden. *)
Theorem startup_selects_first (w : world) (l : list dict) (w' : world) :
  load_todos w = Ok (l, w') ->
  exists sid,
    initial w = Ok (Session l false 0 sid KTodo VNone "" 0 false VNone ∅ false, w') /\
    match l with
    | [] => sid = VNone
    | t :: _ => t !! "id" = Some sid
    end.
Proof.
  intros Hl. pose proof (load_todos_with_id _ _ _ Hl) as Hid.
  unfold initial. unfold_M. rewrite Hl.
  destruct l as [|t l].
  - by exists VNone.
  - inversion Hid as [|? ? [v Hv]%has_key_true _]; subst.
    change (0 <? len (t :: l))%Z with true. cbn [index nth_error].
    unfold getitem. rewrite Hv. by exists v.
Qed.

Lemma startup_selects_first_witness :
  exists sid w',
    initial (w0 (Some [ {["task" := VStr "old"]} ]))
    = Ok (Session [ {["id" := VStr "u0"; "task" := VStr "old"]} ] false 0 sid KTodo
            VNone "" 0 false VNone ∅ false, w') /\
    sid = VStr "u0".
Proof.
  destruct (startup_selects_first (w0 (Some [ {["task" := VStr "old"]} ]))
              [ {["id" := VStr "u0"; "task" := VStr "old"]} ]
              (World (Some [ {["task" := VStr "old"]} ]) (fun n => "u" +:+ pretty n) 1))
    as (sid & H1 & H2); [vm_compute; reflexivity|].
  exists sid. eexists. split; [exact H1|].
  vm_compute in H2. by injection H2 as <-.
Defined.
